(** * The block state processor and the authorization-tuple codec

    A shallow embedding of [core/state_processor.go] (the block
    orchestrator, the legacy transaction applier and the two phases of the
    account-abstraction protocol) and of [tests/gen_stauthorization.go] (the
    JSON codec of the authorization tuple), followed by the properties
    proved of them. *)

From Stdlib Require Import ZArith String Ascii Bool Lia List Sorted.
From Stdlib.Strings Require Import Byte.
From Stdlib Require HexString.
Import ListNotations.
Open Scope Z_scope.

(** ** Go values *)

Module Go.

Definition bytes := list byte.

(** [common.Address] is [[20]byte], [common.Hash] is [[32]byte]. *)
Definition Address := bytes.
Definition Hash := bytes.

(** The zero values [common.Address{}], [common.Hash{}] and
    [types.Bloom{}]. *)
Definition Address_zero : Address := repeat x00 20.
Definition Hash_zero : Hash := repeat x00 32.
Definition Bloom_zero : bytes := repeat x00 256.

Definition bytes_eqb (a b : bytes) : bool :=
  if list_eq_dec Byte.byte_eq_dec a b then true else false.

(** A Go [error] value: [errors.New(msg)], or the wrapping
    [fmt.Errorf("could not apply tx %d [%v]: %w", i, hash, err)] of
    [Process].  Errors of the collaborators are [errors_New] values. *)
Inductive error : Type :=
| errors_New (msg : string)
| Errorf_could_not_apply_tx (i : Z) (hash : Hash) (err : error).

(** Run-time panics of the constructs the source uses. *)
Inductive panic : Type :=
| nil_dereference
| slice_bounds_out_of_range (low : nat) (len : nat).

Inductive Outcome (A : Type) : Type :=
| Returns (a : A)
| Panics (p : panic).
Arguments Returns {A} a.
Arguments Panics {A} p.

(** [s[low:]]: the bounds check is [low <= len(s)]. *)
Definition slice_from (low : nat) (s : bytes) : Outcome bytes :=
  if (low <=? length s)%nat then Returns (skipn low s)
  else Panics (slice_bounds_out_of_range low (length s)).

(** [[20]byte(s[0:20])], for a slice whose capacity is its length. *)
Definition array20 (s : bytes) : Outcome Address :=
  if (20 <=? length s)%nat then Returns (firstn 20 s)
  else Panics (slice_bounds_out_of_range 20 (length s)).

(** [*p] *)
Definition deref {A : Type} (p : option A) : Outcome A :=
  match p with
  | Some a => Returns a
  | None => Panics nil_dereference
  end.

Definition uint64_mod : Z := 2 ^ 64.

(** Addition on [uint64]. *)
Definition add64 (a b : Z) : Z := (a + b) mod uint64_mod.

End Go.

Import Go.

(** ** core/state_processor.go *)

Module Core.

(** *** Data *)

(** [types.AccessList] *)
Definition AccessList := list (Address * list Hash).

(** [core.Message], with the fields this file sets.  Big integers are
    pointers, [None] being [nil]. *)
Record Message : Type := {
  From : Address;
  To : option Address;
  Value : option Z;
  GasLimit : Z;
  GasPrice : option Z;
  GasFeeCap : option Z;
  GasTipCap : option Z;
  Data : bytes;
  MsgAccessList : AccessList;
  SkipAccountChecks : bool;
  IsInnerAATxFrame : bool
}.

(** The zero value [Message{}]. *)
Definition Message_zero : Message := {|
  From := Address_zero;
  To := None;
  Value := None;
  GasLimit := 0;
  GasPrice := None;
  GasFeeCap := None;
  GasTipCap := None;
  Data := [];
  MsgAccessList := [];
  SkipAccountChecks := false;
  IsInnerAATxFrame := false
|}.

(** [core.ExecutionResult]; [Failed] is [result.Err != nil]. *)
Record ExecutionResult : Type := {
  UsedGas : Z;
  Err : option error;
  ReturnData : bytes
}.

Definition Failed (result : ExecutionResult) : bool :=
  match Err result with
  | Some _ => true
  | None => false
  end.

(** [types.AlexfAccountAbstractionTx], with the fields this file reads. *)
Record AlexfAccountAbstractionTx : Type := {
  Sender : option Address;
  PaymasterData : bytes;
  DeployerData : bytes;
  TxAccessList : AccessList
}.

(** [types.Transaction], seen through the methods this file calls. *)
Record Transaction : Type := {
  tx_Type : Z;
  tx_Hash : Hash;
  tx_Nonce : Z;
  tx_BlobHashes : list Hash;
  tx_AlexfAATransactionData : option AlexfAccountAbstractionTx
}.

Record Header : Type := {
  Number : Z;
  Time : Z;
  Coinbase : Address;
  BaseFee : option Z;
  HeaderGasLimit : Z;
  header_Hash : Hash
}.

Record Withdrawal : Type := {
  wd_Index : Z;
  wd_Validator : Z;
  wd_Address : Address;
  wd_Amount : Z
}.

Record Block : Type := {
  block_Header : Header;
  block_BeaconRoot : option Hash;
  block_Transactions : list Transaction;
  block_Uncles : list Header;
  block_Withdrawals : list Withdrawal
}.

Definition block_Hash (b : Block) : Hash := header_Hash (block_Header b).
Definition block_Number (b : Block) : Z := Number (block_Header b).
Definition block_Time (b : Block) : Z := Time (block_Header b).
Definition block_GasLimit (b : Block) : Z := HeaderGasLimit (block_Header b).

(** [params.ChainConfig], with the fields and fork predicates this file
    consults. *)
Record ChainConfig : Type := {
  DAOForkSupport : bool;
  DAOForkBlock : option Z;
  IsByzantium : Z -> bool;
  IsEIP158 : Z -> bool;
  IsShanghai : Z -> Z -> bool
}.

(** [types.MakeSigner(config, number, time)], kept as the term it is
    built from. *)
Record Signer : Type := MakeSigner {
  signer_config : ChainConfig;
  signer_Number : Z;
  signer_Time : Z
}.

(** [vm.TxContext] *)
Record TxContext : Type := {
  Origin : Address;
  TxGasPrice : option Z;
  BlobHashes : list Hash
}.

(** The zero value [vm.TxContext{}]. *)
Definition TxContext_zero : TxContext :=
  {| Origin := Address_zero; TxGasPrice := None; BlobHashes := [] |}.

Definition ReceiptStatusFailed : Z := 0.
Definition ReceiptStatusSuccessful : Z := 1.

(** The call frames of the protocol, named after the variable that holds
    the message in the source: [nonceManagerMsg], [deployerMsg],
    [accountValidationMsg], [paymasterMsg], [accountExecutionMsg],
    [paymasterPostOpMsg], and [msg], the single frame of a legacy
    transaction.  The label is recorded with every invocation. *)
Inductive Frame : Type :=
| NonceManagerFrame
| DeployerFrame
| AccountValidationFrame
| PaymasterFrame
| AccountExecutionFrame
| PaymasterPostOpFrame
| TransactionFrame.

Definition Frame_eqb (a b : Frame) : bool :=
  match a, b with
  | NonceManagerFrame, NonceManagerFrame
  | DeployerFrame, DeployerFrame
  | AccountValidationFrame, AccountValidationFrame
  | PaymasterFrame, PaymasterFrame
  | AccountExecutionFrame, AccountExecutionFrame
  | PaymasterPostOpFrame, PaymasterPostOpFrame
  | TransactionFrame, TransactionFrame => true
  | _, _ => false
  end.

(** What a run does besides changing the state: the call frames it hands
    to the invoker (with their result), the system call, and the lines it
    logs or prints. *)
Inductive Event : Type :=
| EvApplyMessage (frame : Frame) (m : Message) (r : ExecutionResult + error)
| EvCall (caller addr : Address) (input : bytes) (gas : Z)
| EvLogError (line : string)
| EvLogErrorHash (h : Hash)
| EvPrintf (format : string) (arg : bytes).

(** The event is an invocation of the frame [frame]. *)
Definition invokes (frame : Frame) (e : Event) : bool :=
  match e with
  | EvApplyMessage f _ _ => Frame_eqb f frame
  | _ => false
  end.

Definition ALEXF_validation_line : string :=
  "ALEXF: applying transaction validation phase".
Definition ALEXF_execution_line : string :=
  "ALEXF: applying transaction execution phase".

Section Model.

(** The world state [*state.StateDB], the log entries [*types.Log], the
    chain [ChainContext] and the interpreter options [vm.Config] are
    opaque here. *)
Variables W Log ChainContext VMConfig : Type.

(** [types.Receipt] *)
Record Receipt : Type := {
  Type_ : Z;
  PostState : bytes;
  Status : Z;
  CumulativeGasUsed : Z;
  Bloom : bytes;
  Logs : list Log;
  TxHash : Hash;
  ContractAddress : Address;
  GasUsed : Z;
  BlobGasUsed : Z;
  BlobGasPrice : option Z;
  BlockHash : Hash;
  BlockNumber : option Z;
  TransactionIndex : Z
}.

(** [NewEVMBlockContext(header, bc, author)], kept as the term it is
    built from. *)
Record BlockContext : Type := NewEVMBlockContext {
  ctx_header : Header;
  ctx_chain : ChainContext;
  ctx_author : option Address
}.

(** [vm.EVM], as [vm.NewEVM(blockCtx, txCtx, statedb, config, cfg)]
    builds it; the state database lives in the run's state. *)
Record EVM : Type := NewEVM {
  Context : BlockContext;
  EvmTxContext : TxContext;
  chainConfig : ChainConfig;
  Config : VMConfig
}.

(** [evm.Reset(txCtx, statedb)] *)
Definition Reset (evm : EVM) (txCtx : TxContext) : EVM :=
  {| Context := Context evm;
     EvmTxContext := txCtx;
     chainConfig := chainConfig evm;
     Config := Config evm |}.

(** The consensus engine of the processor. *)
Record Engine : Type := {
  Finalize : ChainContext -> Header -> list Transaction -> list Header ->
             list Withdrawal -> W -> W
}.

Record StateProcessor : Type := {
  config : ChainConfig;
  bc : ChainContext;
  engine : Engine
}.

(** The collaborators outside this file: the call-frame invoker
    [ApplyMessage], message construction, the state database, and the
    constants of [types] and [params]. *)
Record Env : Type := {
  ALEXF_AA_TX_TYPE : Z;
  BlobTxType : Z;
  BlobTxBlobGasPerBlob : Z;
  SystemAddress : Address;
  BeaconRootsStorageAddress : Address;
  invoke : EVM -> Message -> W -> Z -> W * Z * (ExecutionResult + error);
  TransactionToMessage :
    Transaction -> Signer -> option Z -> option Message * option error;
  NewEVMTxContext : option Message -> Outcome TxContext;
  BlobBaseFee : BlockContext -> option Z;
  ApplyDAOHardFork : W -> W;
  evm_Call : EVM -> Address -> Address -> bytes -> Z -> Z -> W -> W;
  AddAddressToAccessList : Address -> W -> W;
  SetTxContext : Hash -> Z -> W -> W;
  TxIndex : W -> Z;
  Finalise : bool -> W -> W;
  IntermediateRoot : bool -> W -> W * Hash;
  GetLogs : Hash -> Z -> Hash -> W -> list Log;
  CreateAddress : Address -> Z -> Address;
  CreateBloom : list Receipt -> bytes
}.

Variable env : Env.

(** *** Runs *)

(** The mutable objects a run shares: the state database, the gas pool
    [gp], and the cell [usedGas] points to. *)
Record St : Type := {
  statedb : W;
  gp : Z;
  usedGas : Z
}.

(** A computation: from a state to the state it leaves, the events it
    emits, and its return value or panic. *)
Definition M (A : Type) : Type := St -> St * list Event * Outcome A.

Definition ret {A : Type} (a : A) : M A :=
  fun st => (st, [], Returns a).

Definition bind {A B : Type} (m : M A) (k : A -> M B) : M B :=
  fun st =>
    match m st with
    | (st1, ev1, Returns a) =>
        match k a st1 with
        | (st2, ev2, o) => (st2, ev1 ++ ev2, o)
        end
    | (st1, ev1, Panics p) => (st1, ev1, Panics p)
    end.

Definition lift {A : Type} (o : Outcome A) : M A :=
  fun st => (st, [], o).

Definition emit (e : Event) : M unit :=
  fun st => (st, [e], Returns tt).

Definition with_statedb (f : W -> W) : M unit :=
  fun st =>
    ({| statedb := f (statedb st); gp := gp st; usedGas := usedGas st |},
     [], Returns tt).

Definition read_statedb {A : Type} (f : W -> A) : M A :=
  fun st => (st, [], Returns (f (statedb st))).

Definition final {A : Type} (r : St * list Event * Outcome A) : St :=
  fst (fst r).
Definition events {A : Type} (r : St * list Event * Outcome A)
  : list Event := snd (fst r).
Definition outcome {A : Type} (r : St * list Event * Outcome A)
  : Outcome A := snd r.

Definition modify_usedGas (f : Z -> Z) : M unit :=
  fun st =>
    ({| statedb := statedb st; gp := gp st; usedGas := f (usedGas st) |},
     [], Returns tt).

Definition read_usedGas : M Z :=
  fun st => (st, [], Returns (usedGas st)).

Notation "x <- m ;; k" := (bind m (fun x => k))
  (at level 61, m at next level, right associativity).
Notation "m ;;; k" := (bind m (fun _ => k))
  (at level 61, right associativity).

(** [ApplyMessage(evm, msg, gp)]: the invoker runs the frame against the
    state database and the gas pool. *)
Definition ApplyMessage (frame : Frame) (evm : EVM) (m : Message)
  : M (ExecutionResult + error) :=
  fun st =>
    match invoke env evm m (statedb st) (gp st) with
    | (w, g, r) =>
        ({| statedb := w; gp := g; usedGas := usedGas st |},
         [EvApplyMessage frame m r], Returns r)
    end.

Record ValidationPhaseResult : Type := {
  Tx : option Transaction;
  paymasterContext : bytes;
  validationGasUsed : Z;
  paymasterGasUsed : Z
}.

(** [statedb.IntermediateRoot(deleteEmptyObjects).Bytes()] *)
Definition statedb_IntermediateRoot (deleteEmptyObjects : bool)
  : M bytes :=
  fun st =>
    match IntermediateRoot env deleteEmptyObjects (statedb st) with
    | (w, h) =>
        ({| statedb := w; gp := gp st; usedGas := usedGas st |},
         [], Returns h)
    end.

(** *** The validation phase (lines 131-219) *)

Definition applyAlexfAATransactionValidationPhase
    (aatx : option AlexfAccountAbstractionTx) (evm : EVM)
  : M (option ValidationPhaseResult * option error) :=
  aatx <- lift (deref aatx) ;;
  sender <- lift (deref (Sender aatx)) ;;
  data <- lift (slice_from 20 (PaymasterData aatx)) ;;
  let nonceManagerMsg := {|
    From := sender;
    To := Some Address_zero;
    Value := Some 0;
    GasLimit := 100000;
    GasPrice := Some 875000000;
    GasFeeCap := Some 875000000;
    GasTipCap := Some 875000000;
    Data := data;
    MsgAccessList := TxAccessList aatx;
    SkipAccountChecks := true;
    IsInnerAATxFrame := true |} in
  r <- ApplyMessage NonceManagerFrame evm nonceManagerMsg ;;
  match r with
  | inr err => ret (None, Some err)
  | inl resultNonceManager =>
  emit (EvPrintf "ALEXF AA resultNonceManager: %s"
          (ReturnData resultNonceManager)) ;;;
  deployed <-
    (if (20 <=? length (DeployerData aatx))%nat then
       deployerAddress <- lift (array20 (DeployerData aatx)) ;;
       if negb (bytes_eqb deployerAddress Address_zero) then
         let deployerMsg := Message_zero in
         r <- ApplyMessage DeployerFrame evm deployerMsg ;;
         match r with
         | inr err => ret (Some err)
         | inl resultDeployer =>
             emit (EvPrintf "ALEXF AA resultDeployer: %s"
                     (ReturnData resultDeployer)) ;;;
             ret None
         end
       else ret None
     else ret None) ;;
  match deployed with
  | Some err => ret (None, Some err)
  | None =>
  let validateTransactionData : bytes := [] in
  let accountValidationMsg := {|
    From := sender;
    To := Sender aatx;
    Value := Some 0;
    GasLimit := 100000;
    GasPrice := Some 875000000;
    GasFeeCap := Some 875000000;
    GasTipCap := Some 875000000;
    Data := validateTransactionData;
    MsgAccessList := TxAccessList aatx;
    SkipAccountChecks := true;
    IsInnerAATxFrame := true |} in
  r <- ApplyMessage AccountValidationFrame evm accountValidationMsg ;;
  match r with
  | inr err => ret (None, Some err)
  | inl resultAccountValidation =>
  emit (EvPrintf "\nALEXF AA resultAccountValidation: %s\n"
          (ReturnData resultAccountValidation)) ;;;
  let paymasterContext : bytes := [] in
  sponsored <-
    (if (20 <=? length (PaymasterData aatx))%nat then
       paymasterAddress <- lift (array20 (PaymasterData aatx)) ;;
       data <- lift (slice_from 20 (PaymasterData aatx)) ;;
       let paymasterMsg := {|
         From := sender;
         To := Some paymasterAddress;
         Value := Some 0;
         GasLimit := 100000;
         GasPrice := Some 875000000;
         GasFeeCap := Some 875000000;
         GasTipCap := Some 875000000;
         Data := data;
         MsgAccessList := TxAccessList aatx;
         SkipAccountChecks := true;
         IsInnerAATxFrame := true |} in
       r <- ApplyMessage PaymasterFrame evm paymasterMsg ;;
       match r with
       | inr err => ret (Some err)
       | inl resultPm =>
           if Failed resultPm then
             emit (EvLogError "ALEXF AA: paymaster validation failed") ;;;
             ret (Some (errors_New
               "paymaster validation failed - invalid transaction"))
           else ret None
       end
     else ret None) ;;
  match sponsored with
  | Some err => ret (None, Some err)
  | None =>
      let vpr := {|
        Tx := None;
        paymasterContext := paymasterContext;
        validationGasUsed := 0;
        paymasterGasUsed := 0 |} in
      ret (Some vpr, None)
  end end end end.

(** The receipt literal of the execution phase: every field the source
    does not set keeps its zero value. *)
Definition Receipt_zero : Receipt := {|
  Type_ := 0;
  PostState := [];
  Status := 0;
  CumulativeGasUsed := 0;
  Bloom := Bloom_zero;
  Logs := [];
  TxHash := Hash_zero;
  ContractAddress := Address_zero;
  GasUsed := 0;
  BlobGasUsed := 0;
  BlobGasPrice := None;
  BlockHash := Hash_zero;
  BlockNumber := None;
  TransactionIndex := 0 |}.

(** *** The execution phase (lines 221-279) *)

Definition applyAlexfAATransactionExecutionPhase
    (vpr : ValidationPhaseResult) (evm : EVM)
    (blockNumber : Z) (blockHash : Hash)
  : M (option Receipt * option error) :=
  tx <- lift (deref (Tx vpr)) ;;
  aatx <- lift (deref (tx_AlexfAATransactionData tx)) ;;
  let executionData : bytes := [] in
  sender <- lift (deref (Sender aatx)) ;;
  let accountExecutionMsg := {|
    From := sender;
    To := Sender aatx;
    Value := Some 0;
    GasLimit := 100000;
    GasPrice := Some 875000000;
    GasFeeCap := Some 875000000;
    GasTipCap := Some 875000000;
    Data := executionData;
    MsgAccessList := TxAccessList aatx;
    SkipAccountChecks := true;
    IsInnerAATxFrame := true |} in
  r <- ApplyMessage AccountExecutionFrame evm accountExecutionMsg ;;
  match r with
  | inr err => ret (None, Some err)
  | inl result =>
  postOp <-
    (if negb (length (paymasterContext vpr) =? 0)%nat then
       paymasterAddress <- lift (array20 (PaymasterData aatx)) ;;
       let paymasterPostOpMsg := {|
         From := sender;
         To := Some paymasterAddress;
         Value := Some 0;
         GasLimit := 100000;
         GasPrice := Some 875000000;
         GasFeeCap := Some 875000000;
         GasTipCap := Some 875000000;
         Data := paymasterContext vpr;
         MsgAccessList := TxAccessList aatx;
         SkipAccountChecks := true;
         IsInnerAATxFrame := true |} in
       r <- ApplyMessage PaymasterPostOpFrame evm paymasterPostOpMsg ;;
       match r with
       | inr err => ret (Some err)
       | inl resultPostOp =>
           emit (EvPrintf "ALEXF AA resultPostOp: %s"
                   (ReturnData resultPostOp)) ;;;
           ret None
       end
     else ret None) ;;
  match postOp with
  | Some err => ret (None, Some err)
  | None =>
  let root : bytes := [] in
  logs <- read_statedb
            (GetLogs env (tx_Hash tx) (blockNumber mod uint64_mod)
               blockHash) ;;
  let receipt := {|
    Type_ := tx_Type tx;
    PostState := root;
    Status := if Failed result then ReceiptStatusFailed
              else ReceiptStatusSuccessful;
    CumulativeGasUsed := 0;
    Bloom := Bloom Receipt_zero;
    Logs := logs;
    TxHash := TxHash Receipt_zero;
    ContractAddress := ContractAddress Receipt_zero;
    GasUsed := GasUsed Receipt_zero;
    BlobGasUsed := BlobGasUsed Receipt_zero;
    BlobGasPrice := BlobGasPrice Receipt_zero;
    BlockHash := BlockHash Receipt_zero;
    BlockNumber := BlockNumber Receipt_zero;
    TransactionIndex := TransactionIndex Receipt_zero |} in
  ret (Some receipt, None)
  end end.

(** *** The legacy transaction applier (lines 281-329) *)

Definition applyTransaction
    (msg : option Message) (config : ChainConfig)
    (blockNumber : Z) (blockHash : Hash) (tx : Transaction) (evm : EVM)
  : M (option Receipt * option error) :=
  txContext <- lift (NewEVMTxContext env msg) ;;
  let evm := Reset evm txContext in
  m <- lift (deref msg) ;;
  r <- ApplyMessage TransactionFrame evm m ;;
  match r with
  | inr err => ret (None, Some err)
  | inl result =>
  root <-
    (if IsByzantium config blockNumber then
       with_statedb (Finalise env true) ;;; ret []
     else statedb_IntermediateRoot (IsEIP158 config blockNumber)) ;;
  modify_usedGas (fun u => add64 u (UsedGas result)) ;;;
  cumulative <- read_usedGas ;;
  logs <- read_statedb
            (GetLogs env (tx_Hash tx) (blockNumber mod uint64_mod)
               blockHash) ;;
  index <- read_statedb (TxIndex env) ;;
  let isBlob := tx_Type tx =? BlobTxType env in
  let receipt := {|
    Type_ := tx_Type tx;
    PostState := root;
    Status := if Failed result then ReceiptStatusFailed
              else ReceiptStatusSuccessful;
    CumulativeGasUsed := cumulative;
    Bloom := Bloom_zero;
    Logs := logs;
    TxHash := tx_Hash tx;
    ContractAddress :=
      match To m with
      | None => CreateAddress env (Origin (EvmTxContext evm)) (tx_Nonce tx)
      | Some _ => Address_zero
      end;
    GasUsed := UsedGas result;
    BlobGasUsed :=
      if isBlob then
        (Z.of_nat (length (tx_BlobHashes tx)) * BlobTxBlobGasPerBlob env)
          mod uint64_mod
      else 0;
    BlobGasPrice :=
      if isBlob then BlobBaseFee env (Context evm) else None;
    BlockHash := Hash_zero;
    BlockNumber := None;
    TransactionIndex := 0 |} in
  let receipt := {|
    Type_ := Type_ receipt;
    PostState := PostState receipt;
    Status := Status receipt;
    CumulativeGasUsed := CumulativeGasUsed receipt;
    Bloom := CreateBloom env [receipt];
    Logs := Logs receipt;
    TxHash := TxHash receipt;
    ContractAddress := ContractAddress receipt;
    GasUsed := GasUsed receipt;
    BlobGasUsed := BlobGasUsed receipt;
    BlobGasPrice := BlobGasPrice receipt;
    BlockHash := blockHash;
    BlockNumber := Some blockNumber;
    TransactionIndex := index mod uint64_mod |} in
  ret (Some receipt, None)
  end.

(** [ApplyTransaction] (lines 335-345) *)
Definition ApplyTransaction
    (config : ChainConfig) (bc : ChainContext) (author : option Address)
    (header : Header) (tx : Transaction) (cfg : VMConfig)
  : M (option Receipt * option error) :=
  match TransactionToMessage env tx
          (MakeSigner config (Number header) (Time header))
          (BaseFee header) with
  | (_, Some err) => ret (None, Some err)
  | (msg, None) =>
      let blockContext := NewEVMBlockContext header bc author in
      txContext <- lift (NewEVMTxContext env msg) ;;
      let vmenv := NewEVM blockContext txContext config cfg in
      applyTransaction msg config (Number header) (header_Hash header)
        tx vmenv
  end.

(** *** The exported phases (lines 354-391) *)

Definition ApplyAlexfAATransactionValidationPhase
    (config : ChainConfig) (bc : ChainContext) (author : option Address)
    (header : Header) (tx : Transaction) (cfg : VMConfig)
  : M (option ValidationPhaseResult * option error) :=
  emit (EvLogError ALEXF_validation_line) ;;;
  emit (EvLogErrorHash (tx_Hash tx)) ;;;
  let aatx := tx_AlexfAATransactionData tx in
  let blockContext := NewEVMBlockContext header bc author in
  match TransactionToMessage env tx
          (MakeSigner config (Number header) (Time header))
          (BaseFee header) with
  | (message, err) =>
  txContext <- lift (NewEVMTxContext env message) ;;
  let vmenv := NewEVM blockContext txContext config cfg in
  let vmenv := Reset vmenv txContext in
  r <- applyAlexfAATransactionValidationPhase aatx vmenv ;;
  match r with
  | (vpr, err) =>
  match err with
  | Some err => ret (None, Some err)
  | None =>
      vpr <- lift (deref vpr) ;;
      let vpr := {|
        Tx := Some tx;
        paymasterContext := paymasterContext vpr;
        validationGasUsed := validationGasUsed vpr;
        paymasterGasUsed := paymasterGasUsed vpr |} in
      ret (Some vpr, None)
  end end end.

Definition ApplyAlexfAATransactionExecutionPhase
    (config : ChainConfig) (vpr : option ValidationPhaseResult)
    (blockNumber : Z) (blockHash : Hash)
    (bc : ChainContext) (author : option Address)
    (header : Header) (cfg : VMConfig)
  : M (option Receipt * option error) :=
  emit (EvLogError ALEXF_execution_line) ;;;
  vpr <- lift (deref vpr) ;;
  tx <- lift (deref (Tx vpr)) ;;
  emit (EvLogErrorHash (tx_Hash tx)) ;;;
  let blockContext := NewEVMBlockContext header bc author in
  match TransactionToMessage env tx
          (MakeSigner config (Number header) (Time header))
          (BaseFee header) with
  | (message, err) =>
  txContext <- lift (NewEVMTxContext env message) ;;
  let vmenv := NewEVM blockContext txContext config cfg in
  let vmenv := Reset vmenv txContext in
  match err with
  | Some err => ret (None, Some err)
  | None =>
      applyAlexfAATransactionExecutionPhase vpr vmenv blockNumber
        blockHash
  end end.

(** [ProcessBeaconBlockRoot] (lines 395-411) *)
Definition ProcessBeaconBlockRoot (beaconRoot : Hash) (vmenv : EVM)
  : M unit :=
  let msg := {|
    From := SystemAddress env;
    To := Some (BeaconRootsStorageAddress env);
    Value := None;
    GasLimit := 30000000;
    GasPrice := Some 0;
    GasFeeCap := Some 0;
    GasTipCap := Some 0;
    Data := beaconRoot;
    MsgAccessList := [];
    SkipAccountChecks := false;
    IsInnerAATxFrame := false |} in
  txContext <- lift (NewEVMTxContext env (Some msg)) ;;
  let vmenv := Reset vmenv txContext in
  with_statedb (AddAddressToAccessList env
                  (BeaconRootsStorageAddress env)) ;;;
  to <- lift (deref (To msg)) ;;
  emit (EvCall (From msg) to (Data msg) 30000000) ;;;
  with_statedb (evm_Call env vmenv (From msg) to (Data msg) 30000000 0) ;;;
  with_statedb (Finalise env true).

(** *** The block orchestrator (lines 61-129) *)

(** The first loop (lines 86-94): validation of every AA transaction. *)
Fixpoint Process_validate (p : StateProcessor) (header : Header)
    (cfg : VMConfig) (txs : list Transaction)
    (verifiedAATransactions : list (option ValidationPhaseResult))
  : M (list (option ValidationPhaseResult) + error) :=
  match txs with
  | [] => ret (inl verifiedAATransactions)
  | tx :: txs =>
      if tx_Type tx =? ALEXF_AA_TX_TYPE env then
        r <- ApplyAlexfAATransactionValidationPhase (config p) (bc p)
               (Some (Coinbase header)) header tx cfg ;;
        match r with
        | (_, Some err) => ret (inr err)
        | (vpr, None) =>
            Process_validate p header cfg txs
              (verifiedAATransactions ++ [vpr])
        end
      else Process_validate p header cfg txs verifiedAATransactions
  end.

(** The second loop (lines 95-102): execution of every validated AA
    transaction. *)
Fixpoint Process_execute (p : StateProcessor) (header : Header)
    (cfg : VMConfig) (blockNumber : Z) (blockHash : Hash)
    (verifiedAATransactions : list (option ValidationPhaseResult))
    (receipts : list Receipt) (allLogs : list Log)
  : M (list Receipt * list Log + error) :=
  match verifiedAATransactions with
  | [] => ret (inl (receipts, allLogs))
  | vpr :: rest =>
      r <- ApplyAlexfAATransactionExecutionPhase (config p) vpr
             blockNumber blockHash (bc p) (Some (Coinbase header))
             header cfg ;;
      match r with
      | (_, Some err) => ret (inr err)
      | (receipt, None) =>
          receipt <- lift (deref receipt) ;;
          Process_execute p header cfg blockNumber blockHash rest
            (receipts ++ [receipt]) (allLogs ++ Logs receipt)
      end
  end.

(** The third loop (lines 104-119): the remaining transactions, [i]
    being the index of [tx] in the block. *)
Fixpoint Process_apply (p : StateProcessor) (header : Header)
    (signer : Signer) (vmenv : EVM) (blockNumber : Z) (blockHash : Hash)
    (i : Z) (txs : list Transaction)
    (receipts : list Receipt) (allLogs : list Log)
  : M (list Receipt * list Log + error) :=
  match txs with
  | [] => ret (inl (receipts, allLogs))
  | tx :: txs =>
      if tx_Type tx =? ALEXF_AA_TX_TYPE env then
        Process_apply p header signer vmenv blockNumber blockHash
          (i + 1) txs receipts allLogs
      else
        match TransactionToMessage env tx signer (BaseFee header) with
        | (_, Some err) =>
            ret (inr (Errorf_could_not_apply_tx i (tx_Hash tx) err))
        | (msg, None) =>
            with_statedb (SetTxContext env (tx_Hash tx) i) ;;;
            r <- applyTransaction msg (config p) blockNumber blockHash
                   tx vmenv ;;
            match r with
            | (_, Some err) =>
                ret (inr (Errorf_could_not_apply_tx i (tx_Hash tx) err))
            | (receipt, None) =>
                receipt <- lift (deref receipt) ;;
                Process_apply p header signer vmenv blockNumber
                  blockHash (i + 1) txs
                  (receipts ++ [receipt]) (allLogs ++ Logs receipt)
            end
        end
  end.

(** Lines 71-119: the hard-fork hook, the beacon-root call and the three
    loops, up to the first error. *)
Definition Process_transactions (p : StateProcessor) (block : Block)
    (cfg : VMConfig)
  : M (list Receipt * list Log + error) :=
  let header := block_Header block in
  let blockHash := block_Hash block in
  let blockNumber := block_Number block in
  (if DAOForkSupport (config p) then
     match DAOForkBlock (config p) with
     | Some daoForkBlock =>
         if daoForkBlock =? block_Number block then
           with_statedb (ApplyDAOHardFork env)
         else ret tt
     | None => ret tt
     end
   else ret tt) ;;;
  let context := NewEVMBlockContext header (bc p) None in
  let vmenv := NewEVM context TxContext_zero (config p) cfg in
  let signer := MakeSigner (config p) (Number header) (Time header) in
  match block_BeaconRoot block with
  | Some beaconRoot => ProcessBeaconBlockRoot beaconRoot vmenv
  | None => ret tt
  end ;;;
  v <- Process_validate p header cfg (block_Transactions block) [] ;;
  match v with
  | inr err => ret (inr err)
  | inl verifiedAATransactions =>
  e <- Process_execute p header cfg blockNumber blockHash
         verifiedAATransactions [] [] ;;
  match e with
  | inr err => ret (inr err)
  | inl (receipts, allLogs) =>
  Process_apply p header signer vmenv blockNumber blockHash 0
    (block_Transactions block) receipts allLogs
  end end.

(** Lines 61-129.  Every [return nil, nil, 0, err] of the loops is the
    [inr] case here. *)
Definition Process_body (p : StateProcessor) (block : Block)
    (cfg : VMConfig)
  : M (list Receipt * list Log * Z * option error) :=
  let header := block_Header block in
  t <- Process_transactions p block cfg ;;
  match t with
  | inr err => ret ([], [], 0, Some err)
  | inl (receipts, allLogs) =>
  let withdrawals := block_Withdrawals block in
  if andb (0 <? length withdrawals)%nat
          (negb (IsShanghai (config p) (block_Number block)
                   (block_Time block)))
  then ret ([], [], 0, Some (errors_New "withdrawals before shanghai"))
  else
    with_statedb (Finalize (engine p) (bc p) header
                    (block_Transactions block) (block_Uncles block)
                    withdrawals) ;;;
    used <- read_usedGas ;;
    ret (receipts, allLogs, used, None)
  end.

(** [Process]: the gas pool starts at the block's gas limit and
    [usedGas] at zero. *)
Definition Process (p : StateProcessor) (block : Block) (statedb : W)
    (cfg : VMConfig)
  : St * list Event * Outcome (list Receipt * list Log * Z * option error)
  :=
  Process_body p block cfg
    {| statedb := statedb; gp := block_GasLimit block; usedGas := 0 |}.
End Model.

Arguments NewEVMBlockContext {ChainContext} ctx_header ctx_chain ctx_author.
Arguments NewEVM {ChainContext VMConfig} Context EvmTxContext chainConfig
  Config.
Arguments ALEXF_AA_TX_TYPE {W Log ChainContext VMConfig} e.
Arguments BlobTxType {W Log ChainContext VMConfig} e.
Arguments BlobTxBlobGasPerBlob {W Log ChainContext VMConfig} e.
Arguments SystemAddress {W Log ChainContext VMConfig} e.
Arguments BeaconRootsStorageAddress {W Log ChainContext VMConfig} e.
Arguments invoke {W Log ChainContext VMConfig} e.
Arguments TransactionToMessage {W Log ChainContext VMConfig} e.
Arguments NewEVMTxContext {W Log ChainContext VMConfig} e.
Arguments BlobBaseFee {W Log ChainContext VMConfig} e.
Arguments ApplyDAOHardFork {W Log ChainContext VMConfig} e.
Arguments evm_Call {W Log ChainContext VMConfig} e.
Arguments AddAddressToAccessList {W Log ChainContext VMConfig} e.
Arguments SetTxContext {W Log ChainContext VMConfig} e.
Arguments TxIndex {W Log ChainContext VMConfig} e.
Arguments Finalise {W Log ChainContext VMConfig} e.
Arguments IntermediateRoot {W Log ChainContext VMConfig} e.
Arguments GetLogs {W Log ChainContext VMConfig} e.
Arguments CreateAddress {W Log ChainContext VMConfig} e.
Arguments CreateBloom {W Log ChainContext VMConfig} e.
Arguments statedb {W} s.
Arguments gp {W} s.
Arguments usedGas {W} s.
Arguments Type_ {Log} r.
Arguments PostState {Log} r.
Arguments Status {Log} r.
Arguments CumulativeGasUsed {Log} r.
Arguments Bloom {Log} r.
Arguments Logs {Log} r.
Arguments TxHash {Log} r.
Arguments ContractAddress {Log} r.
Arguments GasUsed {Log} r.
Arguments BlobGasUsed {Log} r.
Arguments BlobGasPrice {Log} r.
Arguments BlockHash {Log} r.
Arguments BlockNumber {Log} r.
Arguments TransactionIndex {Log} r.
Arguments Context {ChainContext VMConfig} e.
Arguments EvmTxContext {ChainContext VMConfig} e.
Arguments chainConfig {ChainContext VMConfig} e.
Arguments Config {ChainContext VMConfig} e.
Arguments config {W ChainContext} s.
Arguments bc {W ChainContext} s.
Arguments engine {W ChainContext} s.
Arguments Finalize {W ChainContext} e.
Arguments Reset {ChainContext VMConfig} evm txCtx.
Arguments Receipt_zero {Log}.
Arguments final {W A} r.
Arguments events {W A} r.
Arguments outcome {W A} r.
Arguments ret {W A} a st.
Arguments bind {W A B} m k st.
Arguments lift {W A} o st.
Arguments emit {W} e st.
Arguments with_statedb {W} f st.
Arguments read_statedb {W A} f st.
Arguments modify_usedGas {W} f st.
Arguments read_usedGas {W} st.
Arguments ApplyMessage {W Log ChainContext VMConfig} env frame evm m st.
Arguments statedb_IntermediateRoot {W Log ChainContext VMConfig} env
  deleteEmptyObjects st.
Arguments applyAlexfAATransactionValidationPhase
  {W Log ChainContext VMConfig} env aatx evm st.
Arguments applyAlexfAATransactionExecutionPhase
  {W Log ChainContext VMConfig} env vpr evm blockNumber blockHash st.
Arguments applyTransaction
  {W Log ChainContext VMConfig} env msg config blockNumber blockHash tx evm
  st.
Arguments ApplyTransaction
  {W Log ChainContext VMConfig} env config bc author header tx cfg st.
Arguments ApplyAlexfAATransactionValidationPhase
  {W Log ChainContext VMConfig} env config bc author header tx cfg st.
Arguments ApplyAlexfAATransactionExecutionPhase
  {W Log ChainContext VMConfig} env config vpr blockNumber blockHash bc
  author header cfg st.
Arguments ProcessBeaconBlockRoot
  {W Log ChainContext VMConfig} env beaconRoot vmenv st.
Arguments Process_validate
  {W Log ChainContext VMConfig} env p header cfg txs verifiedAATransactions
  st.
Arguments Process_execute
  {W Log ChainContext VMConfig} env p header cfg blockNumber blockHash
  verifiedAATransactions receipts allLogs st.
Arguments Process_apply
  {W Log ChainContext VMConfig} env p header signer vmenv blockNumber
  blockHash i txs receipts allLogs st.
Arguments Process_transactions
  {W Log ChainContext VMConfig} env p block cfg st.
Arguments Process_body {W Log ChainContext VMConfig} env p block cfg st.
Arguments Process {W Log ChainContext VMConfig} env p block statedb cfg.

(** *** The vocabulary of the properties *)

(** [wp m st Q]: the run of [m] from [st] ends in a state, with events and
    an outcome, that satisfy [Q]. *)
Definition wp {W A : Type} (m : M W A) (st : St W)
    (Q : St W -> list Event -> Outcome A -> Prop) : Prop :=
  Q (final (m st)) (events (m st)) (outcome (m st)).

(** The sponsor-validation frame ran and its result indicates failure. *)
Definition sponsor_rejected (e : Event) : bool :=
  match e with
  | EvApplyMessage PaymasterFrame _ (inl r) => Failed r
  | _ => false
  end.

(** The events of the execution phase: its two call frames and the line
    it logs on entry. *)
Definition execution_event (e : Event) : bool :=
  match e with
  | EvApplyMessage AccountExecutionFrame _ _ => true
  | EvApplyMessage PaymasterPostOpFrame _ _ => true
  | EvLogError line => String.eqb line ALEXF_execution_line
  | _ => false
  end.

(** The error of lines 206-209. *)
Definition paymaster_validation_failed : error :=
  errors_New "paymaster validation failed - invalid transaction".

(** The pool and the counter stay within a budget [L]. *)
Definition within {W : Type} (L : Z) (st : St W) : Prop :=
  0 <= usedGas st /\ 0 <= gp st /\ usedGas st + gp st <= L.

(** Cumulative gas values that climb from [lo] to [hi]. *)
Definition climbs (lo hi : Z) (cs : list Z) : Prop :=
  StronglySorted Z.le cs /\ Forall (Z.le lo) cs /\
  last cs lo = hi /\ lo <= hi.

Section Vocabulary.

Context {W Log ChainContext VMConfig : Type}.
Variable env : Env W Log ChainContext VMConfig.

(** The contract of the call-frame invoker on the gas pool: a frame
    that runs leaves the pool non-negative and takes from it at least
    the gas it reports as used. *)
Definition gas_contract : Prop :=
  forall evm m w g w' g' r,
    invoke env evm m w g = (w', g', inl r) ->
    0 <= g ->
    0 <= g' /\ 0 <= UsedGas r /\ g' + UsedGas r <= g.

(** A validation result as the first loop collects it: it is linked to
    an AA transaction. *)
Definition validated (v : option ValidationPhaseResult) : Prop :=
  exists vpr tx,
    v = Some vpr /\ Tx vpr = Some tx /\
    tx_Type tx = ALEXF_AA_TX_TYPE env.

(** The receipts of the legacy transactions of a block. *)
Definition legacy_receipts (rs : list (Receipt Log))
  : list (Receipt Log) :=
  filter (fun r => negb (Type_ r =? ALEXF_AA_TX_TYPE env)) rs.

End Vocabulary.

(** *** The events of the phases *)

(** The parameters every frame of the protocol but the deployer's is built
    with (lines 135-143, 167-175, 189-197, 228-236 and 251-259). *)
Definition synthetic_message (m : Message) : Prop :=
  Value m = Some 0 /\ GasLimit m = 100000 /\
  GasPrice m = Some 875000000 /\ GasFeeCap m = Some 875000000 /\
  GasTipCap m = Some 875000000 /\
  SkipAccountChecks m = true /\ IsInnerAATxFrame m = true.

Definition is_synthetic (m : Message) : bool :=
  let holds p v := match p with Some z => z =? v | None => false end in
  holds (Value m) 0 && (GasLimit m =? 100000) &&
  holds (GasPrice m) 875000000 && holds (GasFeeCap m) 875000000 &&
  holds (GasTipCap m) 875000000 &&
  SkipAccountChecks m && IsInnerAATxFrame m.

(** The system call of [ProcessBeaconBlockRoot]. *)
Definition system_call (e : Event) : bool :=
  match e with
  | EvCall _ _ _ _ => true
  | _ => false
  end.

(** What a run of the validation phase may emit: its four call frames,
    the three others with the fixed parameters, and what it logs and
    prints. *)
Definition in_validation (e : Event) : bool :=
  match e with
  | EvApplyMessage NonceManagerFrame m _ => is_synthetic m
  | EvApplyMessage AccountValidationFrame m _ => is_synthetic m
  | EvApplyMessage PaymasterFrame m _ => is_synthetic m
  | EvApplyMessage DeployerFrame _ _ => true
  | EvApplyMessage _ _ _ => false
  | EvCall _ _ _ _ => false
  | EvLogError line => negb (String.eqb line ALEXF_execution_line)
  | EvLogErrorHash _ => true
  | EvPrintf _ _ => true
  end.

(** What a run of the execution phase may emit when the context it is
    given is empty: the account's frame and what it logs. *)
Definition in_execution (e : Event) : bool :=
  match e with
  | EvApplyMessage AccountExecutionFrame m _ => is_synthetic m
  | EvApplyMessage _ _ _ => false
  | EvCall _ _ _ _ => false
  | EvLogError line => String.eqb line ALEXF_execution_line
  | EvLogErrorHash _ => true
  | EvPrintf _ _ => false
  end.

(** The transactions of the two kinds, in block order. *)
Definition is_AA {W Log ChainContext VMConfig : Type}
    (env : Env W Log ChainContext VMConfig) (tx : Transaction) : bool :=
  tx_Type tx =? ALEXF_AA_TX_TYPE env.

Definition AA_transactions {W Log ChainContext VMConfig : Type}
    (env : Env W Log ChainContext VMConfig) (txs : list Transaction)
  : list Transaction := filter (is_AA env) txs.

Definition legacy_transactions {W Log ChainContext VMConfig : Type}
    (env : Env W Log ChainContext VMConfig) (txs : list Transaction)
  : list Transaction := filter (fun tx => negb (is_AA env tx)) txs.

(** The receipt the execution phase builds: besides its type, status and
    logs, every field is zero. *)
Definition bare_receipt {Log : Type} (r : Receipt Log) : Prop :=
  PostState r = [] /\ CumulativeGasUsed r = 0 /\ GasUsed r = 0 /\
  Bloom r = Bloom_zero /\ TxHash r = Hash_zero /\
  ContractAddress r = Address_zero /\ BlockHash r = Hash_zero /\
  BlockNumber r = None /\ TransactionIndex r = 0 /\
  BlobGasUsed r = 0 /\ BlobGasPrice r = None.

(** What the validation phase requires of an AA transaction it lets
    through: its data names a sender and carries the twenty bytes that
    line 140 slices off. *)
Definition well_formed_AA (tx : Transaction) : Prop :=
  exists aatx sender,
    tx_AlexfAATransactionData tx = Some aatx /\
    Sender aatx = Some sender /\
    (20 <= length (PaymasterData aatx))%nat.

(** A validation result as the first loop collects it for [tx]. *)
Definition validated_as (v : option ValidationPhaseResult)
    (tx : Transaction) : Prop :=
  exists vpr,
    v = Some vpr /\ Tx vpr = Some tx /\ paymasterContext vpr = [] /\
    well_formed_AA tx.

(** The receipt of the AA transaction [tx]. *)
Definition AA_receipt {Log : Type} (r : Receipt Log) (tx : Transaction)
  : Prop :=
  Type_ r = tx_Type tx /\ bare_receipt r /\
  (Status r = ReceiptStatusFailed \/ Status r = ReceiptStatusSuccessful).

(** The receipt of the legacy transaction [tx] in the block
    [blockNumber], [blockHash]. *)
Definition legacy_receipt {Log : Type} (blockNumber : Z) (blockHash : Hash)
    (r : Receipt Log) (tx : Transaction) : Prop :=
  Type_ r = tx_Type tx /\ TxHash r = tx_Hash tx /\
  BlockHash r = blockHash /\ BlockNumber r = Some blockNumber /\
  (Status r = ReceiptStatusFailed \/ Status r = ReceiptStatusSuccessful).

(** Every receipt carries the counter before it plus its own gas, on
    [uint64]. *)
Fixpoint accumulates {Log : Type} (u : Z) (rs : list (Receipt Log))
  : Prop :=
  match rs with
  | [] => True
  | r :: rs =>
      CumulativeGasUsed r = add64 u (GasUsed r) /\
      accumulates (CumulativeGasUsed r) rs
  end.

(** The gas of the receipts, summed on [uint64] from [u]. *)
Definition sum_gas {Log : Type} (u : Z) (rs : list (Receipt Log)) : Z :=
  fold_left (fun u r => add64 u (GasUsed r)) rs u.

(** The messages handed to the frame [frame], in the order of the run. *)
Fixpoint messages (frame : Frame) (evs : list Event) : list Message :=
  match evs with
  | [] => []
  | EvApplyMessage f m _ :: evs =>
      if Frame_eqb f frame then m :: messages frame evs
      else messages frame evs
  | _ :: evs => messages frame evs
  end.

(** The account and the sponsor an AA transaction names. *)
Definition sender_of (tx : Transaction) : option Address :=
  match tx_AlexfAATransactionData tx with
  | Some aatx => Sender aatx
  | None => None
  end.

Definition sponsor_of (tx : Transaction) : option Address :=
  match tx_AlexfAATransactionData tx with
  | Some aatx => Some (firstn 20 (PaymasterData aatx))
  | None => None
  end.

(** The frames of the validation of the AA transactions [txs], one after
    the other: the nonce manager, the account, the sponsor. *)
Definition validation_trace (txs : list Transaction) (evs : list Event)
  : Prop :=
  map To (messages NonceManagerFrame evs)
  = map (fun _ => Some Address_zero) txs /\
  map To (messages AccountValidationFrame evs) = map sender_of txs /\
  map To (messages PaymasterFrame evs) = map sponsor_of txs.

(** The frames of their execution. *)
Definition execution_trace (txs : list Transaction) (evs : list Event)
  : Prop :=
  map To (messages AccountExecutionFrame evs) = map sender_of txs.

(** The frames of the legacy transactions [txs]: the message built from
    each. *)
Definition legacy_trace {W Log ChainContext VMConfig : Type}
    (env : Env W Log ChainContext VMConfig) (signer : Signer)
    (baseFee : option Z) (txs : list Transaction) (evs : list Event)
  : Prop :=
  map Some (messages TransactionFrame evs)
  = map (fun tx => fst (TransactionToMessage env tx signer baseFee)) txs.

(** The events of the system call for the beacon root of a block. *)
Definition setup_trace {W Log ChainContext VMConfig : Type}
    (env : Env W Log ChainContext VMConfig) (block : Block) (evs : list Event)
  : Prop :=
  evs = [] \/
  exists beaconRoot,
    block_BeaconRoot block = Some beaconRoot /\
    evs = [EvCall (SystemAddress env) (BeaconRootsStorageAddress env)
             beaconRoot 30000000].

(** The gas used of the receipts, summed on the integers. *)
Definition total_gas_used {Log : Type} (rs : list (Receipt Log)) : Z :=
  fold_right Z.add 0 (map (fun r => GasUsed r) rs).

(** The invoker returned the error [err] for a frame of the run. *)
Definition frame_error (err : error) (evs : list Event) : Prop :=
  exists frame m, In (EvApplyMessage frame m (inr err)) evs.

(** Where an error of [Process] comes from. *)
Definition error_cause {W Log ChainContext VMConfig : Type}
    (env : Env W Log ChainContext VMConfig)
    (p : StateProcessor W ChainContext) (block : Block)
    (evs : list Event) (err : error) : Prop :=
  let signer :=
    MakeSigner (config p) (block_Number block) (block_Time block) in
  let baseFee := BaseFee (block_Header block) in
  (* the fork check of lines 121-124 *)
  err = errors_New "withdrawals before shanghai" \/
  (* a frame of an AA transaction *)
  frame_error err evs \/
  (* the sponsor's verdict, lines 206-209 *)
  (err = paymaster_validation_failed /\
   existsb sponsor_rejected evs = true) \/
  (* the message of an AA transaction, line 386 *)
  (exists tx,
     In tx (block_Transactions block) /\
     tx_Type tx = ALEXF_AA_TX_TYPE env /\
     snd (TransactionToMessage env tx signer baseFee) = Some err) \/
  (* another transaction, lines 108-116 *)
  (exists n tx e,
     nth_error (block_Transactions block) n = Some tx /\
     tx_Type tx <> ALEXF_AA_TX_TYPE env /\
     err = Errorf_could_not_apply_tx (Z.of_nat n) (tx_Hash tx) e /\
     (snd (TransactionToMessage env tx signer baseFee) = Some e \/
      exists m, In (EvApplyMessage TransactionFrame m (inr e)) evs)).

(** *** The sequence of the frames of a run *)

(** The frames of a run with the messages they are invoked with, in the
    order of the run. *)
Fixpoint frames (evs : list Event) : list (Frame * option Message) :=
  match evs with
  | [] => []
  | EvApplyMessage frame m _ :: evs => (frame, Some m) :: frames evs
  | _ :: evs => frames evs
  end.

(** The results of the invocations of [frame] that ran, in the order of
    the run. *)
Fixpoint results (frame : Frame) (evs : list Event)
  : list ExecutionResult :=
  match evs with
  | [] => []
  | EvApplyMessage f _ (inl result) :: evs =>
      if Frame_eqb f frame then result :: results frame evs
      else results frame evs
  | _ :: evs => results frame evs
  end.

(** The status a receipt gets for a result (lines 273-277, 304-308). *)
Definition status_of (result : ExecutionResult) : Z :=
  if Failed result then ReceiptStatusFailed else ReceiptStatusSuccessful.

(** The message of a frame of an AA transaction (lines 132-144, 164-176,
    186-198, 225-237): the parameters are fixed, the sender, the
    recipient, the payload and the access list vary. *)
Definition AA_message (sender : Address) (to : option Address)
    (data : bytes) (accessList : AccessList) : Message := {|
  From := sender;
  To := to;
  Value := Some 0;
  GasLimit := 100000;
  GasPrice := Some 875000000;
  GasFeeCap := Some 875000000;
  GasTipCap := Some 875000000;
  Data := data;
  MsgAccessList := accessList;
  SkipAccountChecks := true;
  IsInnerAATxFrame := true |}.

(** The guard of the deployer frame (lines 151-153). *)
Definition runs_deployer (aatx : AlexfAccountAbstractionTx) : bool :=
  (20 <=? length (DeployerData aatx))%nat &&
  negb (bytes_eqb (firstn 20 (DeployerData aatx)) Address_zero).

(** The frames the validation of an AA transaction goes through when no
    frame stops it: the nonce manager, the deployer under its guard, the
    account, the sponsor. *)
Definition validation_calls (tx : Transaction)
  : list (Frame * option Message) :=
  match tx_AlexfAATransactionData tx with
  | Some aatx =>
      match Sender aatx with
      | Some sender =>
          [(NonceManagerFrame,
            Some (AA_message sender (Some Address_zero)
                    (skipn 20 (PaymasterData aatx)) (TxAccessList aatx)))] ++
          (if runs_deployer aatx then [(DeployerFrame, Some Message_zero)]
           else []) ++
          [(AccountValidationFrame,
            Some (AA_message sender (Some sender) [] (TxAccessList aatx)));
           (PaymasterFrame,
            Some (AA_message sender
                    (Some (firstn 20 (PaymasterData aatx)))
                    (skipn 20 (PaymasterData aatx)) (TxAccessList aatx)))]
      | None => []
      end
  | None => []
  end.

(** The frame of its execution, the context being empty. *)
Definition execution_calls (tx : Transaction)
  : list (Frame * option Message) :=
  match tx_AlexfAATransactionData tx with
  | Some aatx =>
      match Sender aatx with
      | Some sender =>
          [(AccountExecutionFrame,
            Some (AA_message sender (Some sender) [] (TxAccessList aatx)))]
      | None => []
      end
  | None => []
  end.

(** The frame of a transaction of another type. *)
Definition legacy_calls {W Log ChainContext VMConfig : Type}
    (env : Env W Log ChainContext VMConfig) (signer : Signer)
    (baseFee : option Z) (tx : Transaction)
  : list (Frame * option Message) :=
  [(TransactionFrame, fst (TransactionToMessage env tx signer baseFee))].


End Core.

(** ** tests/gen_stauthorization.go *)

Module Tests.

(** A JSON document, as [encoding/json] reads and writes it.  The codec is
    modelled on documents: the text of a document is the library's. *)
#[local] Set Warnings "-register-all".
Inductive json : Type :=
| JNull
| JBool (b : bool)
| JNumber (literal : string)
| JString (s : string)
| JArray (items : list json)
| JObject (members : list (string * json)).

(** The record the codec is generated for. *)
Record stAuthorization : Type := {
  ChainID : option Z;
  Address : Go.Address;
  Nonce : Z;
  V : option Z;
  R : option Z;
  S : option Z
}.

(** The local type of [MarshalJSON]. *)
Module enc.
Record stAuthorization : Type := {
  ChainID : option Z;
  Address : Go.Address;
  Nonce : Z;
  V : option Z;
  R : option Z;
  S : option Z
}.
End enc.

(** The local type of [UnmarshalJSON]: every field is a pointer. *)
Module dec.
Record stAuthorization : Type := {
  ChainID : option Z;
  Address : option Go.Address;
  Nonce : option Z;
  V : option Z;
  R : option Z;
  S : option Z
}.

(** [var dec stAuthorization] *)
Definition zero : stAuthorization := {|
  ChainID := None; Address := None; Nonce := None;
  V := None; R := None; S := None |}.
End dec.

(** The fields of the local types, in declaration order. *)
Inductive Field : Type :=
| fChainID | fAddress | fNonce | fV | fR | fS.

Definition fields : list Field :=
  [fChainID; fAddress; fNonce; fV; fR; fS].

(** The JSON key of a field: its tag, or its Go name without one. *)
Definition field_name (f : Field) : string :=
  match f with
  | fChainID => "ChainID"
  | fAddress => "address"
  | fNonce => "nonce"
  | fV => "v"
  | fR => "r"
  | fS => "s"
  end.

Definition Field_eqb (a b : Field) : bool :=
  match a, b with
  | fChainID, fChainID | fAddress, fAddress | fNonce, fNonce
  | fV, fV | fR, fR | fS, fS => true
  | _, _ => false
  end.

Definition missing_required_field (f : Field) : error :=
  errors_New
    ("missing required field '" ++ field_name f ++ "' for stAuthorization").

Section Codec.

(** The text forms of the field types ([math.HexOrDecimal256],
    [math.HexOrDecimal64], [common.Address]) and the key folding of
    [encoding/json] are outside this file. *)
Record Codecs : Type := {
  HexOrDecimal256_MarshalText : Z -> string;
  HexOrDecimal256_UnmarshalJSON : json -> Z + error;
  HexOrDecimal64_MarshalText : Z -> string;
  HexOrDecimal64_UnmarshalJSON : json -> Z + error;
  Address_MarshalText : Go.Address -> string;
  Address_UnmarshalJSON : json -> Go.Address + error;
  foldName : string -> string
}.

Variable c : Codecs.

(** [json.Marshal(&enc)]: one member per field, in declaration order; a
    nil pointer is written as [null]. *)
Definition json_pointer256 (p : option Z) : json :=
  match p with
  | Some z => JString (HexOrDecimal256_MarshalText c z)
  | None => JNull
  end.

Definition json_Marshal (e : enc.stAuthorization) : json * option error :=
  (JObject
     [(field_name fChainID, json_pointer256 (enc.ChainID e));
      (field_name fAddress, JString (Address_MarshalText c (enc.Address e)));
      (field_name fNonce,
        JString (HexOrDecimal64_MarshalText c (enc.Nonce e)));
      (field_name fV, json_pointer256 (enc.V e));
      (field_name fR, json_pointer256 (enc.R e));
      (field_name fS, json_pointer256 (enc.S e))],
   None).

(** [MarshalJSON] (lines 17-34) *)
Definition MarshalJSON (s : stAuthorization) : json * option error :=
  let enc := {|
    enc.ChainID := ChainID s;
    enc.Address := Address s;
    enc.Nonce := Nonce s;
    enc.V := V s;
    enc.R := R s;
    enc.S := S s |} in
  json_Marshal enc.

(** The field a key selects: the one of that exact name, or else the
    first whose name folds to the same string. *)
Definition field_of_key (key : string) : option Field :=
  match find (fun f => String.eqb (field_name f) key) fields with
  | Some f => Some f
  | None =>
      find (fun f => String.eqb (foldName c (field_name f))
                       (foldName c key)) fields
  end.

(** Storing a member's value in its field: [null] resets the pointer,
    any other value goes through the field type's decoder. *)
Definition store (f : Field) (v : json) (d : dec.stAuthorization)
  : dec.stAuthorization + error :=
  let with256 (k : option Z -> dec.stAuthorization) :=
    match v with
    | JNull => inl (k None)
    | _ => match HexOrDecimal256_UnmarshalJSON c v with
           | inl z => inl (k (Some z))
           | inr err => inr err
           end
    end in
  match f with
  | fChainID =>
      with256 (fun p =>
        {| dec.ChainID := p; dec.Address := dec.Address d;
           dec.Nonce := dec.Nonce d; dec.V := dec.V d;
           dec.R := dec.R d; dec.S := dec.S d |})
  | fAddress =>
      match v with
      | JNull =>
          inl {| dec.ChainID := dec.ChainID d; dec.Address := None;
                 dec.Nonce := dec.Nonce d; dec.V := dec.V d;
                 dec.R := dec.R d; dec.S := dec.S d |}
      | _ => match Address_UnmarshalJSON c v with
             | inl a =>
                 inl {| dec.ChainID := dec.ChainID d;
                        dec.Address := Some a;
                        dec.Nonce := dec.Nonce d; dec.V := dec.V d;
                        dec.R := dec.R d; dec.S := dec.S d |}
             | inr err => inr err
             end
      end
  | fNonce =>
      match v with
      | JNull =>
          inl {| dec.ChainID := dec.ChainID d;
                 dec.Address := dec.Address d;
                 dec.Nonce := None; dec.V := dec.V d;
                 dec.R := dec.R d; dec.S := dec.S d |}
      | _ => match HexOrDecimal64_UnmarshalJSON c v with
             | inl n =>
                 inl {| dec.ChainID := dec.ChainID d;
                        dec.Address := dec.Address d;
                        dec.Nonce := Some n; dec.V := dec.V d;
                        dec.R := dec.R d; dec.S := dec.S d |}
             | inr err => inr err
             end
      end
  | fV =>
      with256 (fun p =>
        {| dec.ChainID := dec.ChainID d; dec.Address := dec.Address d;
           dec.Nonce := dec.Nonce d; dec.V := p;
           dec.R := dec.R d; dec.S := dec.S d |})
  | fR =>
      with256 (fun p =>
        {| dec.ChainID := dec.ChainID d; dec.Address := dec.Address d;
           dec.Nonce := dec.Nonce d; dec.V := dec.V d;
           dec.R := p; dec.S := dec.S d |})
  | fS =>
      with256 (fun p =>
        {| dec.ChainID := dec.ChainID d; dec.Address := dec.Address d;
           dec.Nonce := dec.Nonce d; dec.V := dec.V d;
           dec.R := dec.R d; dec.S := p |})
  end.

(** The members of an object are stored one after the other; a key that
    selects no field is skipped, and the first value that does not
    decode ends the decoding with its error. *)
Fixpoint store_members (members : list (string * json))
    (d : dec.stAuthorization) : dec.stAuthorization + error :=
  match members with
  | [] => inl d
  | (key, v) :: rest =>
      match field_of_key key with
      | None => store_members rest d
      | Some f =>
          match store f v d with
          | inl d' => store_members rest d'
          | inr err => inr err
          end
      end
  end.

(** [json.Unmarshal(input, &dec)]: [null] leaves [dec] as it is, and
    only an object can fill a struct. *)
Definition json_Unmarshal (input : json) (d : dec.stAuthorization)
  : dec.stAuthorization + error :=
  match input with
  | JNull => inl d
  | JObject members => store_members members d
  | _ => inr (errors_New "json: cannot unmarshal into Go value")
  end.

Definition with_ChainID (s : stAuthorization) (p : option Z) :=
  {| ChainID := p; Address := Address s; Nonce := Nonce s;
     V := V s; R := R s; S := S s |}.
Definition with_Address (s : stAuthorization) (a : Go.Address) :=
  {| ChainID := ChainID s; Address := a; Nonce := Nonce s;
     V := V s; R := R s; S := S s |}.
Definition with_Nonce (s : stAuthorization) (n : Z) :=
  {| ChainID := ChainID s; Address := Address s; Nonce := n;
     V := V s; R := R s; S := S s |}.
Definition with_V (s : stAuthorization) (p : option Z) :=
  {| ChainID := ChainID s; Address := Address s; Nonce := Nonce s;
     V := p; R := R s; S := S s |}.
Definition with_R (s : stAuthorization) (p : option Z) :=
  {| ChainID := ChainID s; Address := Address s; Nonce := Nonce s;
     V := V s; R := p; S := S s |}.
Definition with_S (s : stAuthorization) (p : option Z) :=
  {| ChainID := ChainID s; Address := Address s; Nonce := Nonce s;
     V := V s; R := R s; S := p |}.

(** [UnmarshalJSON] (lines 37-74): the receiver as the call leaves it,
    and the error returned. *)
Definition UnmarshalJSON (s : stAuthorization) (input : json)
  : stAuthorization * option error :=
  match json_Unmarshal input dec.zero with
  | inr err => (s, Some err)
  | inl dec =>
  let s := match dec.ChainID dec with
           | Some chainID => with_ChainID s (Some chainID)
           | None => s
           end in
  match dec.Address dec with
  | None => (s, Some (missing_required_field fAddress))
  | Some address =>
  let s := with_Address s address in
  match dec.Nonce dec with
  | None => (s, Some (missing_required_field fNonce))
  | Some nonce =>
  let s := with_Nonce s nonce in
  match dec.V dec with
  | None => (s, Some (missing_required_field fV))
  | Some v =>
  let s := with_V s (Some v) in
  match dec.R dec with
  | None => (s, Some (missing_required_field fR))
  | Some r =>
  let s := with_R s (Some r) in
  match dec.S dec with
  | None => (s, Some (missing_required_field fS))
  | Some s_ =>
  let s := with_S s (Some s_) in
  (s, None)
  end end end end end end.

(** The value an object gives a field: that of the last member whose
    key selects it. *)
Fixpoint lookup_field (f : Field) (members : list (string * json))
  : option json :=
  match members with
  | [] => None
  | (key, v) :: rest =>
      match lookup_field f rest with
      | Some v' => Some v'
      | None =>
          match field_of_key key with
          | Some f' => if Field_eqb f f' then Some v else None
          | None => None
          end
      end
  end.

(** The field of [dec] is a non-nil pointer. *)
Definition is_set (f : Field) (d : dec.stAuthorization) : bool :=
  match f with
  | fChainID => match dec.ChainID d with Some _ => true | None => false end
  | fAddress => match dec.Address d with Some _ => true | None => false end
  | fNonce => match dec.Nonce d with Some _ => true | None => false end
  | fV => match dec.V d with Some _ => true | None => false end
  | fR => match dec.R d with Some _ => true | None => false end
  | fS => match dec.S d with Some _ => true | None => false end
  end.

Definition is_null (v : json) : bool :=
  match v with
  | JNull => true
  | _ => false
  end.

(** A field is absent when no member selects it, present when the
    object gives it a value other than [null]. *)
Definition absent (f : Field) (members : list (string * json)) : Prop :=
  lookup_field f members = None.

Definition present (f : Field) (members : list (string * json)) : Prop :=
  exists v, lookup_field f members = Some v /\ v <> JNull.

(** An input is well formed when every value it gives a field decodes
    for the type of that field. *)
Definition well_formed (input : json) : Prop :=
  exists d, json_Unmarshal input dec.zero = inl d.

(** Every pointer of the record is set. *)
Definition populated (s : stAuthorization) : Prop :=
  ChainID s <> None /\ V s <> None /\ R s <> None /\ S s <> None.

(** The text forms of the values of the record decode to the values
    they encode. *)
Definition text_round_trips (s : stAuthorization) : Prop :=
  (forall z, In (Some z) [ChainID s; V s; R s; S s] ->
     HexOrDecimal256_UnmarshalJSON c
       (JString (HexOrDecimal256_MarshalText c z)) = inl z) /\
  HexOrDecimal64_UnmarshalJSON c
    (JString (HexOrDecimal64_MarshalText c (Nonce s))) = inl (Nonce s) /\
  Address_UnmarshalJSON c (JString (Address_MarshalText c (Address s)))
  = inl (Address s).

End Codec.

(** The fields marked [gencodec:"required"]. *)
Definition required_fields : list Field := [fAddress; fNonce; fV; fR; fS].


(** A field is missing from an object that has no member for it, or
    gives it [null]. *)
Definition missing (c : Codecs) (f : Field)
    (members : list (string * json)) : Prop :=
  match lookup_field c f members with
  | Some v => v = JNull
  | None => True
  end.

(** Two records agree on a field. *)
Definition same_field (f : Field) (s s' : stAuthorization) : Prop :=
  match f with
  | fChainID => ChainID s = ChainID s'
  | fAddress => Address s = Address s'
  | fNonce => Nonce s = Nonce s'
  | fV => V s = V s'
  | fR => R s = R s'
  | fS => S s = S s'
  end.

(** Two local records of [UnmarshalJSON] agree on a field. *)
Definition dec_same (g : Field) (d d' : dec.stAuthorization) : Prop :=
  match g with
  | fChainID => dec.ChainID d = dec.ChainID d'
  | fAddress => dec.Address d = dec.Address d'
  | fNonce => dec.Nonce d = dec.Nonce d'
  | fV => dec.V d = dec.V d'
  | fR => dec.R d = dec.R d'
  | fS => dec.S d = dec.S d'
  end.

(** The field [g] of the local record points to what the decoder of its
    type makes of the value [v]. *)
Definition dec_holds (c : Codecs) (g : Field) (v : json)
    (d : dec.stAuthorization) : Prop :=
  match g with
  | fChainID =>
      exists z, HexOrDecimal256_UnmarshalJSON c v = inl z /\
                dec.ChainID d = Some z
  | fAddress =>
      exists a, Address_UnmarshalJSON c v = inl a /\ dec.Address d = Some a
  | fNonce =>
      exists n, HexOrDecimal64_UnmarshalJSON c v = inl n /\
                dec.Nonce d = Some n
  | fV =>
      exists z, HexOrDecimal256_UnmarshalJSON c v = inl z /\
                dec.V d = Some z
  | fR =>
      exists z, HexOrDecimal256_UnmarshalJSON c v = inl z /\
                dec.R d = Some z
  | fS =>
      exists z, HexOrDecimal256_UnmarshalJSON c v = inl z /\
                dec.S d = Some z
  end.

(** The field [g] of the record [s] holds the value the input gives that
    field, as the decoder of its type reads it. *)
Definition holds_decoded (c : Codecs) (g : Field) (input : json)
    (s : stAuthorization) : Prop :=
  exists members v,
    input = JObject members /\
    lookup_field c g members = Some v /\ v <> JNull /\
    match g with
    | fChainID =>
        exists z, HexOrDecimal256_UnmarshalJSON c v = inl z /\
                  ChainID s = Some z
    | fAddress => Address_UnmarshalJSON c v = inl (Address s)
    | fNonce => HexOrDecimal64_UnmarshalJSON c v = inl (Nonce s)
    | fV =>
        exists z, HexOrDecimal256_UnmarshalJSON c v = inl z /\ V s = Some z
    | fR =>
        exists z, HexOrDecimal256_UnmarshalJSON c v = inl z /\ R s = Some z
    | fS =>
        exists z, HexOrDecimal256_UnmarshalJSON c v = inl z /\ S s = Some z
    end.

End Tests.

(** ** Concrete collaborators and inputs *)

Module Fixtures.

Import Core.

Definition addr (b : byte) : Address := repeat b 20.

Definition account : Address := addr x01.
Definition recipient : Address := addr x02.
Definition deployer : Address := addr x11.
Definition sponsor : Address := addr x22.

(** An invoker over a trivial world state.  A frame draws its gas limit
    from the pool and fails with an error when the pool cannot cover it;
    a frame sent to [reverting] runs and reports failure. *)
Definition toy_invoke (reverting : option Address)
    (evm : EVM unit unit) (m : Message) (w : unit) (g : Z)
  : unit * Z * (ExecutionResult + error) :=
  if andb (0 <=? GasLimit m) (GasLimit m <=? g) then
    (w, g - GasLimit m,
     inl {| UsedGas := GasLimit m;
            Err := match reverting, To m with
                   | Some a, Some b =>
                       if bytes_eqb a b
                       then Some (errors_New "execution reverted")
                       else None
                   | _, _ => None
                   end;
            ReturnData := [] |})
  else (w, g, inr (errors_New "gas limit reached")).

Definition toy_NewEVMTxContext (m : option Message) : Outcome TxContext :=
  match m with
  | Some m =>
      Returns {| Origin := From m; TxGasPrice := GasPrice m;
                 BlobHashes := [] |}
  | None => Panics nil_dereference
  end.

Definition transfer : Message := {|
  From := account;
  To := Some recipient;
  Value := Some 1;
  GasLimit := 21000;
  GasPrice := Some 1;
  GasFeeCap := Some 1;
  GasTipCap := Some 1;
  Data := [];
  MsgAccessList := [];
  SkipAccountChecks := false;
  IsInnerAATxFrame := false |}.

(** Message construction that succeeds on every transaction. *)
Definition ttm_ok (tx : Transaction) (s : Signer) (baseFee : option Z)
  : option Message * option error := (Some transfer, None).

(** Message construction that fails, with and without a message. *)
Definition ttm_fails (tx : Transaction) (s : Signer) (baseFee : option Z)
  : option Message * option error :=
  (Some transfer, Some (errors_New "invalid sender")).

Definition ttm_fails_nil (tx : Transaction) (s : Signer)
    (baseFee : option Z) : option Message * option error :=
  (None, Some (errors_New "invalid sender")).

Definition toy_env (reverting : option Address)
    (ttm : Transaction -> Signer -> option Z ->
           option Message * option error)
  : Env unit unit unit unit := {|
  ALEXF_AA_TX_TYPE := 4;
  BlobTxType := 3;
  BlobTxBlobGasPerBlob := 131072;
  SystemAddress := addr xfe;
  BeaconRootsStorageAddress := addr xbe;
  invoke := toy_invoke reverting;
  TransactionToMessage := ttm;
  NewEVMTxContext := toy_NewEVMTxContext;
  BlobBaseFee := fun _ => None;
  ApplyDAOHardFork := fun w => w;
  evm_Call := fun _ _ _ _ _ _ w => w;
  AddAddressToAccessList := fun _ w => w;
  SetTxContext := fun _ _ w => w;
  TxIndex := fun _ => 0;
  Finalise := fun _ w => w;
  IntermediateRoot := fun _ w => (w, []);
  GetLogs := fun _ _ _ _ => [];
  CreateAddress := fun a _ => a;
  CreateBloom := fun _ => []
|}.

Definition aa_data (paymasterData deployerData : bytes)
  : AlexfAccountAbstractionTx := {|
  Sender := Some account;
  PaymasterData := paymasterData;
  DeployerData := deployerData;
  TxAccessList := [] |}.

Definition aa_tx (paymasterData deployerData : bytes) : Transaction := {|
  tx_Type := 4;
  tx_Hash := [xaa];
  tx_Nonce := 0;
  tx_BlobHashes := [];
  tx_AlexfAATransactionData := Some (aa_data paymasterData deployerData) |}.

Definition legacy_tx (h : byte) : Transaction := {|
  tx_Type := 0;
  tx_Hash := [h];
  tx_Nonce := 0;
  tx_BlobHashes := [];
  tx_AlexfAATransactionData := None |}.

Definition toy_header (gasLimit : Z) : Header := {|
  Number := 1;
  Time := 1;
  Coinbase := addr xcc;
  BaseFee := None;
  HeaderGasLimit := gasLimit;
  header_Hash := [xbb] |}.

Definition toy_block (gasLimit : Z) (txs : list Transaction)
    (withdrawals : list Withdrawal) : Block := {|
  block_Header := toy_header gasLimit;
  block_BeaconRoot := None;
  block_Transactions := txs;
  block_Uncles := [];
  block_Withdrawals := withdrawals |}.

Definition toy_withdrawal : Withdrawal := {|
  wd_Index := 0; wd_Validator := 0; wd_Address := recipient;
  wd_Amount := 1 |}.

(** Chain rules of a chain on which every fork but Shanghai is active. *)
Definition pre_shanghai : ChainConfig := {|
  DAOForkSupport := false;
  DAOForkBlock := None;
  IsByzantium := fun _ => true;
  IsEIP158 := fun _ => true;
  IsShanghai := fun _ _ => false |}.

Definition toy_processor : StateProcessor unit unit := {|
  config := pre_shanghai;
  bc := tt;
  engine := {| Finalize := fun _ _ _ _ _ w => w |} |}.

Definition toy_evm : EVM unit unit :=
  NewEVM (NewEVMBlockContext (toy_header 1000000) tt None) TxContext_zero
    pre_shanghai tt.

Definition toy_state (g : Z) : St unit :=
  {| statedb := tt; gp := g; usedGas := 0 |}.

(** The two phases on a block of one million gas. *)
Definition toy_validate (env : Env unit unit unit unit) (tx : Transaction)
  := ApplyAlexfAATransactionValidationPhase env pre_shanghai tt None
       (toy_header 1000000) tx tt (toy_state 1000000).

Definition toy_execute (env : Env unit unit unit unit)
    (vpr : option ValidationPhaseResult) (st : St unit)
  := ApplyAlexfAATransactionExecutionPhase env pre_shanghai vpr 1 [xbb] tt
       None (toy_header 1000000) tt st.

(** *** An authorization tuple and text codecs *)

Import Tests.

Definition hex_digit (n : N) : ascii :=
  nth (N.to_nat n) (list_ascii_of_string "0123456789abcdef") "0"%char.

Definition digit_value (a : ascii) : option N :=
  let n := N_of_ascii a in
  if andb (48 <=? n)%N (n <=? 57)%N then Some (n - 48)%N
  else if andb (97 <=? n)%N (n <=? 102)%N then Some (n - 87)%N
  else if andb (65 <=? n)%N (n <=? 70)%N then Some (n - 55)%N
  else None.

Fixpoint hex_of_bytes (b : bytes) : string :=
  match b with
  | [] => EmptyString
  | x :: rest =>
      let n := Byte.to_N x in
      String (hex_digit (n / 16)) (String (hex_digit (n mod 16))
        (hex_of_bytes rest))
  end.

Fixpoint bytes_of_hex (s : string) : option bytes :=
  match s with
  | EmptyString => Some []
  | String a (String b rest) =>
      match digit_value a, digit_value b, bytes_of_hex rest with
      | Some h, Some l, Some tail =>
          match Byte.of_N (16 * h + l) with
          | Some x => Some (x :: tail)
          | None => None
          end
      | _, _, _ => None
      end
  | String _ EmptyString => None
  end.

Definition toy_integer (v : json) : Z + error :=
  match v with
  | JString s => inl (HexString.to_Z s)
  | _ => inr (errors_New "invalid hex or decimal integer")
  end.

Definition toy_address (v : json) : Go.Address + error :=
  match v with
  | JString (String "0" (String "x" digits)) =>
      match bytes_of_hex digits with
      | Some b =>
          if (length b =? 20)%nat then inl b
          else inr (errors_New "hex string has wrong length")
      | None => inr (errors_New "invalid hex string")
      end
  | _ => inr (errors_New "invalid hex string")
  end.

Definition lower (a : ascii) : ascii :=
  let n := N_of_ascii a in
  if andb (65 <=? n)%N (n <=? 90)%N then ascii_of_N (n + 32) else a.

Fixpoint toy_foldName (s : string) : string :=
  match s with
  | EmptyString => EmptyString
  | String a rest => String (lower a) (toy_foldName rest)
  end.

Definition toy_codecs : Codecs := {|
  HexOrDecimal256_MarshalText := HexString.of_Z;
  HexOrDecimal256_UnmarshalJSON := toy_integer;
  HexOrDecimal64_MarshalText := HexString.of_Z;
  HexOrDecimal64_UnmarshalJSON := toy_integer;
  Address_MarshalText := fun a => ("0x" ++ hex_of_bytes a)%string;
  Address_UnmarshalJSON := toy_address;
  foldName := toy_foldName
|}.

(** The tuple [{chainId:1, address:0xAAAA...AAAA, nonce:5, v:1, r:2,
    s:3}]. *)
Definition authorization : stAuthorization := {|
  ChainID := Some 1;
  Tests.Address := addr xaa;
  Nonce := 5;
  V := Some 1;
  R := Some 2;
  S := Some 3
|}.

(** A receiver with other values in every field. *)
Definition other_authorization : stAuthorization := {|
  ChainID := Some 7;
  Tests.Address := addr x01;
  Nonce := 9;
  V := None;
  R := None;
  S := None
|}.

Definition authorization_members : list (string * json) :=
  [("chainId", JString "0x1");
   ("address", JString "0xaaaaaaaaaaaaaaaaaaaaaaaaaaaaaaaaaaaaaaaa");
   ("nonce", JString "0x5");
   ("v", JString "0x1");
   ("r", JString "0x2");
   ("s", JString "0x3")]%string.

(** The members of an object without the key [key]. *)
Definition without (key : string) (members : list (string * json))
  : list (string * json) :=
  filter (fun kv => negb (String.eqb (fst kv) key)) members.


(** *** A block that mixes the two kinds of transactions *)

Definition mixed_block : Block :=
  toy_block 1000000 [legacy_tx x01; aa_tx sponsor []; legacy_tx x02] [].

(** The block with a beacon root. *)
Definition beacon_block : Block := {|
  block_Header := toy_header 1000000;
  block_BeaconRoot := Some [xb0];
  block_Transactions := [legacy_tx x01; aa_tx sponsor []; legacy_tx x02];
  block_Uncles := [];
  block_Withdrawals := [] |}.

Definition plain_env : Env unit unit unit unit := toy_env None ttm_ok.

(** The receipt of the AA transaction of [mixed_block]. *)
Definition toy_AA_receipt : Receipt unit := {|
  Type_ := 4;
  PostState := [];
  Status := 1;
  CumulativeGasUsed := 0;
  Bloom := Bloom_zero;
  Logs := [];
  TxHash := Hash_zero;
  ContractAddress := Address_zero;
  GasUsed := 0;
  BlobGasUsed := 0;
  BlobGasPrice := None;
  BlockHash := Hash_zero;
  BlockNumber := None;
  TransactionIndex := 0 |}.

(** The message of the sponsor-validation frame of that transaction, and
    the result the invoker gives it. *)
Definition toy_paymaster_message : Message := {|
  From := account;
  To := Some sponsor;
  Value := Some 0;
  GasLimit := 100000;
  GasPrice := Some 875000000;
  GasFeeCap := Some 875000000;
  GasTipCap := Some 875000000;
  Data := [];
  MsgAccessList := [];
  SkipAccountChecks := true;
  IsInnerAATxFrame := true |}.

Definition toy_result : ExecutionResult + error :=
  inl {| UsedGas := 100000; Err := None; ReturnData := [] |}.

(** A block of transactions of the other types only. *)
Definition legacy_block : Block :=
  toy_block 1000000 [legacy_tx x01; legacy_tx x02] [].

(** A block too small for the first frame of its AA transaction. *)
Definition small_block : Block := toy_block 1000 [aa_tx sponsor []] [].

(** A single transaction applied on its own. *)
Definition toy_apply (env : Env unit unit unit unit) (tx : Transaction)
  := ApplyTransaction env pre_shanghai tt None (toy_header 1000000) tx tt
       (toy_state 1000000).

(** The validation result of the AA transaction. *)
Definition toy_vpr : ValidationPhaseResult := {|
  Tx := Some (aa_tx sponsor []);
  paymasterContext := [];
  validationGasUsed := 0;
  paymasterGasUsed := 0 |}.

(** *** Objects and tuples with missing values *)

(** The object of the specification with [null] for v and without r. *)
Definition partial_members : list (string * json) :=
  [("chainId", JString "0x1");
   ("address", JString "0xaaaaaaaaaaaaaaaaaaaaaaaaaaaaaaaaaaaaaaaa");
   ("nonce", JString "0x5");
   ("v", JNull);
   ("s", JString "0x3")]%string.

(** The receiver after decoding that object. *)
Definition half_decoded : stAuthorization := {|
  ChainID := Some 1;
  Tests.Address := addr xaa;
  Nonce := 5;
  V := None;
  R := None;
  S := None
|}.

(** The object of the specification with [null] for its chain id. *)
Definition chainless_members : list (string * json) :=
  [("chainId", JNull);
   ("address", JString "0xaaaaaaaaaaaaaaaaaaaaaaaaaaaaaaaaaaaaaaaa");
   ("nonce", JString "0x5");
   ("v", JString "0x1");
   ("r", JString "0x2");
   ("s", JString "0x3")]%string.

(** The tuple of the specification without its chain id, and without
    its v. *)
Definition chainless : stAuthorization := {|
  ChainID := None;
  Tests.Address := addr xaa;
  Nonce := 5;
  V := Some 1;
  R := Some 2;
  S := Some 3
|}.

Definition unsigned : stAuthorization := {|
  ChainID := Some 1;
  Tests.Address := addr xaa;
  Nonce := 5;
  V := None;
  R := Some 2;
  S := Some 3
|}.

(** An object without nonce whose address is not the text of an
    address. *)
Definition malformed_members : list (string * json) :=
  [("address", JString "zz");
   ("v", JString "0x1");
   ("r", JString "0x2");
   ("s", JString "0x3")]%string.

(** Text codecs that, like [math.HexOrDecimal256], accept no negative
    integer and none of more than 256 bits. *)
Definition strict_integer (v : json) : Z + error :=
  match toy_integer v with
  | inl z =>
      if andb (0 <=? z) (z <? 2 ^ 256) then inl z
      else inr (errors_New "invalid hex or decimal integer")
  | inr err => inr err
  end.

Definition strict_codecs : Codecs := {|
  HexOrDecimal256_MarshalText := HexString.of_Z;
  HexOrDecimal256_UnmarshalJSON := strict_integer;
  HexOrDecimal64_MarshalText := HexString.of_Z;
  HexOrDecimal64_UnmarshalJSON := toy_integer;
  Address_MarshalText := fun a => ("0x" ++ hex_of_bytes a)%string;
  Address_UnmarshalJSON := toy_address;
  foldName := toy_foldName
|}.

(** The tuple of the specification with a v of 257 bits. *)
Definition oversized : stAuthorization := {|
  ChainID := Some 1;
  Tests.Address := addr xaa;
  Nonce := 5;
  V := Some (2 ^ 256);
  R := Some 2;
  S := Some 3
|}.

End Fixtures.

(** ** Reasoning about runs *)

Section Runs.

Import Core.

Context {W : Type}.

Lemma wp_weaken {A : Type} (m : M W A) (st : St W)
    (Q Q' : _ -> _ -> _ -> Prop) :
  wp m st Q ->
  (forall st' evs o, Q st' evs o -> Q' st' evs o) ->
  wp m st Q'.
Proof. unfold wp. intros H HQ. apply HQ, H. Qed.

Lemma wp_conj {A : Type} (m : M W A) (st : St W)
    (Q Q' : _ -> _ -> _ -> Prop) :
  wp m st Q -> wp m st Q' ->
  wp m st (fun st' evs o => Q st' evs o /\ Q' st' evs o).
Proof. unfold wp. auto. Qed.

Lemma wp_ret {A : Type} (a : A) (st : St W) Q :
  Q st [] (Returns a) -> wp (ret a) st Q.
Proof. exact (fun H => H). Qed.

Lemma wp_lift {A : Type} (o : Outcome A) (st : St W) Q :
  Q st [] o -> wp (lift o) st Q.
Proof. exact (fun H => H). Qed.

Lemma wp_emit e (st : St W) (Q : _ -> _ -> Outcome unit -> Prop) :
  Q st [e] (Returns tt) -> wp (emit e) st Q.
Proof. exact (fun H => H). Qed.

Lemma wp_with_statedb f (st : St W) (Q : _ -> _ -> Outcome unit -> Prop) :
  Q {| statedb := f (statedb st); gp := gp st; usedGas := usedGas st |}
    [] (Returns tt) ->
  wp (with_statedb f) st Q.
Proof. exact (fun H => H). Qed.

Lemma wp_read_statedb {A : Type} (f : W -> A) (st : St W) Q :
  Q st [] (Returns (f (statedb st))) -> wp (read_statedb f) st Q.
Proof. exact (fun H => H). Qed.

Lemma wp_modify_usedGas f (st : St W) (Q : _ -> _ -> Outcome unit -> Prop) :
  Q {| statedb := statedb st; gp := gp st; usedGas := f (usedGas st) |}
    [] (Returns tt) ->
  wp (modify_usedGas f) st Q.
Proof. exact (fun H => H). Qed.

Lemma wp_read_usedGas (st : St W) Q :
  Q st [] (Returns (usedGas st)) -> wp read_usedGas st Q.
Proof. exact (fun H => H). Qed.

Lemma wp_bind {A B : Type} (m : M W A) (k : A -> M W B) (st : St W) Q :
  wp m st (fun st1 ev1 o1 =>
    match o1 with
    | Returns a => wp (k a) st1 (fun st2 ev2 o2 => Q st2 (ev1 ++ ev2) o2)
    | Panics p => Q st1 ev1 (Panics p)
    end) ->
  wp (bind m k) st Q.
Proof.
  unfold wp, bind, final, events, outcome.
  destruct (m st) as [[st1 ev1] [a|p]]; cbn; [|exact (fun H => H)].
  destruct (k a st1) as [[st2 ev2] o2]; cbn. exact (fun H => H).
Qed.

End Runs.

(** One step of a run: the head computation is replaced by its rule. *)
Ltac wp_step :=
  lazymatch goal with
  | |- Core.wp (Core.bind _ _) _ _ => apply wp_bind
  | |- Core.wp (Core.ret _) _ _ => apply wp_ret
  | |- Core.wp (Core.emit _) _ _ => apply wp_emit
  | |- Core.wp (Core.with_statedb _) _ _ => apply wp_with_statedb
  | |- Core.wp (Core.read_statedb _) _ _ => apply wp_read_statedb
  | |- Core.wp (Core.modify_usedGas _) _ _ => apply wp_modify_usedGas
  | |- Core.wp Core.read_usedGas _ _ => apply wp_read_usedGas
  | |- Core.wp (Core.lift ?o) _ _ => apply wp_lift; destruct o eqn:?
  | |- Core.wp (match ?x with _ => _ end) _ _ => destruct x eqn:?
  | |- Core.wp (let _ := _ in _) _ _ => cbv zeta
  end; cbv beta iota.

(** ** Properties of the state processor *)

Section CoreFacts.

Import Core.

Context {W Log ChainContext VMConfig : Type}.
Variable env : Env W Log ChainContext VMConfig.

Lemma wp_ApplyMessage frame evm m st Q :
  (forall w g r, invoke env evm m (statedb st) (gp st) = (w, g, r) ->
     Q {| statedb := w; gp := g; usedGas := usedGas st |}
       [EvApplyMessage frame m r] (Returns r)) ->
  wp (ApplyMessage env frame evm m) st Q.
Proof.
  unfold wp, ApplyMessage, final, events, outcome. intros H.
  destruct (invoke env evm m (statedb st) (gp st)) as [[w g] r] eqn:E.
  cbn. apply H. reflexivity.
Qed.

(** A step that also runs call frames, splitting on their result. *)
Ltac run_step :=
  lazymatch goal with
  | |- wp (ApplyMessage _ _ _ _) _ _ =>
      apply wp_ApplyMessage; intros ? ? [?|?] ?; cbv beta iota
  | |- _ => wp_step
  end.

Ltac finish :=
  cbn [existsb forallb app sponsor_rejected execution_event orb andb negb];
  intros; rewrite ?orb_false_r, ?andb_true_r in *;
  try discriminate; try reflexivity; try congruence.

Lemma validation_rejected aatx evm st :
  wp (applyAlexfAATransactionValidationPhase env aatx evm) st
    (fun _ evs o =>
       existsb sponsor_rejected evs = true ->
       o = Returns (None, Some paymaster_validation_failed)).
Proof.
  unfold applyAlexfAATransactionValidationPhase.
  repeat run_step; finish.
Qed.

Lemma validation_no_execution aatx evm st :
  wp (applyAlexfAATransactionValidationPhase env aatx evm) st
    (fun _ evs _ => existsb execution_event evs = false).
Proof.
  unfold applyAlexfAATransactionValidationPhase.
  repeat run_step; finish.
Qed.

(** Using a fact proved of a sub-computation. *)
Ltac wp_use lem :=
  eapply wp_weaken; [apply lem | cbv beta; intros ? ? ? ?].

Ltac ev_norm :=
  cbv beta;
  repeat rewrite existsb_app;
  cbn [existsb app sponsor_rejected execution_event orb];
  repeat rewrite orb_false_r.

Ltac ev_done :=
  ev_norm; intros;
  repeat match goal with
         | H : ?P -> _, H' : ?P |- _ =>
             lazymatch type of P with Prop => specialize (H H') end
         | H : _ || _ = true |- _ => apply orb_true_iff in H; destruct H
         | H : _ /\ _ |- _ => destruct H
         | H : _ = false |- _ => rewrite H
         end;
  try discriminate; try reflexivity; try congruence;
  try (split; [congruence | first [assumption | reflexivity]]).

Lemma Validation_rejected config bc author header tx cfg st :
  wp (ApplyAlexfAATransactionValidationPhase env config bc author header tx
        cfg) st
    (fun _ evs o =>
       existsb sponsor_rejected evs = true ->
       o = Returns (None, Some paymaster_validation_failed)).
Proof.
  unfold ApplyAlexfAATransactionValidationPhase.
  repeat run_step; try solve [finish].
  wp_use validation_rejected.
  destruct o1 as [[vpr [e|]]|p]; repeat run_step; ev_done.
Qed.

Lemma Validation_no_execution config bc author header tx cfg st :
  wp (ApplyAlexfAATransactionValidationPhase env config bc author header tx
        cfg) st
    (fun _ evs _ => existsb execution_event evs = false).
Proof.
  unfold ApplyAlexfAATransactionValidationPhase.
  repeat run_step; try solve [finish].
  wp_use validation_no_execution.
  destruct o1 as [[vpr [e|]]|p]; repeat run_step; ev_done.
Qed.

Lemma Process_validate_rejected p header cfg txs verified st :
  wp (Process_validate env p header cfg txs verified) st
    (fun _ evs o =>
       existsb sponsor_rejected evs = true ->
       o = Returns (inr paymaster_validation_failed)).
Proof.
  revert verified st.
  induction txs as [|tx txs IH]; intros; cbn [Process_validate].
  - run_step. finish.
  - run_step; [|apply IH].
    run_step. wp_use Validation_rejected.
    destruct o as [[vpr [e|]]|q]; repeat run_step; try solve [ev_done].
    wp_use IH. ev_done.
Qed.

Lemma Process_validate_no_execution p header cfg txs verified st :
  wp (Process_validate env p header cfg txs verified) st
    (fun _ evs _ => existsb execution_event evs = false).
Proof.
  revert verified st.
  induction txs as [|tx txs IH]; intros; cbn [Process_validate].
  - run_step. finish.
  - run_step; [|apply IH].
    run_step. wp_use Validation_no_execution.
    destruct o as [[vpr [e|]]|q]; repeat run_step; try solve [ev_done].
    wp_use IH. ev_done.
Qed.

(** The execution phase and the legacy applier run no sponsor-validation
    frame. *)
Lemma execution_not_rejected vpr evm blockNumber blockHash st :
  wp (applyAlexfAATransactionExecutionPhase env vpr evm blockNumber
        blockHash) st
    (fun _ evs _ => existsb sponsor_rejected evs = false).
Proof.
  unfold applyAlexfAATransactionExecutionPhase.
  repeat run_step; finish.
Qed.

Lemma Execution_not_rejected config vpr blockNumber blockHash bc author
    header cfg st :
  wp (ApplyAlexfAATransactionExecutionPhase env config vpr blockNumber
        blockHash bc author header cfg) st
    (fun _ evs _ => existsb sponsor_rejected evs = false).
Proof.
  unfold ApplyAlexfAATransactionExecutionPhase.
  repeat run_step; try solve [finish].
  wp_use execution_not_rejected. ev_done.
Qed.

Lemma wp_IntermediateRoot b st Q :
  (forall w h, IntermediateRoot env b (statedb st) = (w, h) ->
     Q {| statedb := w; gp := gp st; usedGas := usedGas st |} []
       (Returns h)) ->
  wp (statedb_IntermediateRoot env b) st Q.
Proof.
  unfold wp, statedb_IntermediateRoot, final, events, outcome. intros H.
  destruct (IntermediateRoot env b (statedb st)) as [w h] eqn:E.
  cbn. apply H. reflexivity.
Qed.

Ltac run_step' :=
  lazymatch goal with
  | |- wp (statedb_IntermediateRoot _ _) _ _ =>
      apply wp_IntermediateRoot; intros ? ? ?; cbv beta iota
  | |- _ => run_step
  end.

Lemma applyTransaction_not_rejected msg config blockNumber blockHash tx evm
    st :
  wp (applyTransaction env msg config blockNumber blockHash tx evm) st
    (fun _ evs _ => existsb sponsor_rejected evs = false).
Proof.
  unfold applyTransaction.
  repeat run_step'; finish.
Qed.

Lemma Process_execute_not_rejected p header cfg blockNumber blockHash
    verified receipts allLogs st :
  wp (Process_execute env p header cfg blockNumber blockHash verified
        receipts allLogs) st
    (fun _ evs _ => existsb sponsor_rejected evs = false).
Proof.
  revert receipts allLogs st.
  induction verified as [|vpr rest IH]; intros; cbn [Process_execute].
  - run_step. finish.
  - run_step. wp_use Execution_not_rejected.
    destruct o as [[receipt [e|]]|q]; repeat run_step; try solve [ev_done].
    wp_use IH. ev_done.
Qed.

Lemma Process_apply_not_rejected p header signer vmenv blockNumber
    blockHash i txs receipts allLogs st :
  wp (Process_apply env p header signer vmenv blockNumber blockHash i txs
        receipts allLogs) st
    (fun _ evs _ => existsb sponsor_rejected evs = false).
Proof.
  revert i receipts allLogs st.
  induction txs as [|tx txs IH]; intros; cbn [Process_apply].
  - run_step. finish.
  - run_step; [apply IH|].
    repeat run_step; try solve [finish].
    wp_use applyTransaction_not_rejected.
    destruct o1 as [[receipt [e|]]|q]; repeat run_step; try solve [ev_done].
    wp_use IH. ev_done.
Qed.

(** The hard-fork hook and the beacon-root call hand no frame to
    [ApplyMessage] and log nothing. *)
Lemma ProcessBeaconBlockRoot_quiet beaconRoot vmenv st :
  wp (ProcessBeaconBlockRoot env beaconRoot vmenv) st
    (fun _ evs _ =>
       existsb sponsor_rejected evs = false /\
       existsb execution_event evs = false).
Proof.
  unfold ProcessBeaconBlockRoot.
  repeat run_step; split; finish.
Qed.

Lemma Process_transactions_rejected p block cfg st :
  wp (Process_transactions env p block cfg) st
    (fun _ evs o =>
       existsb sponsor_rejected evs = true ->
       o = Returns (inr paymaster_validation_failed) /\
       existsb execution_event evs = false).
Proof.
  unfold Process_transactions.
  run_step.
  assert (Hpre : forall st (Q : _ -> _ -> Outcome unit -> Prop),
            (forall st', Q st' [] (Returns tt)) ->
            wp (if DAOForkSupport (config p)
                then
                  match DAOForkBlock (config p) with
                  | Some daoForkBlock =>
                      if daoForkBlock =? block_Number block
                      then with_statedb (ApplyDAOHardFork env)
                      else ret tt
                  | None => ret tt
                  end
                else ret tt) st Q).
  { intros st0 Q HQ. repeat run_step; apply HQ. }
  apply Hpre. intros st0. cbv beta iota.
  run_step.
  eapply wp_weaken with
    (Q := fun _ evs (o : Outcome unit) =>
            existsb sponsor_rejected evs = false /\
            existsb execution_event evs = false).
  { run_step; [apply ProcessBeaconBlockRoot_quiet | run_step; split; finish]. }
  intros st1 ev1 [[]|q] [Hr1 He1]; cbv beta iota; [|ev_done].
  run_step.
  eapply wp_weaken;
    [apply wp_conj;
      [apply Process_validate_rejected
      |apply Process_validate_no_execution]|].
  intros st2 ev2 [[verified|err]|q] [Hr2 He2]; cbv beta iota.
  - run_step. wp_use Process_execute_not_rejected.
    destruct o as [[[receipts allLogs]|err]|q]; repeat run_step;
      try solve [ev_done].
    wp_use Process_apply_not_rejected. ev_done.
  - run_step. ev_done.
  - ev_done.
Qed.

Lemma Process_rejected p block statedb cfg :
  existsb sponsor_rejected (events (Process env p block statedb cfg))
  = true ->
  outcome (Process env p block statedb cfg)
  = Returns ([], [], 0, Some paymaster_validation_failed) /\
  existsb execution_event (events (Process env p block statedb cfg))
  = false.
Proof.
  unfold Process.
  change (wp (Process_body env p block cfg)
            {| Core.statedb := statedb; gp := block_GasLimit block;
               usedGas := 0 |}
            (fun _ evs o =>
               existsb sponsor_rejected evs = true ->
               o = Returns ([], [], 0, Some paymaster_validation_failed) /\
               existsb execution_event evs = false)).
  unfold Process_body. cbv zeta.
  run_step. wp_use Process_transactions_rejected.
  destruct o as [[[receipts allLogs]|err]|q]; repeat run_step; ev_done.
Qed.

(** *** Gas accounting *)

Section Gas.

Hypothesis Hgas : gas_contract env.

Ltac gas_facts :=
  cbn [gp statedb usedGas] in *;
  repeat match goal with
         | H : invoke env ?evm ?m ?w ?g = (?w', ?g', inl ?r) |- _ =>
             let F := fresh in
             assert (F : 0 <= g) by lia;
             destruct (Hgas evm m w g w' g' r H F) as (? & ? & ?);
             clear H F
         end.

Ltac gas_done :=
  intros; try discriminate; try congruence;
  gas_facts; cbn [gp statedb usedGas]; try (split; [reflexivity | lia]).

Lemma validation_gas aatx evm st :
  0 <= gp st ->
  wp (applyAlexfAATransactionValidationPhase env aatx evm) st
    (fun st' _ o =>
       forall vpr, o = Returns (vpr, None) ->
       usedGas st' = usedGas st /\ 0 <= gp st' <= gp st).
Proof.
  intros Hg. unfold applyAlexfAATransactionValidationPhase.
  repeat run_step; gas_done.
Qed.

Lemma Validation_gas config bc author header tx cfg st :
  0 <= gp st ->
  wp (ApplyAlexfAATransactionValidationPhase env config bc author header tx
        cfg) st
    (fun st' _ o =>
       forall v, o = Returns (v, None) ->
       (exists vpr, v = Some vpr /\ Tx vpr = Some tx) /\
       usedGas st' = usedGas st /\ 0 <= gp st' <= gp st).
Proof.
  intros Hg. unfold ApplyAlexfAATransactionValidationPhase.
  repeat run_step; try solve [gas_done].
  eapply wp_weaken; [apply validation_gas; exact Hg|].
  cbv beta. intros st1 ev1 [[vpr [e|]]|q] H; repeat run_step;
    try solve [gas_done].
  intros v Hv. injection Hv as <-. split; [eauto|].
  apply (H _ eq_refl).
Qed.

Lemma Process_validate_gas p header cfg txs verified st :
  Forall (validated env) verified ->
  0 <= gp st ->
  wp (Process_validate env p header cfg txs verified) st
    (fun st' _ o =>
       forall vs, o = Returns (inl vs) ->
       Forall (validated env) vs /\
       usedGas st' = usedGas st /\ 0 <= gp st' <= gp st).
Proof.
  revert verified st.
  induction txs as [|tx txs IH]; intros verified st Hv Hg;
    cbn [Process_validate].
  - run_step. intros vs E. injection E as <-. repeat split; auto; lia.
  - run_step; [|apply IH; assumption].
    apply Z.eqb_eq in Heqb.
    run_step. eapply wp_weaken; [apply Validation_gas; exact Hg|].
    cbv beta. intros st1 ev1 [[v [e|]]|q] H; repeat run_step;
      try solve [gas_done].
    destruct (H _ eq_refl) as ((vpr & -> & Htx) & Hu & Hg1).
    eapply wp_weaken; [apply IH|].
    + apply Forall_app. split; [assumption|].
      constructor; [|constructor]. exists vpr, tx. auto.
    + lia.
    + cbv beta. intros st2 ev2 o2 H2 vs E.
      destruct (H2 _ E) as (? & ? & ?). repeat split; auto; lia.
Qed.

Lemma execution_gas vpr evm blockNumber blockHash st :
  0 <= gp st ->
  wp (applyAlexfAATransactionExecutionPhase env vpr evm blockNumber
        blockHash) st
    (fun st' _ o =>
       forall receipt, o = Returns (Some receipt, None) ->
       (forall tx, Tx vpr = Some tx -> Type_ receipt = tx_Type tx) /\
       usedGas st' = usedGas st /\ 0 <= gp st' <= gp st).
Proof.
  intros Hg. unfold applyAlexfAATransactionExecutionPhase.
  repeat run_step; try solve [gas_done].
  all: intros receipt E; injection E as <-.
  all: gas_facts; cbn [gp statedb usedGas Type_].
  all: split; [|split; [reflexivity|lia]].
  all: intros tx Etx; rewrite Etx in *; cbn [deref] in *; congruence.
Qed.

Lemma Execution_gas config v blockNumber blockHash bc author header cfg
    st :
  0 <= gp st ->
  wp (ApplyAlexfAATransactionExecutionPhase env config v blockNumber
        blockHash bc author header cfg) st
    (fun st' _ o =>
       forall receipt, o = Returns (Some receipt, None) ->
       (forall vpr tx, v = Some vpr -> Tx vpr = Some tx ->
                       Type_ receipt = tx_Type tx) /\
       usedGas st' = usedGas st /\ 0 <= gp st' <= gp st).
Proof.
  intros Hg. unfold ApplyAlexfAATransactionExecutionPhase.
  repeat run_step; try solve [gas_done].
  eapply wp_weaken; [apply execution_gas; exact Hg|].
  cbv beta. intros st1 ev1 o1 H receipt E.
  destruct (H _ E) as (Ht & Hu & Hg1). split; [|auto].
  intros vpr tx -> Etx. cbn [deref] in *.
  match goal with H : Returns _ = Returns _ |- _ => injection H as <- end.
  auto.
Qed.

Lemma Process_execute_gas p header cfg blockNumber blockHash verified
    receipts allLogs st :
  Forall (validated env) verified ->
  0 <= gp st ->
  wp (Process_execute env p header cfg blockNumber blockHash verified
        receipts allLogs) st
    (fun st' _ o =>
       forall rs ls, o = Returns (inl (rs, ls)) ->
       (exists new, rs = receipts ++ new /\
          Forall (fun r => Type_ r = ALEXF_AA_TX_TYPE env) new) /\
       usedGas st' = usedGas st /\ 0 <= gp st' <= gp st).
Proof.
  revert receipts allLogs st.
  induction verified as [|v rest IH]; intros receipts allLogs st Hv Hg;
    cbn [Process_execute].
  - run_step. intros rs ls E. injection E as <- <-.
    split; [exists []; rewrite app_nil_r; auto|split; [reflexivity|lia]].
  - inversion Hv as [|? ? (vpr & tx & -> & Etx & Ety) Hrest]; subst.
    run_step. eapply wp_weaken; [apply Execution_gas; exact Hg|].
    cbv beta. intros st1 ev1 [[receipt [e|]]|q] H; repeat run_step;
      try solve [gas_done].
    destruct receipt as [receipt|]; cbn [deref] in *; [|discriminate].
    match goal with H : Returns _ = Returns _ |- _ => injection H as <- end.
    destruct (H _ eq_refl) as (Ht & Hu & Hg1).
    eapply wp_weaken; [apply IH; [assumption|lia]|].
    cbv beta. intros st2 ev2 o2 H2 rs ls E.
    destruct (H2 _ _ E) as ((new & -> & Hnew) & ? & ?).
    split; [|split; [congruence|lia]].
    exists (receipt :: new). rewrite <- app_assoc. split; [reflexivity|].
    constructor; [|assumption].
    rewrite (Ht _ _ eq_refl Etx). exact Ety.
Qed.

Lemma last_default {A : Type} (l : list A) (a d d' : A) :
  last (a :: l) d = last (a :: l) d'.
Proof.
  revert a. induction l as [|b l IH]; intros a; [reflexivity|].
  cbn [last] in *. apply IH.
Qed.

Lemma climbs_nil lo : climbs lo lo [].
Proof. repeat split; try constructor. cbn. lia. Qed.

Lemma climbs_cons lo c hi cs :
  lo <= c -> climbs c hi cs -> climbs lo hi (c :: cs).
Proof.
  intros Hlo (Hs & Hf & Hl & Hle). repeat split.
  - constructor; assumption.
  - constructor; [assumption|].
    eapply Forall_impl; [|exact Hf]. cbv beta. intros; lia.
  - destruct cs as [|c' cs]; [exact Hl|].
    change (last (c :: c' :: cs) lo) with (last (c' :: cs) lo).
    rewrite (last_default cs c' lo c). exact Hl.
  - lia.
Qed.

Lemma applyTransaction_gas L msg config blockNumber blockHash tx evm st :
  L < uint64_mod ->
  within L st ->
  wp (applyTransaction env msg config blockNumber blockHash tx evm) st
    (fun st' _ o =>
       forall receipt, o = Returns (Some receipt, None) ->
       Type_ receipt = tx_Type tx /\
       CumulativeGasUsed receipt = usedGas st' /\
       usedGas st <= usedGas st' /\
       within L st').
Proof.
  intros HL (Hu & Hg & Hs). unfold applyTransaction.
  repeat run_step'; try solve [gas_done].
  all: intros receipt E; injection E as <-.
  all: gas_facts;
    cbn [gp statedb usedGas Type_ CumulativeGasUsed]; unfold within;
    cbn [gp statedb usedGas].
  all: assert (Hadd : add64 (usedGas st) (UsedGas e)
                      = usedGas st + UsedGas e)
    by (unfold add64; apply Z.mod_small; lia).
  all: rewrite Hadd; repeat split; lia.
Qed.

Lemma Process_apply_gas L p header signer vmenv blockNumber blockHash i
    txs receipts allLogs st :
  L < uint64_mod ->
  within L st ->
  wp (Process_apply env p header signer vmenv blockNumber blockHash i txs
        receipts allLogs) st
    (fun st' _ o =>
       forall rs ls, o = Returns (inl (rs, ls)) ->
       exists new,
         rs = receipts ++ new /\
         Forall (fun r => Type_ r <> ALEXF_AA_TX_TYPE env) new /\
         climbs (usedGas st) (usedGas st')
           (map (fun r => CumulativeGasUsed r) new)).
Proof.
  intros HL. revert i receipts allLogs st.
  induction txs as [|tx txs IH]; intros i receipts allLogs st Hw;
    cbn [Process_apply].
  - run_step. intros rs ls E. injection E as <- <-.
    exists []. rewrite app_nil_r.
    split; [reflexivity|]. split; [constructor|apply climbs_nil].
  - run_step; [apply IH; exact Hw|].
    apply Z.eqb_neq in Heqb.
    repeat run_step; try solve [gas_done].
    eapply wp_weaken; [apply (applyTransaction_gas L); [exact HL|exact Hw]|].
    cbv beta. intros st1 ev1 [[receipt [e|]]|q] H; repeat run_step;
      try solve [gas_done].
    destruct receipt as [receipt|]; cbn [deref] in *; [|discriminate].
    match goal with H : Returns _ = Returns _ |- _ => injection H as <- end.
    destruct (H _ eq_refl) as (Ht & Hc & Hu & Hw1).
    eapply wp_weaken; [apply IH; exact Hw1|].
    cbv beta. intros st2 ev2 o2 H2 rs ls E.
    destruct (H2 _ _ E) as (new & -> & Hnew & Hcl).
    exists (receipt :: new). rewrite <- app_assoc.
    split; [reflexivity|]. split.
    + constructor; [congruence|assumption].
    + cbn [map]. rewrite Hc.
      apply climbs_cons; [exact Hu|exact Hcl].
Qed.

Lemma ProcessBeaconBlockRoot_gas beaconRoot vmenv st :
  wp (ProcessBeaconBlockRoot env beaconRoot vmenv) st
    (fun st' _ _ => gp st' = gp st /\ usedGas st' = usedGas st).
Proof.
  unfold ProcessBeaconBlockRoot.
  repeat run_step; cbn [gp usedGas]; split; reflexivity.
Qed.

Lemma legacy_receipts_AA rs :
  Forall (fun r => Type_ r = ALEXF_AA_TX_TYPE env) rs ->
  legacy_receipts env rs = [].
Proof.
  induction 1 as [|r rs Hr _ IH]; [reflexivity|].
  unfold legacy_receipts in *. cbn [filter].
  rewrite Hr, Z.eqb_refl. exact IH.
Qed.

Lemma legacy_receipts_legacy rs :
  Forall (fun r => Type_ r <> ALEXF_AA_TX_TYPE env) rs ->
  legacy_receipts env rs = rs.
Proof.
  induction 1 as [|r rs Hr _ IH]; [reflexivity|].
  unfold legacy_receipts in *. cbn [filter].
  apply Z.eqb_neq in Hr. rewrite Hr. cbn [negb]. f_equal. exact IH.
Qed.

Lemma Process_transactions_gas L p block cfg st :
  L < uint64_mod ->
  within L st ->
  wp (Process_transactions env p block cfg) st
    (fun st' _ o =>
       forall rs ls, o = Returns (inl (rs, ls)) ->
       climbs (usedGas st) (usedGas st')
         (map (fun r => CumulativeGasUsed r) (legacy_receipts env rs))).
Proof.
  intros HL Hw. unfold Process_transactions.
  run_step.
  eapply wp_weaken with
    (Q := fun st' _ (_ : Outcome unit) =>
            gp st' = gp st /\ usedGas st' = usedGas st).
  { repeat run_step; cbn [gp usedGas]; split; reflexivity. }
  intros st0 ev0 [[]|q] [Hg0 Hu0]; cbv beta iota; [|gas_done].
  run_step.
  eapply wp_weaken with
    (Q := fun st' _ (_ : Outcome unit) =>
            gp st' = gp st0 /\ usedGas st' = usedGas st0).
  { run_step; [apply ProcessBeaconBlockRoot_gas|].
    run_step. split; reflexivity. }
  intros st1 ev1 [[]|q] [Hg1 Hu1]; cbv beta iota; [|gas_done].
  destruct Hw as (Hu & Hg & Hs).
  run_step.
  eapply wp_weaken; [apply Process_validate_gas; [constructor|lia]|].
  cbv beta. intros st2 ev2 [[verified|err]|q] H2; repeat run_step;
    try solve [gas_done].
  destruct (H2 _ eq_refl) as (Hv & Hu2 & Hg2).
  eapply wp_weaken; [apply Process_execute_gas; [exact Hv|lia]|].
  cbv beta. intros st3 ev3 [[[receipts allLogs]|err]|q] H3;
    repeat run_step; try solve [gas_done].
  destruct (H3 _ _ eq_refl) as ((aa & -> & Haa) & Hu3 & Hg3).
  eapply wp_weaken; [apply (Process_apply_gas L); [exact HL|]|].
  { unfold within. lia. }
  cbv beta. intros st4 ev4 o4 H4 rs ls E.
  destruct (H4 _ _ E) as (new & -> & Hnew & Hcl).
  unfold legacy_receipts. rewrite !filter_app.
  fold (legacy_receipts env aa). fold (legacy_receipts env new).
  rewrite (legacy_receipts_AA aa Haa), (legacy_receipts_legacy new Hnew).
  cbn [filter app].
  replace (usedGas st) with (usedGas st3) by lia. exact Hcl.
Qed.

Lemma Process_gas p block statedb cfg receipts logs gas :
  0 <= block_GasLimit block < uint64_mod ->
  outcome (Process env p block statedb cfg)
  = Returns (receipts, logs, gas, None) ->
  climbs 0 gas
    (map (fun r => CumulativeGasUsed r) (legacy_receipts env receipts)).
Proof.
  intros HL. unfold Process.
  change (wp (Process_body env p block cfg)
            {| Core.statedb := statedb; gp := block_GasLimit block;
               usedGas := 0 |}
            (fun _ _ o =>
               o = Returns (receipts, logs, gas, None) ->
               climbs 0 gas
                 (map (fun r => CumulativeGasUsed r)
                    (legacy_receipts env receipts)))).
  unfold Process_body. cbv zeta.
  run_step.
  eapply wp_weaken;
    [apply (Process_transactions_gas (block_GasLimit block)); [lia|]|].
  { unfold within. cbn [gp usedGas]. lia. }
  cbv beta. intros st1 ev1 [[[rs ls]|err]|q] H1; repeat run_step;
    try solve [gas_done].
  intros E. injection E as <- <- <-. cbn [usedGas].
  exact (H1 _ _ eq_refl).
Qed.

End Gas.

(** *** What the phases record and invoke *)

Lemma outcome_bind {A B : Type} (m : M W A) (k : A -> M W B) st :
  outcome (bind m k st)
  = match outcome (m st) with
    | Returns a => outcome (k a (final (m st)))
    | Panics q => Panics q
    end.
Proof.
  unfold bind, outcome, final.
  destruct (m st) as [[st1 ev1] [a|q]]; cbn; [|reflexivity].
  destruct (k a st1) as [[st2 ev2] o2]; reflexivity.
Qed.

(** The validation phase never fills [paymasterContext]: the variable of
    line 183 is declared and not assigned. *)
Lemma validation_context_empty aatx evm st :
  wp (applyAlexfAATransactionValidationPhase env aatx evm) st
    (fun _ _ o =>
       forall vpr e, o = Returns (Some vpr, e) -> paymasterContext vpr = []).
Proof.
  unfold applyAlexfAATransactionValidationPhase.
  repeat run_step; intros vpr e' E; try discriminate.
  all: injection E as <- <-; reflexivity.
Qed.

Lemma Validation_context_empty config bc author header tx cfg st :
  wp (ApplyAlexfAATransactionValidationPhase env config bc author header tx
        cfg) st
    (fun _ _ o =>
       forall vpr e, o = Returns (Some vpr, e) -> paymasterContext vpr = []).
Proof.
  unfold ApplyAlexfAATransactionValidationPhase.
  repeat run_step; try solve [intros; discriminate].
  wp_use validation_context_empty.
  destruct o1 as [[v [e|]]|q]; repeat run_step;
    try solve [intros; discriminate].
  intros vpr e' E. injection E as <- <-. cbn [paymasterContext].
  destruct v as [v|]; cbn [deref] in *; [|discriminate].
  match goal with H : Returns _ = Returns _ |- _ => injection H as <- end.
  eauto.
Qed.

(** With an empty context the execution phase runs no post-operation
    frame. *)
Lemma execution_without_context vpr evm blockNumber blockHash st :
  paymasterContext vpr = [] ->
  wp (applyAlexfAATransactionExecutionPhase env vpr evm blockNumber
        blockHash) st
    (fun _ evs _ => existsb (invokes PaymasterPostOpFrame) evs = false).
Proof.
  intros Hc. unfold applyAlexfAATransactionExecutionPhase.
  rewrite Hc. cbn [length Nat.eqb negb].
  repeat run_step; reflexivity.
Qed.

(** Every deployer frame carries the zero message, and one is run only
    for deployer-data with a non-zero address prefix. *)
Lemma validation_deployer_frame aatx evm st :
  wp (applyAlexfAATransactionValidationPhase env (Some aatx) evm) st
    (fun _ evs _ =>
       forall m r, In (EvApplyMessage DeployerFrame m r) evs ->
       (20 <= length (DeployerData aatx))%nat /\
       firstn 20 (DeployerData aatx) <> Address_zero /\
       m = Message_zero).
Proof.
  unfold applyAlexfAATransactionValidationPhase.
  repeat run_step; intros m' r' Hin; cbn [In app] in Hin.
  all: repeat match goal with
              | H : _ \/ _ |- _ => destruct H
              | H : False |- _ => destruct H
              | H : EvApplyMessage _ _ _ = EvApplyMessage _ _ _ |- _ =>
                  first [discriminate H | injection H as ? ?]
              | H : _ = EvApplyMessage _ _ _ |- _ => discriminate H
              end.
  all: match goal with
       | H : deref (Some _) = Returns _ |- _ =>
           cbn [deref] in H; injection H as <-
       end.
  all: unfold array20 in *.
  all: repeat match goal with
              | H : (20 <=? _)%nat = true |- _ =>
                  rewrite H in *; apply Nat.leb_le in H
              end.
  all: repeat match goal with
              | H : Returns (firstn 20 _) = Returns _ |- _ =>
                  injection H as <-
              end.
  all: split; [assumption|split; [|congruence]].
  all: unfold bytes_eqb in *.
  all: match goal with
       | H : negb (if ?d then _ else _) = true |- _ =>
           destruct d; [discriminate H|assumption]
       end.
Qed.

Lemma Returns_inj {A : Type} (a b : A) : Returns a = Returns b -> a = b.
Proof. congruence. Qed.

(** A sponsor-validation frame is run only for paymaster-data of at least
    twenty bytes; it targets the address in those bytes, with the rest as
    payload. *)
Lemma validation_paymaster_frame aatx evm st :
  wp (applyAlexfAATransactionValidationPhase env (Some aatx) evm) st
    (fun _ evs _ =>
       forall m r, In (EvApplyMessage PaymasterFrame m r) evs ->
       (20 <= length (PaymasterData aatx))%nat /\
       To m = Some (firstn 20 (PaymasterData aatx)) /\
       Data m = skipn 20 (PaymasterData aatx)).
Proof.
  unfold applyAlexfAATransactionValidationPhase.
  repeat run_step; intros m' r' Hin; cbn [In app] in Hin.
  all: repeat match goal with
              | H : _ \/ _ |- _ => destruct H
              | H : False |- _ => destruct H
              | H : EvApplyMessage _ _ _ = EvApplyMessage _ _ _ |- _ =>
                  first [discriminate H | injection H as ? ?]
              | H : _ = EvApplyMessage _ _ _ |- _ => discriminate H
              end.
  all: match goal with
       | H : deref (Some _) = Returns _ |- _ =>
           cbn [deref] in H; injection H as <-
       end.
  all: unfold array20, slice_from in *.
  all: repeat match goal with
              | H : (20 <=? _)%nat = true |- _ =>
                  rewrite H in *; apply Nat.leb_le in H
              end.
  all: repeat match goal with
              | H : Returns _ = Returns _ |- _ =>
                  apply Returns_inj in H; subst
              end.
  all: try congruence.
  all: cbn [To Data]; auto.
Qed.

(** A post-operation frame is run only on a non-empty context and
    paymaster-data of at least twenty bytes; it targets the sponsor address,
    with the context as payload. *)
Lemma execution_postop_frame vpr evm blockNumber blockHash st :
  wp (applyAlexfAATransactionExecutionPhase env vpr evm blockNumber
        blockHash) st
    (fun _ evs _ =>
       forall m r, In (EvApplyMessage PaymasterPostOpFrame m r) evs ->
       paymasterContext vpr <> [] /\
       Data m = paymasterContext vpr /\
       exists tx aatx,
         Tx vpr = Some tx /\ tx_AlexfAATransactionData tx = Some aatx /\
         (20 <= length (PaymasterData aatx))%nat /\
         To m = Some (firstn 20 (PaymasterData aatx))).
Proof.
  unfold applyAlexfAATransactionExecutionPhase.
  repeat run_step; intros m' r' Hin; cbn [In app] in Hin.
  all: repeat match goal with
              | H : _ \/ _ |- _ => destruct H
              | H : False |- _ => destruct H
              | H : EvApplyMessage _ _ _ = EvApplyMessage _ _ _ |- _ =>
                  first [discriminate H | injection H as ? ?]
              | H : _ = EvApplyMessage _ _ _ |- _ => discriminate H
              end.
  all: subst m'; cbn [To Data].
  all: destruct (paymasterContext vpr) eqn:Ec;
    [match goal with
     | H : negb (length [] =? 0)%nat = true |- _ => discriminate H
     end|].
  all: split; [discriminate|split; [reflexivity|]].
  all: repeat match goal with
              | H : deref ?o = Returns _ |- _ =>
                  destruct o eqn:?; cbn [deref] in H;
                  [apply Returns_inj in H; subst | discriminate H]
              end.
  all: do 2 eexists; split; [reflexivity|split; [eassumption|]].
  all: unfold array20 in *.
  all: match goal with
       | H : (if ?b then _ else _) = Returns _ |- _ =>
           destruct b eqn:Hlen;
           [apply Returns_inj in H; subst | discriminate H]
       end.
  all: apply Nat.leb_le in Hlen; split; [exact Hlen|reflexivity].
Qed.

(** Without the twenty bytes of a sponsor address the validation phase
    stops at line 140, before any frame. *)
Lemma validation_short_paymaster_data aatx evm st :
  (length (PaymasterData aatx) < 20)%nat ->
  exists q,
    applyAlexfAATransactionValidationPhase env (Some aatx) evm st
    = (st, [], Panics q).
Proof.
  intros Hlen.
  unfold applyAlexfAATransactionValidationPhase, bind, lift.
  cbn [deref]. destruct (Sender aatx) as [sender|]; cbn [deref].
  - unfold slice_from.
    apply Nat.leb_gt in Hlen. rewrite Hlen. eauto.
  - eauto.
Qed.

(** Whatever [Process] returns with an error, it returns with no
    receipts, no logs and zero gas. *)
Lemma Process_error_discards p block statedb cfg receipts logs gas err :
  outcome (Process env p block statedb cfg)
  = Returns (receipts, logs, gas, Some err) ->
  receipts = [] /\ logs = [] /\ gas = 0.
Proof.
  unfold Process, Process_body. cbv zeta. rewrite outcome_bind.
  destruct (outcome (Process_transactions env p block cfg _))
    as [[[rs ls]|e]|q]; [| |discriminate].
  - destruct (_ && _).
    + cbn. intros E. injection E as <- <- <- _. auto.
    + cbn. discriminate.
  - cbn. intros E. injection E as <- <- <- _. auto.
Qed.

(** The errors of the third loop carry the index and the hash of the
    transaction. *)
Lemma Process_apply_annotated p header signer vmenv blockNumber blockHash
    i txs receipts allLogs st :
  wp (Process_apply env p header signer vmenv blockNumber blockHash i txs
        receipts allLogs) st
    (fun _ _ o =>
       forall err, o = Returns (inr err) ->
       exists n tx e,
         nth_error txs n = Some tx /\
         err = Errorf_could_not_apply_tx (i + Z.of_nat n) (tx_Hash tx) e).
Proof.
  revert i receipts allLogs st.
  induction txs as [|tx txs IH]; intros; cbn [Process_apply].
  - run_step. discriminate.
  - assert (Hnext :
      forall receipts allLogs st,
        wp (Process_apply env p header signer vmenv blockNumber blockHash
              (i + 1) txs receipts allLogs) st
          (fun _ _ o =>
             forall err, o = Returns (inr err) ->
             exists n tx' e,
               nth_error (tx :: txs) n = Some tx' /\
               err = Errorf_could_not_apply_tx (i + Z.of_nat n)
                       (tx_Hash tx') e)).
    { intros. wp_use IH. intros err E.
      destruct (H _ E) as (n & tx' & e & Hn & ->).
      exists (S n), tx', e. split; [exact Hn|]. f_equal. lia. }
    run_step; [apply Hnext|].
    repeat run_step'; try solve [intros; discriminate].
    all: try (intros err E; injection E as <-;
              exists 0%nat, tx, e; split; [reflexivity|]; f_equal; lia).
    apply (wp_weaken _ _ (fun _ _ _ => True)); [exact I|].
    intros st1 ev1 [[receipt [e|]]|q] _; repeat run_step;
      try solve [intros; discriminate].
    + intros err E. injection E as <-.
      exists 0%nat, tx, e. split; [reflexivity|]. f_equal. lia.
    + apply Hnext.
Qed.

(** *** The claims on the state processor *)

(** C1.  When the sponsor-validation frame of an AA transaction runs and
    its result indicates failure, the validation phase returns the error
    "paymaster validation failed - invalid transaction"; [Process] then
    returns that same error with no receipts, no logs and zero gas, and
    its run contains no event of the execution phase: neither the line
    the phase logs on entry nor one of its two call frames. *)
Theorem sponsor_validation_failure_aborts :
  (forall config bc author header tx cfg st,
     existsb sponsor_rejected
       (events (ApplyAlexfAATransactionValidationPhase env config bc author
                  header tx cfg st)) = true ->
     outcome (ApplyAlexfAATransactionValidationPhase env config bc author
                header tx cfg st)
     = Returns (None, Some paymaster_validation_failed)) /\
  (forall p block statedb cfg,
     existsb sponsor_rejected (events (Process env p block statedb cfg))
     = true ->
     outcome (Process env p block statedb cfg)
     = Returns ([], [], 0, Some paymaster_validation_failed) /\
     existsb execution_event (events (Process env p block statedb cfg))
     = false).
Proof.
  split.
  - intros config bc author header tx cfg st.
    exact (Validation_rejected config bc author header tx cfg st).
  - intros p block statedb cfg. apply Process_rejected.
Qed.

(** C3.  On an AA transaction whose paymaster-data is empty the
    validation phase does not complete: it panics on the slice
    expression of line 140 (or on a nil sender), before any call frame
    is invoked. *)
Theorem empty_paymaster_data_panics aatx evm st :
  PaymasterData aatx = [] ->
  exists q,
    applyAlexfAATransactionValidationPhase env (Some aatx) evm st
    = (st, [], Panics q).
Proof.
  intros E. apply validation_short_paymaster_data.
  rewrite E. cbn. lia.
Qed.

(** C4.  A deployer frame is invoked by the validation phase only for
    deployer-data of at least twenty bytes with a non-zero address
    prefix, and the message it is invoked with is the zero message
    [Message{}], which has no recipient. *)
Theorem deployer_frame_is_zero_message aatx evm st m r :
  In (EvApplyMessage DeployerFrame m r)
    (events (applyAlexfAATransactionValidationPhase env (Some aatx) evm
               st)) ->
  (20 <= length (DeployerData aatx))%nat /\
  firstn 20 (DeployerData aatx) <> Address_zero /\
  m = Message_zero /\ To m = None.
Proof.
  intros Hin.
  destruct (validation_deployer_frame aatx evm st m r Hin)
    as (Hlen & Hnz & ->).
  auto.
Qed.

(** C6, amended.  For a block that carries withdrawals under rules that
    predate Shanghai, [Process] never returns successfully: whatever it
    returns is an error with no receipts, no logs and zero gas; and when
    all the transactions of the block were processed without error, the
    error is "withdrawals before shanghai". *)
Theorem withdrawals_before_shanghai_rejected p block statedb cfg :
  block_Withdrawals block <> [] ->
  IsShanghai (config p) (block_Number block) (block_Time block) = false ->
  (forall receipts logs gas err,
     outcome (Process env p block statedb cfg)
     = Returns (receipts, logs, gas, err) ->
     receipts = [] /\ logs = [] /\ gas = 0 /\ err <> None) /\
  (forall receipts logs,
     outcome (Process_transactions env p block cfg
                {| Core.statedb := statedb; gp := block_GasLimit block;
                   usedGas := 0 |})
     = Returns (inl (receipts, logs)) ->
     outcome (Process env p block statedb cfg)
     = Returns ([], [], 0,
                Some (errors_New "withdrawals before shanghai"))).
Proof.
  intros Hw Hs.
  assert (Hcond :
    (0 <? length (block_Withdrawals block))%nat &&
    negb (IsShanghai (config p) (block_Number block) (block_Time block))
    = true).
  { rewrite Hs. destruct (block_Withdrawals block); [congruence|].
    reflexivity. }
  unfold Process, Process_body. cbv zeta. rewrite outcome_bind.
  destruct (outcome (Process_transactions env p block cfg _))
    as [[[rs ls]|e]|q].
  - rewrite Hcond. cbn. split.
    + intros receipts logs gas err E. injection E as <- <- <- <-.
      repeat split. discriminate.
    + reflexivity.
  - cbn. split.
    + intros receipts logs gas err E. injection E as <- <- <- <-.
      repeat split. discriminate.
    + discriminate.
  - split; intros; discriminate.
Qed.

(** C7.  Let the invoker keep its contract on the gas pool and the
    block's gas limit fit in 64 bits.  When [Process] returns without
    error, the cumulative gas of the legacy receipts is non-decreasing in
    the order they were applied, and the cumulative gas of the last of
    them is the total gas [Process] returns. *)
Theorem legacy_cumulative_gas_monotone p block statedb cfg receipts logs
    gas :
  gas_contract env ->
  0 <= block_GasLimit block < uint64_mod ->
  outcome (Process env p block statedb cfg)
  = Returns (receipts, logs, gas, None) ->
  StronglySorted Z.le
    (map (fun r => CumulativeGasUsed r) (legacy_receipts env receipts)) /\
  (forall init r,
     legacy_receipts env receipts = init ++ [r] ->
     CumulativeGasUsed r = gas).
Proof.
  intros Hgas HL E.
  destruct (Process_gas Hgas p block statedb cfg receipts logs gas HL E)
    as (Hs & _ & Hl & _).
  split; [exact Hs|].
  intros init r Ei. rewrite Ei, map_app in Hl. cbn [map] in Hl.
  rewrite last_last in Hl. exact Hl.
Qed.

(** *** The receipts and the logs of a block *)

(** Reading a pointer or a slice that did not panic. *)
Ltac deref_inv :=
  repeat match goal with
         | H : deref ?o = Returns _ |- _ =>
             destruct o eqn:?; cbn [deref] in H;
             [apply Returns_inj in H; subst | discriminate H]
         | H : slice_from 20 ?s = Returns _ |- _ =>
             unfold slice_from in H;
             destruct (20 <=? length s)%nat eqn:?;
             [apply Returns_inj in H; subst | discriminate H]
         | H : array20 ?s = Returns _ |- _ =>
             unfold array20 in H;
             destruct (20 <=? length s)%nat eqn:?;
             [apply Returns_inj in H; subst | discriminate H]
         end.

Lemma validation_wellformed aatx evm st :
  wp (applyAlexfAATransactionValidationPhase env aatx evm) st
    (fun _ _ o =>
       forall v, o = Returns (v, None) ->
       (exists vpr, v = Some vpr /\ paymasterContext vpr = []) /\
       exists a sender,
         aatx = Some a /\ Sender a = Some sender /\
         (20 <= length (PaymasterData a))%nat).
Proof.
  unfold applyAlexfAATransactionValidationPhase.
  repeat run_step; intros v E; try discriminate.
  all: injection E as <-.
  all: (split; [eexists; split; reflexivity|]).
  all: deref_inv.
  all: do 2 eexists; split; [reflexivity|split; [eassumption|]].
  all: apply Nat.leb_le; assumption.
Qed.

Lemma Validation_validated config bc author header tx cfg st :
  wp (ApplyAlexfAATransactionValidationPhase env config bc author header tx
        cfg) st
    (fun _ _ o => forall v, o = Returns (v, None) -> validated_as v tx).
Proof.
  unfold ApplyAlexfAATransactionValidationPhase.
  repeat run_step; try solve [intros; discriminate].
  eapply wp_weaken; [apply validation_wellformed|].
  cbv beta. intros st1 ev1 [[v [e|]]|q] H; repeat run_step;
    try solve [intros; discriminate].
  intros v' E. injection E as <-.
  destruct (H _ eq_refl) as ((vpr & -> & Hc) & a' & s & Ha & Hs & Hl).
  cbn [deref] in *.
  match goal with H : Returns _ = Returns _ |- _ => injection H as <- end.
  eexists. split; [reflexivity|]. cbn [Tx paymasterContext].
  split; [reflexivity|]. split; [exact Hc|].
  exists a', s. auto.
Qed.

Lemma Process_validate_validated p header cfg txs verified st :
  wp (Process_validate env p header cfg txs verified) st
    (fun _ _ o =>
       forall vs, o = Returns (inl vs) ->
       exists new,
         vs = verified ++ new /\
         Forall2 validated_as new (AA_transactions env txs)).
Proof.
  revert verified st.
  induction txs as [|tx txs IH]; intros verified st;
    cbn [Process_validate AA_transactions filter].
  - run_step. intros vs E. injection E as <-.
    exists []. rewrite app_nil_r. split; [reflexivity|constructor].
  - unfold is_AA at 1. run_step; [|apply IH].
    run_step. eapply wp_weaken; [apply Validation_validated|].
    cbv beta. intros st1 ev1 [[v [e|]]|q] H; repeat run_step;
      try solve [intros; discriminate].
    eapply wp_weaken; [apply IH|].
    cbv beta. intros st2 ev2 o2 H2 vs E.
    destruct (H2 _ E) as (new & -> & Hnew).
    exists (v :: new). rewrite <- app_assoc. split; [reflexivity|].
    constructor; [exact (H _ eq_refl)|exact Hnew].
Qed.

Lemma validation_keeps_counter aatx evm st :
  wp (applyAlexfAATransactionValidationPhase env aatx evm) st
    (fun st' _ _ => usedGas st' = usedGas st).
Proof.
  unfold applyAlexfAATransactionValidationPhase.
  repeat run_step; reflexivity.
Qed.

Lemma Validation_keeps_counter config bc author header tx cfg st :
  wp (ApplyAlexfAATransactionValidationPhase env config bc author header tx
        cfg) st
    (fun st' _ _ => usedGas st' = usedGas st).
Proof.
  unfold ApplyAlexfAATransactionValidationPhase.
  repeat run_step; try reflexivity.
  eapply wp_weaken; [apply validation_keeps_counter|].
  cbv beta. intros st1 ev1 [[v [e|]]|q] H; repeat run_step; exact H.
Qed.

Lemma Process_validate_keeps_counter p header cfg txs verified st :
  wp (Process_validate env p header cfg txs verified) st
    (fun st' _ _ => usedGas st' = usedGas st).
Proof.
  revert verified st.
  induction txs as [|tx txs IH]; intros verified st; cbn [Process_validate].
  - run_step. reflexivity.
  - run_step; [|apply IH].
    run_step. eapply wp_weaken; [apply Validation_keeps_counter|].
    cbv beta. intros st1 ev1 [[v [e|]]|q] H; repeat run_step;
      try exact H.
    eapply wp_weaken; [apply IH|].
    cbv beta. intros st2 ev2 o2 H2. congruence.
Qed.

Lemma execution_receipt vpr evm blockNumber blockHash st :
  wp (applyAlexfAATransactionExecutionPhase env vpr evm blockNumber
        blockHash) st
    (fun st' _ o =>
       usedGas st' = usedGas st /\
       forall receipt, o = Returns (receipt, None) ->
       exists r, receipt = Some r /\
                 forall tx, Tx vpr = Some tx -> AA_receipt r tx).
Proof.
  unfold applyAlexfAATransactionExecutionPhase.
  repeat run_step; (split; [reflexivity|]); intros receipt E;
    try discriminate.
  all: injection E as <-; eexists; split; [reflexivity|].
  all: intros tx Etx; rewrite Etx in *; cbn [deref] in *.
  all: repeat match goal with
              | H : Returns _ = Returns _ |- _ =>
                  apply Returns_inj in H; subst
              end.
  all: unfold AA_receipt, bare_receipt;
    cbn [Type_ PostState Status CumulativeGasUsed Bloom TxHash
         ContractAddress GasUsed BlobGasUsed BlobGasPrice BlockHash
         BlockNumber TransactionIndex Receipt_zero].
  all: repeat split.
  all: destruct (Failed _); auto.
Qed.

Lemma Execution_receipt config v blockNumber blockHash bc author header cfg
    st :
  wp (ApplyAlexfAATransactionExecutionPhase env config v blockNumber
        blockHash bc author header cfg) st
    (fun st' _ o =>
       usedGas st' = usedGas st /\
       forall receipt, o = Returns (receipt, None) ->
       exists r, receipt = Some r /\
                 forall tx, validated_as v tx -> AA_receipt r tx).
Proof.
  unfold ApplyAlexfAATransactionExecutionPhase.
  repeat run_step;
    try solve [split; [reflexivity|intros; discriminate]].
  eapply wp_weaken; [apply execution_receipt|].
  cbv beta. intros st1 ev1 o1 (Hu & H). split; [exact Hu|].
  intros receipt E. destruct (H _ E) as (r & -> & Hr).
  exists r. split; [reflexivity|].
  intros tx' (vpr & Ev & Etx & _). apply Hr.
  deref_inv. congruence.
Qed.

Lemma Process_execute_receipts p header cfg blockNumber blockHash verified
    receipts allLogs txs st :
  Forall2 validated_as verified txs ->
  wp (Process_execute env p header cfg blockNumber blockHash verified
        receipts allLogs) st
    (fun st' _ o =>
       usedGas st' = usedGas st /\
       forall rs ls, o = Returns (inl (rs, ls)) ->
       exists new,
         rs = receipts ++ new /\
         ls = allLogs ++ concat (map (fun r => Logs r) new) /\
         Forall2 AA_receipt new txs).
Proof.
  intros Hv. revert receipts allLogs st.
  induction Hv as [|v tx rest txs Hv Hrest IH]; intros receipts allLogs st;
    cbn [Process_execute].
  - run_step. split; [reflexivity|].
    intros rs ls E. injection E as <- <-.
    exists []. cbn [map concat]. rewrite !app_nil_r. auto.
  - run_step. eapply wp_weaken; [apply Execution_receipt|].
    cbv beta. intros st1 ev1 [[receipt [e|]]|q] (Hu & H); repeat run_step;
      try solve [split; [exact Hu|intros; discriminate]].
    destruct (H _ eq_refl) as (r & -> & Hr). cbn [deref] in *.
    match goal with H : Returns _ = Returns _ |- _ => injection H as <- end.
    eapply wp_weaken; [apply IH|].
    cbv beta. intros st2 ev2 o2 (Hu2 & H2). split; [congruence|].
    intros rs ls E. destruct (H2 _ _ E) as (new & -> & -> & Hnew).
    exists (r :: new). cbn [map concat]. rewrite <- !app_assoc.
    split; [reflexivity|]. split; [reflexivity|].
    constructor; [exact (Hr _ Hv)|exact Hnew].
Qed.

Lemma applyTransaction_receipt msg config blockNumber blockHash tx evm st :
  wp (applyTransaction env msg config blockNumber blockHash tx evm) st
    (fun st' _ o =>
       forall receipt, o = Returns (receipt, None) ->
       exists r,
         receipt = Some r /\
         legacy_receipt blockNumber blockHash r tx /\
         CumulativeGasUsed r = add64 (usedGas st) (GasUsed r) /\
         usedGas st' = CumulativeGasUsed r).
Proof.
  unfold applyTransaction.
  repeat run_step'; intros receipt E; try discriminate.
  all: injection E as <-; eexists; split; [reflexivity|].
  all: unfold legacy_receipt;
    cbn [Type_ TxHash BlockHash BlockNumber Status CumulativeGasUsed
         GasUsed usedGas].
  all: repeat split.
  all: destruct (Failed _); auto.
Qed.

Lemma Process_apply_receipts p header signer vmenv blockNumber blockHash i
    txs receipts allLogs st :
  wp (Process_apply env p header signer vmenv blockNumber blockHash i txs
        receipts allLogs) st
    (fun st' _ o =>
       forall rs ls, o = Returns (inl (rs, ls)) ->
       exists new,
         rs = receipts ++ new /\
         ls = allLogs ++ concat (map (fun r => Logs r) new) /\
         Forall2 (legacy_receipt blockNumber blockHash) new
           (legacy_transactions env txs) /\
         accumulates (usedGas st) new /\
         usedGas st' = sum_gas (usedGas st) new).
Proof.
  revert i receipts allLogs st.
  induction txs as [|tx txs IH]; intros i receipts allLogs st;
    cbn [Process_apply legacy_transactions filter].
  - run_step. intros rs ls E. injection E as <- <-.
    exists []. cbn [map concat accumulates]. rewrite !app_nil_r.
    repeat split. constructor.
  - unfold is_AA at 1. run_step; cbn [negb]; [apply IH|].
    repeat run_step; try solve [intros; discriminate].
    eapply wp_weaken; [apply applyTransaction_receipt|].
    cbv beta. intros st1 ev1 [[receipt [e|]]|q] H; repeat run_step;
      try solve [intros; discriminate].
    destruct (H _ eq_refl) as (r & -> & Hr & Hc & Hu). cbn [deref] in *.
    match goal with H : Returns _ = Returns _ |- _ => injection H as <- end.
    eapply wp_weaken; [apply IH|].
    cbv beta. intros st2 ev2 o2 H2 rs ls E.
    destruct (H2 _ _ E) as (new & -> & -> & Hnew & Hacc & Hsum).
    exists (r :: new). cbn [map concat]. rewrite <- !app_assoc.
    split; [reflexivity|]. split; [reflexivity|].
    split; [constructor; assumption|].
    cbn [accumulates usedGas] in *. rewrite Hu in *.
    split; [split; assumption|].
    rewrite Hsum. unfold sum_gas. cbn [fold_left]. rewrite <- Hc.
    reflexivity.
Qed.

Lemma validated_well_formed vs txs :
  Forall2 validated_as vs txs -> Forall well_formed_AA txs.
Proof.
  induction 1 as [|v tx vs txs (vpr & _ & _ & _ & Hw) _ IH];
    constructor; assumption.
Qed.

Lemma ProcessBeaconBlockRoot_keeps_counter beaconRoot vmenv st :
  wp (ProcessBeaconBlockRoot env beaconRoot vmenv) st
    (fun st' _ _ => usedGas st' = usedGas st).
Proof.
  unfold ProcessBeaconBlockRoot.
  repeat run_step; reflexivity.
Qed.

Lemma Process_transactions_receipts p block cfg st :
  wp (Process_transactions env p block cfg) st
    (fun st' _ o =>
       forall rs ls, o = Returns (inl (rs, ls)) ->
       exists aa legacy,
         rs = aa ++ legacy /\
         ls = concat (map (fun r => Logs r) rs) /\
         Forall2 AA_receipt aa
           (AA_transactions env (block_Transactions block)) /\
         Forall2 (legacy_receipt (block_Number block) (block_Hash block))
           legacy (legacy_transactions env (block_Transactions block)) /\
         accumulates (usedGas st) legacy /\
         usedGas st' = sum_gas (usedGas st) legacy /\
         Forall well_formed_AA
           (AA_transactions env (block_Transactions block))).
Proof.
  unfold Process_transactions.
  run_step.
  eapply wp_weaken with
    (Q := fun st' _ (_ : Outcome unit) => usedGas st' = usedGas st).
  { repeat run_step; reflexivity. }
  intros st0 ev0 [[]|q] Hu0; cbv beta iota;
    [|intros; discriminate].
  run_step.
  eapply wp_weaken with
    (Q := fun st' _ (_ : Outcome unit) => usedGas st' = usedGas st0).
  { run_step; [apply ProcessBeaconBlockRoot_keeps_counter|].
    run_step. reflexivity. }
  intros st1 ev1 [[]|q] Hu1; cbv beta iota; [|intros; discriminate].
  run_step.
  eapply wp_weaken;
    [apply wp_conj;
      [apply Process_validate_validated
      |apply Process_validate_keeps_counter]|].
  cbv beta. intros st2 ev2 [[verified|err]|q] (H2 & Hu2); repeat run_step;
    try solve [intros; discriminate].
  destruct (H2 _ eq_refl) as (vs & -> & Hvs). cbn [app] in *.
  eapply wp_weaken; [apply Process_execute_receipts; exact Hvs|].
  cbv beta. intros st3 ev3 [[[receipts allLogs]|err]|q] (Hu3 & H3);
    repeat run_step; try solve [intros; discriminate].
  destruct (H3 _ _ eq_refl) as (aa & -> & -> & Haa). cbn [app] in *.
  eapply wp_weaken; [apply Process_apply_receipts|].
  cbv beta. intros st4 ev4 o4 H4 rs ls E.
  destruct (H4 _ _ E) as (legacy & -> & -> & Hl & Hacc & Hsum).
  exists aa, legacy. rewrite map_app, concat_app.
  replace (usedGas st) with (usedGas st3) by congruence.
  apply validated_well_formed in Hvs.
  auto 10.
Qed.

Lemma Process_receipts p block statedb cfg receipts logs gas :
  outcome (Process env p block statedb cfg)
  = Returns (receipts, logs, gas, None) ->
  exists aa legacy,
    receipts = aa ++ legacy /\
    logs = concat (map (fun r => Logs r) receipts) /\
    Forall2 AA_receipt aa
      (AA_transactions env (block_Transactions block)) /\
    Forall2 (legacy_receipt (block_Number block) (block_Hash block))
      legacy (legacy_transactions env (block_Transactions block)) /\
    accumulates 0 legacy /\
    gas = sum_gas 0 legacy /\
    Forall well_formed_AA (AA_transactions env (block_Transactions block)).
Proof.
  unfold Process.
  change (wp (Process_body env p block cfg)
            {| Core.statedb := statedb; gp := block_GasLimit block;
               usedGas := 0 |}
            (fun _ _ o =>
               o = Returns (receipts, logs, gas, None) ->
               exists aa legacy,
                 receipts = aa ++ legacy /\
                 logs = concat (map (fun r => Logs r) receipts) /\
                 Forall2 AA_receipt aa
                   (AA_transactions env (block_Transactions block)) /\
                 Forall2
                   (legacy_receipt (block_Number block) (block_Hash block))
                   legacy
                   (legacy_transactions env (block_Transactions block)) /\
                 accumulates 0 legacy /\
                 gas = sum_gas 0 legacy /\
                 Forall well_formed_AA
                   (AA_transactions env (block_Transactions block)))).
  unfold Process_body. cbv zeta.
  run_step.
  eapply wp_weaken; [apply Process_transactions_receipts|].
  cbv beta. intros st1 ev1 [[[rs ls]|err]|q] H1; repeat run_step;
    try solve [intros; discriminate].
  intros E. injection E as <- <- <-. cbn [usedGas] in *.
  exact (H1 _ _ eq_refl).
Qed.


Lemma legacy_transactions_type tx txs :
  In tx (legacy_transactions env txs) ->
  In tx txs /\ tx_Type tx <> ALEXF_AA_TX_TYPE env.
Proof.
  unfold legacy_transactions. rewrite filter_In. intros (Hin & Hty).
  split; [exact Hin|]. unfold is_AA in Hty.
  destruct (tx_Type tx =? ALEXF_AA_TX_TYPE env) eqn:E;
    [discriminate|apply Z.eqb_neq; exact E].
Qed.

Lemma AA_transactions_type tx txs :
  In tx (AA_transactions env txs) ->
  In tx txs /\ tx_Type tx = ALEXF_AA_TX_TYPE env.
Proof.
  unfold AA_transactions. rewrite filter_In. intros (Hin & Hty).
  split; [exact Hin|]. apply Z.eqb_eq. exact Hty.
Qed.

Lemma Forall2_In_l {A B : Type} (R : A -> B -> Prop) l l' a :
  Forall2 R l l' -> In a l -> exists b, In b l' /\ R a b.
Proof.
  induction 1 as [|x y l l' Hxy _ IH]; intros Hin; [destruct Hin|].
  destruct Hin as [<-|Hin].
  - exists y. split; [left; reflexivity|exact Hxy].
  - destruct (IH Hin) as (b & Hb & HR). exists b. split; [right|]; auto.
Qed.

Lemma AA_receipts_type aa txs :
  Forall2 (@AA_receipt Log) aa (AA_transactions env txs) ->
  Forall (fun r => Type_ r = ALEXF_AA_TX_TYPE env) aa.
Proof.
  intros H. apply Forall_forall. intros r Hin.
  destruct (Forall2_In_l _ _ _ _ H Hin) as (tx & Htx & Hty & _).
  rewrite Hty. apply (AA_transactions_type _ _ Htx).
Qed.

Lemma legacy_receipts_type n h legacy txs :
  Forall2 (@legacy_receipt Log n h) legacy (legacy_transactions env txs) ->
  Forall (fun r => Type_ r <> ALEXF_AA_TX_TYPE env) legacy.
Proof.
  intros H. apply Forall_forall. intros r Hin.
  destruct (Forall2_In_l _ _ _ _ H Hin) as (tx & Htx & Hty & _).
  rewrite Hty. apply (legacy_transactions_type _ _ Htx).
Qed.

Lemma legacy_receipts_split aa legacy :
  Forall (fun r => Type_ r = ALEXF_AA_TX_TYPE env) aa ->
  Forall (fun r => Type_ r <> ALEXF_AA_TX_TYPE env) legacy ->
  legacy_receipts env (aa ++ legacy) = legacy.
Proof.
  intros Ha Hl. unfold legacy_receipts. rewrite filter_app.
  fold (legacy_receipts env aa). fold (legacy_receipts env legacy).
  rewrite (legacy_receipts_AA aa Ha), (legacy_receipts_legacy legacy Hl).
  reflexivity.
Qed.

Lemma sum_gas_bare u aa txs :
  0 <= u < uint64_mod ->
  Forall2 (@AA_receipt Log) aa txs ->
  sum_gas u aa = u.
Proof.
  intros Hu. unfold sum_gas.
  induction 1 as [|r tx aa txs (_ & Hb & _) _ IH]; [reflexivity|].
  cbn [fold_left]. destruct Hb as (_ & _ & -> & _).
  unfold add64. rewrite Z.add_0_r, Z.mod_small by exact Hu. exact IH.
Qed.

(** X2.  In the receipts [Process] returns, the receipt of an AA
    transaction carries its type, its status and its logs and nothing
    else: its gas used and cumulative gas are zero, and its transaction
    hash, bloom filter, contract address, blob fields, block hash, block
    number and transaction index are the zero values. *)
Theorem AA_receipts_are_bare p block statedb cfg receipts logs gas r :
  outcome (Process env p block statedb cfg)
  = Returns (receipts, logs, gas, None) ->
  In r receipts ->
  Type_ r = ALEXF_AA_TX_TYPE env ->
  bare_receipt r /\
  (Status r = ReceiptStatusFailed \/ Status r = ReceiptStatusSuccessful).
Proof.
  intros E Hin Hty.
  destruct (Process_receipts _ _ _ _ _ _ _ E)
    as (aa & legacy & -> & _ & Haa & Hl & _).
  apply in_app_or in Hin. destruct Hin as [Hin|Hin].
  - destruct (Forall2_In_l _ _ _ _ Haa Hin) as (tx & _ & _ & Hb & Hs).
    auto.
  - apply legacy_receipts_type in Hl.
    rewrite Forall_forall in Hl. destruct (Hl _ Hin Hty).
Qed.

(** X3.  The receipts of the other transactions are, in block order, one
    for each of them: each carries the hash and the type of its
    transaction, the hash and the number of the block, and a status that
    is failed or successful. *)
Theorem legacy_receipts_name_their_transactions p block statedb cfg
    receipts logs gas :
  outcome (Process env p block statedb cfg)
  = Returns (receipts, logs, gas, None) ->
  Forall2 (legacy_receipt (block_Number block) (block_Hash block))
    (legacy_receipts env receipts)
    (legacy_transactions env (block_Transactions block)).
Proof.
  intros E.
  destruct (Process_receipts _ _ _ _ _ _ _ E)
    as (aa & legacy & -> & _ & Haa & Hl & _).
  rewrite legacy_receipts_split; [exact Hl| |].
  - eapply AA_receipts_type; exact Haa.
  - eapply legacy_receipts_type; exact Hl.
Qed.

(** X4.  The logs [Process] returns are the logs of the receipts it
    returns, in the order of the receipts. *)
Theorem logs_are_the_receipts_logs p block statedb cfg receipts logs gas :
  outcome (Process env p block statedb cfg)
  = Returns (receipts, logs, gas, None) ->
  logs = concat (map (fun r => Logs r) receipts).
Proof.
  intros E.
  destruct (Process_receipts _ _ _ _ _ _ _ E)
    as (aa & legacy & _ & Hlogs & _).
  exact Hlogs.
Qed.

(** X5.  The gas [Process] returns is the sum, on [uint64], of the gas
    used of the receipts it returns, to which the AA receipts contribute
    nothing; and the cumulative gas of each of the other receipts is that
    of the one before it (zero for the first) plus its own gas used, on
    [uint64]. *)
Theorem gas_is_the_sum_of_the_receipts p block statedb cfg receipts logs
    gas :
  outcome (Process env p block statedb cfg)
  = Returns (receipts, logs, gas, None) ->
  gas = sum_gas 0 receipts /\
  gas = sum_gas 0 (legacy_receipts env receipts) /\
  accumulates 0 (legacy_receipts env receipts).
Proof.
  intros E.
  destruct (Process_receipts _ _ _ _ _ _ _ E)
    as (aa & legacy & -> & _ & Haa & Hl & Hacc & -> & _).
  rewrite legacy_receipts_split;
    [| eapply AA_receipts_type; exact Haa
     | eapply legacy_receipts_type; exact Hl].
  split; [|split; [reflexivity|exact Hacc]].
  unfold sum_gas at 2. rewrite fold_left_app.
  fold (sum_gas 0 aa).
  rewrite (sum_gas_bare 0 aa _ ltac:(unfold uint64_mod; lia) Haa).
  reflexivity.
Qed.

(** X6.  [Process] returns without error only when every AA transaction
    of the block carries its AA data, names a sender in it, and has at
    least twenty bytes of paymaster-data: on any other AA transaction the
    validation phase dereferences nil or slices out of bounds. *)
Theorem success_needs_well_formed_AA p block statedb cfg receipts logs gas
    tx :
  outcome (Process env p block statedb cfg)
  = Returns (receipts, logs, gas, None) ->
  In tx (block_Transactions block) ->
  tx_Type tx = ALEXF_AA_TX_TYPE env ->
  well_formed_AA tx.
Proof.
  intros E Hin Hty.
  destruct (Process_receipts _ _ _ _ _ _ _ E)
    as (aa & legacy & _ & _ & _ & _ & _ & _ & Hwf).
  rewrite Forall_forall in Hwf. apply Hwf.
  unfold AA_transactions. apply filter_In. split; [exact Hin|].
  unfold is_AA. apply Z.eqb_eq. exact Hty.
Qed.

(** *** The gas of a block under the invoker's contract *)

Section Budget.

Hypothesis Hgas : gas_contract env.

Lemma applyTransaction_budget L msg config blockNumber blockHash tx evm st :
  L < uint64_mod ->
  within L st ->
  wp (applyTransaction env msg config blockNumber blockHash tx evm) st
    (fun st' _ o =>
       forall receipt, o = Returns (receipt, None) ->
       exists r,
         receipt = Some r /\ 0 <= GasUsed r /\
         usedGas st' = usedGas st + GasUsed r /\ within L st').
Proof.
  intros HL (Hu & Hg & Hs). unfold applyTransaction.
  repeat run_step'; intros receipt E; try discriminate.
  all: injection E as <-; eexists; split; [reflexivity|].
  all: cbn [gp statedb usedGas GasUsed] in *.
  all: match goal with
       | H : invoke env ?evm ?m ?w ?g = (?w', ?g', inl ?r) |- _ =>
           destruct (Hgas evm m w g w' g' r H Hg) as (? & ? & ?)
       end.
  all: unfold within; cbn [gp statedb usedGas].
  all: assert (Hadd : add64 (usedGas st) (UsedGas e)
                      = usedGas st + UsedGas e)
    by (unfold add64; apply Z.mod_small; lia).
  all: rewrite Hadd; repeat split; lia.
Qed.

Lemma Process_apply_budget L p header signer vmenv blockNumber blockHash i
    txs receipts allLogs st :
  L < uint64_mod ->
  within L st ->
  wp (Process_apply env p header signer vmenv blockNumber blockHash i txs
        receipts allLogs) st
    (fun st' _ o =>
       forall rs ls, o = Returns (inl (rs, ls)) ->
       exists new,
         rs = receipts ++ new /\
         Forall (fun r => 0 <= GasUsed r) new /\
         usedGas st' = usedGas st + total_gas_used new /\
         within L st').
Proof.
  intros HL. revert i receipts allLogs st.
  induction txs as [|tx txs IH]; intros i receipts allLogs st Hw;
    cbn [Process_apply].
  - run_step. intros rs ls E. injection E as <- <-.
    exists []. rewrite app_nil_r. unfold total_gas_used. cbn [map fold_right].
    split; [reflexivity|]. split; [constructor|]. split; [lia|exact Hw].
  - run_step; [apply IH; exact Hw|].
    repeat run_step; try solve [intros; discriminate].
    eapply wp_weaken;
      [apply (applyTransaction_budget L); [exact HL|exact Hw]|].
    cbv beta. intros st1 ev1 [[receipt [e|]]|q] H; repeat run_step;
      try solve [intros; discriminate].
    destruct (H _ eq_refl) as (r & -> & Hr & Hu & Hw1). cbn [deref] in *.
    match goal with H : Returns _ = Returns _ |- _ => injection H as <- end.
    eapply wp_weaken; [apply IH; exact Hw1|].
    cbv beta. intros st2 ev2 o2 H2 rs ls E.
    destruct (H2 _ _ E) as (new & -> & Hnew & Hsum & Hw2).
    exists (r :: new). rewrite <- app_assoc.
    split; [reflexivity|]. split; [constructor; assumption|].
    split; [|exact Hw2].
    unfold total_gas_used in *. cbn [map fold_right usedGas] in *. lia.
Qed.

Lemma total_gas_used_bare aa txs :
  Forall2 (@AA_receipt Log) aa txs ->
  total_gas_used aa = 0 /\ Forall (fun r => 0 <= GasUsed r) aa.
Proof.
  unfold total_gas_used.
  induction 1 as [|r tx aa txs (_ & Hb & _) _ (IH & IH')];
    [split; [reflexivity|constructor]|].
  destruct Hb as (_ & _ & Hg & _). cbn [map fold_right].
  split; [lia|constructor; [lia|exact IH']].
Qed.

Lemma Process_transactions_budget L p block cfg st :
  L < uint64_mod ->
  within L st ->
  wp (Process_transactions env p block cfg) st
    (fun st' _ o =>
       forall rs ls, o = Returns (inl (rs, ls)) ->
       Forall (fun r => 0 <= GasUsed r) rs /\
       usedGas st' = usedGas st + total_gas_used rs /\
       within L st').
Proof.
  intros HL Hw. unfold Process_transactions.
  run_step.
  eapply wp_weaken with
    (Q := fun st' _ (_ : Outcome unit) =>
            gp st' = gp st /\ usedGas st' = usedGas st).
  { repeat run_step; cbn [gp usedGas]; split; reflexivity. }
  intros st0 ev0 [[]|q] [Hg0 Hu0]; cbv beta iota; [|intros; discriminate].
  run_step.
  eapply wp_weaken with
    (Q := fun st' _ (_ : Outcome unit) =>
            gp st' = gp st0 /\ usedGas st' = usedGas st0).
  { run_step; [apply ProcessBeaconBlockRoot_gas|].
    run_step. split; reflexivity. }
  intros st1 ev1 [[]|q] [Hg1 Hu1]; cbv beta iota; [|intros; discriminate].
  destruct Hw as (Hu & Hg & Hs).
  run_step.
  eapply wp_weaken;
    [apply wp_conj;
      [apply (Process_validate_gas Hgas); [constructor|lia]
      |apply Process_validate_validated]|].
  cbv beta. intros st2 ev2 [[verified|err]|q] (H2 & H2'); repeat run_step;
    try solve [intros; discriminate].
  destruct (H2 _ eq_refl) as (Hv & Hu2 & Hg2).
  destruct (H2' _ eq_refl) as (vs & -> & Hvs). cbn [app] in *.
  eapply wp_weaken;
    [apply wp_conj;
      [apply (Process_execute_gas Hgas); [exact Hv|lia]
      |apply Process_execute_receipts; exact Hvs]|].
  cbv beta. intros st3 ev3 [[[receipts allLogs]|err]|q] (H3 & _ & H3');
    repeat run_step; try solve [intros; discriminate].
  destruct (H3 _ _ eq_refl) as (_ & Hu3 & Hg3).
  destruct (H3' _ _ eq_refl) as (aa & -> & _ & Haa). cbn [app] in *.
  apply total_gas_used_bare in Haa. destruct Haa as (Haa0 & Haa).
  eapply wp_weaken; [apply (Process_apply_budget L); [exact HL|]|].
  { unfold within. lia. }
  cbv beta. intros st4 ev4 o4 H4 rs ls E.
  destruct (H4 _ _ E) as (new & -> & Hnew & Hsum & Hw4).
  split; [apply Forall_app; split; assumption|].
  split; [|exact Hw4].
  unfold total_gas_used in *. rewrite map_app, fold_right_app.
  assert (Hfold : forall (l : list Z) a,
            fold_right Z.add a l = fold_right Z.add 0 l + a).
  { induction l as [|x l IHl]; intros a; cbn [fold_right]; [lia|].
    rewrite IHl. lia. }
  rewrite Hfold. lia.
Qed.

Lemma Process_budget p block statedb cfg receipts logs gas :
  0 <= block_GasLimit block < uint64_mod ->
  outcome (Process env p block statedb cfg)
  = Returns (receipts, logs, gas, None) ->
  0 <= gas <= block_GasLimit block /\
  gas = total_gas_used receipts /\
  Forall (fun r => 0 <= GasUsed r) receipts.
Proof.
  intros HL. unfold Process.
  change (wp (Process_body env p block cfg)
            {| Core.statedb := statedb; gp := block_GasLimit block;
               usedGas := 0 |}
            (fun _ _ o =>
               o = Returns (receipts, logs, gas, None) ->
               0 <= gas <= block_GasLimit block /\
               gas = total_gas_used receipts /\
               Forall (fun r => 0 <= GasUsed r) receipts)).
  unfold Process_body. cbv zeta.
  run_step.
  eapply wp_weaken;
    [apply (Process_transactions_budget (block_GasLimit block)); [lia|]|].
  { unfold within. cbn [gp usedGas]. lia. }
  cbv beta. intros st1 ev1 [[[rs ls]|err]|q] H1; repeat run_step;
    try solve [intros; discriminate].
  intros E. injection E as <- <- <-. cbn [usedGas] in *.
  destruct (H1 _ _ eq_refl) as (Hnn & Hsum & Hu & Hg & Hs).
  split; [lia|]. split; [lia|exact Hnn].
Qed.

End Budget.

(** X7.  Let the invoker keep its contract on the gas pool and the
    block's gas limit fit in 64 bits.  Then the gas [Process] returns
    without error is at most the block's gas limit, the counter never
    wraps (the gas is the sum of the gas used of the receipts on the
    integers), and no receipt has a negative gas used. *)
Theorem gas_stays_within_the_block_limit p block statedb cfg receipts logs
    gas :
  gas_contract env ->
  0 <= block_GasLimit block < uint64_mod ->
  outcome (Process env p block statedb cfg)
  = Returns (receipts, logs, gas, None) ->
  0 <= gas <= block_GasLimit block /\
  gas = total_gas_used receipts /\
  Forall (fun r => 0 <= GasUsed r) receipts.
Proof.
  intros Hgas HL E. exact (Process_budget Hgas _ _ _ _ _ _ _ HL E).
Qed.

(** *** The frames of a block *)

Lemma messages_app frame evs evs' :
  messages frame (evs ++ evs') = messages frame evs ++ messages frame evs'.
Proof.
  induction evs as [|e evs IH]; [reflexivity|].
  cbn [app messages]. destruct e; try exact IH.
  destruct (Frame_eqb frame0 frame); [cbn [app]; f_equal|]; exact IH.
Qed.

Lemma messages_none (P : Event -> bool) frame evs :
  (forall e, P e = true -> invokes frame e = false) ->
  forallb P evs = true -> messages frame evs = [].
Proof.
  intros HP. induction evs as [|e evs IH]; [reflexivity|].
  cbn [forallb]. intros H. apply andb_true_iff in H. destruct H as (He & H).
  specialize (HP _ He). cbn [messages]. destruct e; try exact (IH H).
  cbn [invokes] in HP. rewrite HP. exact (IH H).
Qed.

Lemma validation_trace_app txs txs' evs evs' :
  validation_trace txs evs -> validation_trace txs' evs' ->
  validation_trace (txs ++ txs') (evs ++ evs').
Proof.
  unfold validation_trace. intros (H1 & H2 & H3) (H1' & H2' & H3').
  rewrite !messages_app, !map_app. repeat split; congruence.
Qed.

Lemma execution_trace_app txs txs' evs evs' :
  execution_trace txs evs -> execution_trace txs' evs' ->
  execution_trace (txs ++ txs') (evs ++ evs').
Proof.
  unfold execution_trace. intros H H'.
  rewrite !messages_app, !map_app. congruence.
Qed.

Lemma validation_frames aatx evm st :
  wp (applyAlexfAATransactionValidationPhase env aatx evm) st
    (fun _ evs o =>
       forallb in_validation evs = true /\
       forall v a,
         o = Returns (v, None) -> aatx = Some a ->
         map To (messages NonceManagerFrame evs) = [Some Address_zero] /\
         map To (messages AccountValidationFrame evs) = [Sender a] /\
         map To (messages PaymasterFrame evs)
         = [Some (firstn 20 (PaymasterData a))]).
Proof.
  unfold applyAlexfAATransactionValidationPhase.
  repeat run_step; (split; [reflexivity|]); intros v a' E Ea;
    try discriminate.
  all: subst aatx; cbn [deref] in *.
  all: repeat match goal with
              | H : Returns _ = Returns _ |- _ =>
                  apply Returns_inj in H; subst
              end.
  all: deref_inv; try congruence.
  all: cbn [app messages Frame_eqb map To]; auto.
Qed.

Lemma Validation_frames config bc author header tx cfg st :
  wp (ApplyAlexfAATransactionValidationPhase env config bc author header tx
        cfg) st
    (fun _ evs o =>
       forallb in_validation evs = true /\
       forall v, o = Returns (v, None) -> validation_trace [tx] evs).
Proof.
  unfold ApplyAlexfAATransactionValidationPhase.
  repeat run_step;
    try solve [split; [reflexivity|intros; discriminate]].
  eapply wp_weaken;
    [apply wp_conj; [apply validation_frames|apply validation_wellformed]|].
  cbv beta. intros st1 ev1 [[v [e|]]|q] ((Hin & H) & Hw); repeat run_step;
    (split; [rewrite ?forallb_app, ?Hin; reflexivity|]); intros v' E;
    try discriminate.
  destruct (Hw _ eq_refl) as (_ & a' & s & Ha & Hs & Hl).
  destruct (H _ _ eq_refl Ha) as (H1 & H2 & H3).
  unfold validation_trace, sender_of, sponsor_of.
  cbn [app messages map]. rewrite Ha, !app_nil_r. auto.
Qed.

Lemma Process_validate_frames p header cfg txs verified st :
  wp (Process_validate env p header cfg txs verified) st
    (fun _ evs o =>
       forallb in_validation evs = true /\
       (AA_transactions env txs = [] -> evs = []) /\
       forall vs, o = Returns (inl vs) ->
                  validation_trace (AA_transactions env txs) evs).
Proof.
  revert verified st.
  induction txs as [|tx txs IH]; intros verified st;
    cbn [Process_validate AA_transactions filter].
  - run_step. repeat split; reflexivity.
  - change (is_AA env tx) with (tx_Type tx =? ALEXF_AA_TX_TYPE env).
    run_step; [|apply IH].
    run_step. eapply wp_weaken; [apply Validation_frames|].
    cbv beta. intros st1 ev1 [[v [e|]]|q] (Hin & H); repeat run_step;
      try solve [rewrite ?app_nil_r;
                 split; [exact Hin|split; intros; discriminate]].
    all: try solve [split; [exact Hin|split; intros; discriminate]].
    eapply wp_weaken; [apply IH|].
    cbv beta. intros st2 ev2 o2 (Hin2 & _ & H2).
    rewrite forallb_app, Hin, Hin2.
    split; [reflexivity|]. split; [discriminate|].
    intros vs E.
    apply (validation_trace_app [tx] _ ev1 ev2);
      [exact (H _ eq_refl)|exact (H2 _ E)].
Qed.

Lemma execution_frames vpr evm blockNumber blockHash st :
  paymasterContext vpr = [] ->
  wp (applyAlexfAATransactionExecutionPhase env vpr evm blockNumber
        blockHash) st
    (fun _ evs o =>
       forallb in_execution evs = true /\
       forall receipt tx,
         o = Returns (receipt, None) -> Tx vpr = Some tx ->
         map To (messages AccountExecutionFrame evs) = [sender_of tx]).
Proof.
  intros Hc. unfold applyAlexfAATransactionExecutionPhase.
  rewrite Hc. cbn [length Nat.eqb negb].
  repeat run_step; (split; [reflexivity|]); intros receipt tx E Etx;
    try discriminate.
  rewrite Etx in *. cbn [deref] in *.
  repeat match goal with
         | H : Returns _ = Returns _ |- _ => apply Returns_inj in H; subst
         end.
  unfold sender_of.
  match goal with
  | H : deref (tx_AlexfAATransactionData ?t) = Returns _ |- _ =>
      destruct (tx_AlexfAATransactionData t); cbn [deref] in H;
      [apply Returns_inj in H; subst | discriminate H]
  end.
  reflexivity.
Qed.

Lemma Execution_frames config v tx blockNumber blockHash bc author header
    cfg st :
  validated_as v tx ->
  wp (ApplyAlexfAATransactionExecutionPhase env config v blockNumber
        blockHash bc author header cfg) st
    (fun _ evs o =>
       forallb in_execution evs = true /\
       forall receipt, o = Returns (receipt, None) ->
                       execution_trace [tx] evs).
Proof.
  intros (vpr & -> & Etx & Hc & _).
  unfold ApplyAlexfAATransactionExecutionPhase.
  repeat run_step;
    try solve [split; [reflexivity|intros; discriminate]].
  cbn [deref] in *.
  match goal with
  | H : Returns vpr = Returns _ |- _ => apply Returns_inj in H; subst
  end.
  rewrite Etx in *. cbn [deref] in *.
  match goal with
  | H : Returns tx = Returns _ |- _ => apply Returns_inj in H; subst
  end.
  eapply wp_weaken; [apply execution_frames; exact Hc|].
  cbv beta. intros st1 ev1 o1 (Hin & H).
  split; [rewrite ?forallb_app, ?Hin; reflexivity|].
  intros receipt E. unfold execution_trace. cbn [app messages map].
  exact (H _ _ E Etx).
Qed.

Lemma Process_execute_frames p header cfg blockNumber blockHash verified
    receipts allLogs txs st :
  Forall2 validated_as verified txs ->
  wp (Process_execute env p header cfg blockNumber blockHash verified
        receipts allLogs) st
    (fun _ evs o =>
       forallb in_execution evs = true /\
       (txs = [] -> evs = []) /\
       forall rs ls, o = Returns (inl (rs, ls)) -> execution_trace txs evs).
Proof.
  intros Hv. revert receipts allLogs st.
  induction Hv as [|v tx rest txs Hv Hrest IH]; intros receipts allLogs st;
    cbn [Process_execute].
  - run_step. repeat split; reflexivity.
  - run_step. eapply wp_weaken; [apply Execution_frames; exact Hv|].
    cbv beta. intros st1 ev1 [[receipt [e|]]|q] (Hin & H); repeat run_step;
      try solve [rewrite ?app_nil_r;
                 split; [exact Hin|split; intros; discriminate]].
    all: try solve [split; [exact Hin|split; intros; discriminate]].
    eapply wp_weaken; [apply IH|].
    cbv beta. intros st2 ev2 o2 (Hin2 & _ & H2).
    rewrite ?forallb_app, ?app_nil_l, Hin, Hin2.
    split; [reflexivity|]. split; [discriminate|].
    intros rs ls E.
    apply (execution_trace_app [tx] _ ev1 ev2);
      [exact (H _ eq_refl)|exact (H2 _ _ E)].
Qed.

Lemma applyTransaction_frames msg config blockNumber blockHash tx evm st :
  wp (applyTransaction env msg config blockNumber blockHash tx evm) st
    (fun _ evs o =>
       forallb (invokes TransactionFrame) evs = true /\
       forall receipt,
         o = Returns (receipt, None) ->
         map Some (messages TransactionFrame evs) = [msg]).
Proof.
  unfold applyTransaction.
  repeat run_step'; (split; [reflexivity|]); intros receipt E;
    try discriminate.
  all: deref_inv; reflexivity.
Qed.

Lemma legacy_trace_app signer baseFee txs txs' evs evs' :
  legacy_trace env signer baseFee txs evs ->
  legacy_trace env signer baseFee txs' evs' ->
  legacy_trace env signer baseFee (txs ++ txs') (evs ++ evs').
Proof.
  unfold legacy_trace. intros H H'.
  rewrite !messages_app, !map_app. congruence.
Qed.

Lemma Process_apply_frames p header signer vmenv blockNumber blockHash i
    txs receipts allLogs st :
  wp (Process_apply env p header signer vmenv blockNumber blockHash i txs
        receipts allLogs) st
    (fun _ evs o =>
       forallb (invokes TransactionFrame) evs = true /\
       forall rs ls,
         o = Returns (inl (rs, ls)) ->
         legacy_trace env signer (BaseFee header)
           (legacy_transactions env txs) evs).
Proof.
  revert i receipts allLogs st.
  induction txs as [|tx txs IH]; intros i receipts allLogs st;
    cbn [Process_apply legacy_transactions filter].
  - run_step. split; reflexivity.
  - change (is_AA env tx) with (tx_Type tx =? ALEXF_AA_TX_TYPE env).
    run_step; cbn [negb]; [apply IH|].
    repeat run_step;
      try solve [split; [reflexivity|intros; discriminate]].
    eapply wp_weaken; [apply applyTransaction_frames|].
    cbv beta. intros st1 ev1 [[receipt [e|]]|q] (Hin & H); repeat run_step;
      try solve [rewrite ?app_nil_r, ?app_nil_l;
                 split; [exact Hin|intros; discriminate]].
    eapply wp_weaken; [apply IH|].
    cbv beta. intros st2 ev2 o2 (Hin2 & H2).
    rewrite ?forallb_app, ?app_nil_l, Hin, Hin2.
    split; [reflexivity|].
    intros rs ls E.
    apply (legacy_trace_app signer (BaseFee header) [tx] _ ev1 ev2);
      [|exact (H2 _ _ E)].
    unfold legacy_trace. cbn [map].
    match goal with
    | H : TransactionToMessage env tx signer (BaseFee header) = _ |- _ =>
        rewrite H
    end.
    exact (H _ eq_refl).
Qed.

Lemma ProcessBeaconBlockRoot_frames beaconRoot vmenv st :
  wp (ProcessBeaconBlockRoot env beaconRoot vmenv) st
    (fun _ evs _ =>
       evs = [] \/
       evs = [EvCall (SystemAddress env) (BeaconRootsStorageAddress env)
                beaconRoot 30000000]).
Proof.
  unfold ProcessBeaconBlockRoot.
  repeat run_step; cbn [deref To From Data] in *; try discriminate;
    auto.
  match goal with
  | H : Returns _ = Returns _ |- _ => apply Returns_inj in H; subst
  end.
  right. reflexivity.
Qed.

Lemma Process_transactions_frames p block cfg st :
  wp (Process_transactions env p block cfg) st
    (fun _ evs o =>
       exists setup val exe leg,
         evs = setup ++ val ++ exe ++ leg /\
         setup_trace env block setup /\
         forallb in_validation val = true /\
         forallb in_execution exe = true /\
         forallb (invokes TransactionFrame) leg = true /\
         (AA_transactions env (block_Transactions block) = [] ->
          val = [] /\ exe = []) /\
         forall rs ls,
           o = Returns (inl (rs, ls)) ->
           validation_trace
             (AA_transactions env (block_Transactions block)) val /\
           execution_trace
             (AA_transactions env (block_Transactions block)) exe /\
           legacy_trace env
             (MakeSigner (config p) (block_Number block) (block_Time block))
             (BaseFee (block_Header block))
             (legacy_transactions env (block_Transactions block)) leg).
Proof.
  unfold Process_transactions.
  run_step.
  eapply wp_weaken with
    (Q := fun _ evs (_ : Outcome unit) => evs = []).
  { repeat run_step; reflexivity. }
  intros st0 ev0 [[]|q] ->; cbv beta iota.
  2: { exists [], [], [], []. cbn [app forallb].
       repeat split; try reflexivity; try discriminate. left. reflexivity. }
  run_step.
  eapply wp_weaken with
    (Q := fun _ evs (_ : Outcome unit) => setup_trace env block evs).
  { run_step.
    - eapply wp_weaken; [apply ProcessBeaconBlockRoot_frames|].
      cbv beta. intros st1 ev1 o1 [->| ->]; [left; reflexivity|].
      right. eexists. split; [eassumption|reflexivity].
    - run_step. left. reflexivity. }
  intros st1 ev1 [[]|q] Hsetup; cbv beta iota.
  2: { exists ev1, [], [], []. rewrite !app_nil_r. cbn [app forallb].
       repeat split; try reflexivity; try discriminate. exact Hsetup. }
  run_step.
  eapply wp_weaken;
    [apply wp_conj;
      [apply Process_validate_frames
      |apply Process_validate_validated]|].
  cbv beta.
  intros st2 ev2 [[verified|err]|q] ((Hin2 & Hno2 & H2) & Hv2);
    repeat run_step.
  2,3: exists ev1, ev2, [], []; rewrite !app_nil_r; cbn [app forallb];
    repeat split; try reflexivity; try discriminate; try assumption;
    apply Hno2; assumption.
  destruct (Hv2 _ eq_refl) as (vs & -> & Hvs). cbn [app] in *.
  eapply wp_weaken; [apply Process_execute_frames; exact Hvs|].
  cbv beta.
  intros st3 ev3 [[[receipts allLogs]|err]|q] (Hin3 & Hno3 & H3);
    repeat run_step.
  2,3: exists ev1, ev2, ev3, []; rewrite !app_nil_r; cbn [app forallb];
    repeat split; try reflexivity; try discriminate; try assumption;
    first [apply Hno2; assumption | apply Hno3; assumption].
  eapply wp_weaken; [apply Process_apply_frames|].
  cbv beta. intros st4 ev4 o4 (Hin4 & H4).
  exists ev1, ev2, ev3, ev4. cbn [app].
  split; [reflexivity|]. split; [exact Hsetup|].
  split; [exact Hin2|]. split; [exact Hin3|]. split; [exact Hin4|].
  split; [intros HAA; split; [apply (Hno2 HAA)|apply (Hno3 HAA)]|].
  intros rs ls E.
  split; [exact (H2 _ eq_refl)|]. split; [exact (H3 _ _ eq_refl)|].
  exact (H4 _ _ E).
Qed.

Lemma Process_frames p block statedb cfg :
  exists setup val exe leg,
    events (Process env p block statedb cfg) = setup ++ val ++ exe ++ leg /\
    setup_trace env block setup /\
    forallb in_validation val = true /\
    forallb in_execution exe = true /\
    forallb (invokes TransactionFrame) leg = true /\
    (AA_transactions env (block_Transactions block) = [] ->
     val = [] /\ exe = []) /\
    forall receipts logs gas,
      outcome (Process env p block statedb cfg)
      = Returns (receipts, logs, gas, None) ->
      validation_trace
        (AA_transactions env (block_Transactions block)) val /\
      execution_trace
        (AA_transactions env (block_Transactions block)) exe /\
      legacy_trace env
        (MakeSigner (config p) (block_Number block) (block_Time block))
        (BaseFee (block_Header block))
        (legacy_transactions env (block_Transactions block)) leg.
Proof.
  unfold Process.
  change (wp (Process_body env p block cfg)
            {| Core.statedb := statedb; gp := block_GasLimit block;
               usedGas := 0 |}
            (fun _ evs o =>
               exists setup val exe leg,
                 evs = setup ++ val ++ exe ++ leg /\
                 setup_trace env block setup /\
                 forallb in_validation val = true /\
                 forallb in_execution exe = true /\
                 forallb (invokes TransactionFrame) leg = true /\
                 (AA_transactions env (block_Transactions block) = [] ->
                  val = [] /\ exe = []) /\
                 forall receipts logs gas,
                   o = Returns (receipts, logs, gas, None) ->
                   validation_trace
                     (AA_transactions env (block_Transactions block)) val /\
                   execution_trace
                     (AA_transactions env (block_Transactions block)) exe /\
                   legacy_trace env
                     (MakeSigner (config p) (block_Number block)
                        (block_Time block))
                     (BaseFee (block_Header block))
                     (legacy_transactions env (block_Transactions block))
                     leg)).
  unfold Process_body. cbv zeta.
  run_step.
  eapply wp_weaken; [apply Process_transactions_frames|].
  cbv beta.
  intros st1 ev1 [[[rs ls]|err]|q]
    (setup & val & exe & leg & -> & Hs & Hv & He & Hl & Hno & H);
    repeat run_step; rewrite ?app_nil_r.
  all: exists setup, val, exe, leg.
  all: repeat (split; [first [reflexivity | assumption]|]).
  all: intros receipts logs gas E; try discriminate.
  exact (H _ _ eq_refl).
Qed.

Lemma is_synthetic_spec m : is_synthetic m = true -> synthetic_message m.
Proof.
  unfold is_synthetic, synthetic_message.
  destruct (Value m) as [v|]; [|discriminate].
  destruct (GasPrice m) as [gp|]; [|rewrite andb_false_r; discriminate].
  destruct (GasFeeCap m) as [fc|]; [|rewrite andb_false_r; discriminate].
  destruct (GasTipCap m) as [tc|]; [|rewrite andb_false_r; discriminate].
  intros H. repeat (apply andb_true_iff in H; destruct H as (H & ?)).
  repeat match goal with
         | H : (_ =? _) = true |- _ => apply Z.eqb_eq in H; subst
         end.
  repeat split; assumption.
Qed.

Lemma setup_trace_messages block frame evs :
  setup_trace env block evs ->
  messages frame evs = [] /\ forallb system_call evs = true.
Proof.
  intros [->|(root & _ & ->)]; split; reflexivity.
Qed.

Lemma in_validation_frames frame e :
  in_validation e = true ->
  frame = AccountExecutionFrame \/ frame = PaymasterPostOpFrame \/
  frame = TransactionFrame ->
  invokes frame e = false.
Proof.
  destruct e as [[] m r| | | |]; cbn [in_validation invokes];
    intros H [->|[->| ->]]; try reflexivity; discriminate.
Qed.

Lemma in_execution_frames frame e :
  in_execution e = true ->
  frame <> AccountExecutionFrame ->
  invokes frame e = false.
Proof.
  destruct e as [[] m r| | | |]; cbn [in_execution invokes];
    intros H Hf; try reflexivity; try discriminate.
  destruct frame; try reflexivity. destruct Hf. reflexivity.
Qed.

Lemma in_legacy_frames frame e :
  invokes TransactionFrame e = true ->
  frame <> TransactionFrame ->
  invokes frame e = false.
Proof.
  destruct e as [[] m r| | | |]; cbn [invokes Frame_eqb];
    intros H Hf; try reflexivity; try discriminate.
  destruct frame; try reflexivity. destruct Hf. reflexivity.
Qed.

(** X8.  Whatever its outcome, a run of [Process] goes through its phases
    in order: the system call, then the validation of AA transactions (its
    frames, log lines and prints), then their execution (the account's
    frame and the log lines), then the frames of the other transactions.
    No validation frame follows an execution frame, and no frame of an AA
    transaction follows a frame of another transaction, wherever the
    transactions stand in the block. *)
Theorem phases_run_in_order p block statedb cfg :
  exists setup val exe leg,
    events (Process env p block statedb cfg) = setup ++ val ++ exe ++ leg /\
    forallb system_call setup = true /\
    forallb in_validation val = true /\
    forallb in_execution exe = true /\
    forallb (invokes TransactionFrame) leg = true.
Proof.
  destruct (Process_frames p block statedb cfg)
    as (setup & val & exe & leg & E & Hs & Hv & He & Hl & _).
  exists setup, val, exe, leg.
  destruct (setup_trace_messages block TransactionFrame _ Hs) as (_ & Hs').
  auto.
Qed.

(** X9.  In a run of [Process], every frame of an AA transaction other
    than the deployer's is invoked with the same fixed parameters: a gas
    limit of 100000, a gas price, fee cap and tip cap of 875000000, no
    value, and the flags that skip the account checks and mark an inner
    AA frame. *)
Theorem AA_frames_carry_fixed_parameters p block statedb cfg frame m r :
  In (EvApplyMessage frame m r) (events (Process env p block statedb cfg)) ->
  frame <> DeployerFrame ->
  frame <> TransactionFrame ->
  synthetic_message m.
Proof.
  destruct (Process_frames p block statedb cfg)
    as (setup & val & exe & leg & -> & Hs & Hv & He & Hl & _).
  intros Hin Hd Ht. apply is_synthetic_spec.
  rewrite !in_app_iff in Hin. destruct Hin as [Hin|[Hin|[Hin|Hin]]].
  - destruct Hs as [->|(root & _ & ->)]; cbn [In] in Hin;
      [destruct Hin|destruct Hin as [Hin|[]]; discriminate Hin].
  - rewrite forallb_forall in Hv. specialize (Hv _ Hin).
    destruct frame; cbn [in_validation] in Hv; congruence.
  - rewrite forallb_forall in He. specialize (He _ Hin).
    destruct frame; cbn [in_execution] in He; congruence.
  - rewrite forallb_forall in Hl. specialize (Hl _ Hin).
    destruct frame; cbn [invokes Frame_eqb] in Hl; congruence.
Qed.

(** X10.  No run of [Process] invokes the post-operation frame of a
    sponsor: the validation results the first loop collects all carry an
    empty context. *)
Theorem post_operation_never_runs p block statedb cfg :
  existsb (invokes PaymasterPostOpFrame)
    (events (Process env p block statedb cfg)) = false.
Proof.
  destruct (Process_frames p block statedb cfg)
    as (setup & val & exe & leg & -> & Hs & Hv & He & Hl & _).
  assert (Hno : forall P evs,
            (forall e, P e = true ->
                       invokes PaymasterPostOpFrame e = false) ->
            forallb P evs = true ->
            existsb (invokes PaymasterPostOpFrame) evs = false).
  { intros P evs HP. induction evs as [|e evs IH]; [reflexivity|].
    cbn [forallb existsb]. intros H. apply andb_true_iff in H.
    destruct H as (H1 & H2). rewrite (HP _ H1), (IH H2). reflexivity. }
  rewrite !existsb_app.
  rewrite (Hno system_call setup), (Hno in_validation val),
    (Hno in_execution exe), (Hno (invokes TransactionFrame) leg);
    try assumption; try reflexivity.
  - intros e H. apply in_legacy_frames; [exact H|discriminate].
  - intros e H. apply in_execution_frames; [exact H|discriminate].
  - intros e H. apply in_validation_frames; [exact H|auto].
  - intros [| | | |]; cbn; intros; try reflexivity; discriminate.
  - apply (setup_trace_messages block TransactionFrame _ Hs).
Qed.

(** X11.  A run of [Process] makes the system call only for a block that
    carries a beacon root: it is then the first event of the run and the
    only system call, made from the system address to the beacon-roots
    contract with the root as input and 30000000 gas. *)
Theorem system_call_only_for_beacon_root p block statedb cfg caller addr
    input gas :
  In (EvCall caller addr input gas)
    (events (Process env p block statedb cfg)) ->
  block_BeaconRoot block = Some input /\
  caller = SystemAddress env /\
  addr = BeaconRootsStorageAddress env /\
  gas = 30000000 /\
  exists rest,
    events (Process env p block statedb cfg)
    = EvCall caller addr input gas :: rest /\
    existsb system_call rest = false.
Proof.
  destruct (Process_frames p block statedb cfg)
    as (setup & val & exe & leg & -> & Hs & Hv & He & Hl & _).
  assert (Hno : forall P evs,
            (forall e, P e = true -> system_call e = false) ->
            forallb P evs = true -> existsb system_call evs = false).
  { intros P evs HP. induction evs as [|e evs IH]; [reflexivity|].
    cbn [forallb existsb]. intros H. apply andb_true_iff in H.
    destruct H as (H1 & H2). rewrite (HP _ H1), (IH H2). reflexivity. }
  assert (Hrest : existsb system_call (val ++ exe ++ leg) = false).
  { rewrite !existsb_app.
    rewrite (Hno in_validation val), (Hno in_execution exe),
      (Hno (invokes TransactionFrame) leg); try assumption;
      try reflexivity.
    all: intros [[] ? ?| | | |]; cbn; intros; try reflexivity;
      discriminate. }
  intros Hin. destruct Hs as [->|(root & Hroot & ->)].
  - cbn [app] in Hin.
    assert (Hex : existsb system_call (val ++ exe ++ leg) = true).
    { apply existsb_exists. eexists. split; [exact Hin|reflexivity]. }
    congruence.
  - cbn [app In] in Hin. destruct Hin as [Hin|Hin].
    + injection Hin as <- <- <- <-.
      repeat split; try assumption.
      eexists. split; [reflexivity|exact Hrest].
    + assert (Hex : existsb system_call (val ++ exe ++ leg) = true).
      { apply existsb_exists. eexists. split; [exact Hin|reflexivity]. }
      congruence.
Qed.

(** X12.  On a block without AA transactions, a run of [Process]
    consists of the system call and the frames of the transactions: the
    two AA loops invoke no frame and log nothing. *)
Theorem block_without_AA_runs_no_phase p block statedb cfg :
  AA_transactions env (block_Transactions block) = [] ->
  forallb (fun e => system_call e || invokes TransactionFrame e)
    (events (Process env p block statedb cfg)) = true.
Proof.
  destruct (Process_frames p block statedb cfg)
    as (setup & val & exe & leg & -> & Hs & Hv & He & Hl & Hno & _).
  intros HAA. destruct (Hno HAA) as (-> & ->). cbn [app].
  rewrite forallb_app. apply andb_true_iff. split.
  - destruct Hs as [->|(root & _ & ->)]; reflexivity.
  - rewrite forallb_forall in *. intros e Hin.
    rewrite (Hl _ Hin). apply orb_true_r.
Qed.

Lemma frames_of_the_phases frame setup val exe leg block :
  setup_trace env block setup ->
  forallb in_validation val = true ->
  forallb in_execution exe = true ->
  forallb (invokes TransactionFrame) leg = true ->
  messages frame (setup ++ val ++ exe ++ leg)
  = match frame with
    | AccountExecutionFrame => messages frame exe
    | TransactionFrame => messages frame leg
    | PaymasterPostOpFrame => []
    | _ => messages frame val
    end.
Proof.
  intros Hs Hv He Hl. rewrite !messages_app.
  rewrite (proj1 (setup_trace_messages block frame _ Hs)). cbn [app].
  destruct frame.
  1-4: rewrite (messages_none in_execution _ exe),
         (messages_none (invokes TransactionFrame) _ leg), !app_nil_r;
    try assumption; try reflexivity;
    intros e H;
    first [apply in_legacy_frames; [exact H|discriminate]
          |apply in_execution_frames; [exact H|discriminate]].
  - rewrite (messages_none in_validation _ val),
      (messages_none (invokes TransactionFrame) _ leg), !app_nil_r;
      try assumption; try reflexivity; intros e H.
    + apply in_legacy_frames; [exact H|discriminate].
    + apply in_validation_frames; [exact H|auto].
  - rewrite (messages_none in_validation _ val),
      (messages_none in_execution _ exe),
      (messages_none (invokes TransactionFrame) _ leg);
      try assumption; try reflexivity; intros e H.
    + apply in_legacy_frames; [exact H|discriminate].
    + apply in_execution_frames; [exact H|discriminate].
    + apply in_validation_frames; [exact H|auto].
  - rewrite (messages_none in_validation _ val),
      (messages_none in_execution _ exe);
      try assumption; try reflexivity; intros e H.
    + apply in_execution_frames; [exact H|discriminate].
    + apply in_validation_frames; [exact H|auto].
Qed.

(** X14.  When [Process] returns without error, each of the other
    transactions was applied once, in block order: the frames of the
    third loop are invoked with the messages built from those
    transactions, one for each. *)
Theorem legacy_transactions_run_once_in_order p block statedb cfg receipts
    logs gas :
  outcome (Process env p block statedb cfg)
  = Returns (receipts, logs, gas, None) ->
  legacy_trace env
    (MakeSigner (config p) (block_Number block) (block_Time block))
    (BaseFee (block_Header block))
    (legacy_transactions env (block_Transactions block))
    (events (Process env p block statedb cfg)).
Proof.
  destruct (Process_frames p block statedb cfg)
    as (setup & val & exe & leg & -> & Hs & Hv & He & Hl & _ & H).
  intros E. destruct (H _ _ _ E) as (_ & _ & Hleg).
  unfold legacy_trace in *.
  rewrite (frames_of_the_phases _ setup val exe leg block Hs Hv He Hl).
  exact Hleg.
Qed.

(** *** The exported functions *)

Lemma applyTransaction_mirrors msg config blockNumber blockHash tx evm st :
  wp (applyTransaction env msg config blockNumber blockHash tx evm) st
    (fun st' evs o =>
       forall receipt,
         o = Returns (receipt, None) ->
         exists r m result,
           receipt = Some r /\ msg = Some m /\
           evs = [EvApplyMessage TransactionFrame m (inl result)] /\
           Status r = (if Failed result then ReceiptStatusFailed
                       else ReceiptStatusSuccessful) /\
           GasUsed r = UsedGas result /\
           (To m <> None -> ContractAddress r = Address_zero) /\
           (tx_Type tx <> BlobTxType env ->
            BlobGasUsed r = 0 /\ BlobGasPrice r = None)).
Proof.
  unfold applyTransaction.
  repeat run_step'; intros receipt E; try discriminate.
  all: injection E as <-; deref_inv.
  all: do 3 eexists; split; [reflexivity|]; split; [reflexivity|].
  all: cbn [app Status GasUsed ContractAddress BlobGasUsed BlobGasPrice].
  all: split; [reflexivity|]; split; [reflexivity|];
    split; [reflexivity|].
  all: split.
  all: try (intros Hto; destruct (To _); [reflexivity|congruence]).
  all: intros Hb; apply Z.eqb_neq in Hb; rewrite Hb; auto.
Qed.

Lemma applyTransaction_error msg config blockNumber blockHash tx evm st :
  wp (applyTransaction env msg config blockNumber blockHash tx evm) st
    (fun st' evs o =>
       forall receipt err,
         o = Returns (receipt, Some err) ->
         receipt = None /\ usedGas st' = usedGas st /\
         exists m, evs = [EvApplyMessage TransactionFrame m (inr err)]).
Proof.
  unfold applyTransaction.
  repeat run_step'; intros receipt err E; try discriminate.
  injection E as <- <-. cbn [app usedGas]. eauto.
Qed.

Lemma ApplyTransaction_receipt config bc author header tx cfg st :
  wp (ApplyTransaction env config bc author header tx cfg) st
    (fun st' evs o =>
       forall receipt,
         o = Returns (receipt, None) ->
         exists r m result,
           receipt = Some r /\
           TransactionToMessage env tx
             (MakeSigner config (Number header) (Time header))
             (BaseFee header) = (Some m, None) /\
           evs = [EvApplyMessage TransactionFrame m (inl result)] /\
           legacy_receipt (Number header) (header_Hash header) r tx /\
           Status r = (if Failed result then ReceiptStatusFailed
                       else ReceiptStatusSuccessful) /\
           GasUsed r = UsedGas result /\
           CumulativeGasUsed r = add64 (usedGas st) (UsedGas result) /\
           usedGas st' = CumulativeGasUsed r /\
           (To m <> None -> ContractAddress r = Address_zero) /\
           (tx_Type tx <> BlobTxType env ->
            BlobGasUsed r = 0 /\ BlobGasPrice r = None)).
Proof.
  unfold ApplyTransaction.
  repeat run_step; try solve [intros; discriminate].
  eapply wp_weaken;
    [apply wp_conj;
      [apply applyTransaction_receipt|apply applyTransaction_mirrors]|].
  cbv beta. intros st1 ev1 o1 (H & H') receipt E.
  destruct (H _ E) as (r & -> & Hr & Hc & Hu).
  destruct (H' _ E) as (r' & m & result & Er & -> & -> & Hs & Hg & Hto & Hb).
  injection Er as <-.
  exists r, m, result. rewrite <- Hg. cbn [app]. auto 12.
Qed.

Lemma ApplyTransaction_error config bc author header tx cfg st :
  wp (ApplyTransaction env config bc author header tx cfg) st
    (fun st' evs o =>
       forall receipt err,
         o = Returns (receipt, Some err) ->
         receipt = None /\ usedGas st' = usedGas st /\
         (snd (TransactionToMessage env tx
                 (MakeSigner config (Number header) (Time header))
                 (BaseFee header)) = Some err /\
          evs = [] /\ st' = st \/
          exists m,
            evs = [EvApplyMessage TransactionFrame m (inr err)])).
Proof.
  unfold ApplyTransaction.
  repeat run_step; try solve [intros; discriminate].
  - intros receipt err E. injection E as <- <-. auto 6.
  - eapply wp_weaken; [apply applyTransaction_error|].
    cbv beta. intros st1 ev1 o1 H receipt err E.
    destruct (H _ _ E) as (-> & Hu & m & ->). cbn [app]. eauto 6.
Qed.

(** X15.  When [ApplyTransaction] returns a receipt, it has built the
    message of the transaction and run it in a single frame; the receipt
    carries the type and the hash of the transaction, the number and the
    hash of the header, a status that tells whether the frame's result
    failed, and the gas the frame used; the caller's counter [usedGas] is
    advanced by that gas, on [uint64], and the receipt's cumulative gas
    is the new counter.  The contract address is set only for a message
    without recipient, and the blob fields only for a blob
    transaction. *)
Theorem applied_transaction_receipt config bc author header tx cfg st
    receipt :
  outcome (ApplyTransaction env config bc author header tx cfg st)
  = Returns (receipt, None) ->
  exists r m result,
    receipt = Some r /\
    TransactionToMessage env tx
      (MakeSigner config (Number header) (Time header)) (BaseFee header)
    = (Some m, None) /\
    events (ApplyTransaction env config bc author header tx cfg st)
    = [EvApplyMessage TransactionFrame m (inl result)] /\
    legacy_receipt (Number header) (header_Hash header) r tx /\
    Status r = (if Failed result then ReceiptStatusFailed
                else ReceiptStatusSuccessful) /\
    GasUsed r = UsedGas result /\
    CumulativeGasUsed r = add64 (usedGas st) (UsedGas result) /\
    usedGas (final (ApplyTransaction env config bc author header tx cfg st))
    = CumulativeGasUsed r /\
    (To m <> None -> ContractAddress r = Address_zero) /\
    (tx_Type tx <> BlobTxType env ->
     BlobGasUsed r = 0 /\ BlobGasPrice r = None).
Proof.
  exact (ApplyTransaction_receipt config bc author header tx cfg st
           receipt).
Qed.

(** X16.  When [ApplyTransaction] returns an error, it returns no
    receipt and leaves the caller's counter [usedGas] as it was.  The
    error is the one of the message construction, in which case nothing
    was run and the state is untouched, or the one the invoker returned
    for the single frame of the transaction. *)
Theorem failed_transaction_leaves_the_counter config bc author header tx cfg
    st receipt err :
  outcome (ApplyTransaction env config bc author header tx cfg st)
  = Returns (receipt, Some err) ->
  receipt = None /\
  usedGas (final (ApplyTransaction env config bc author header tx cfg st))
  = usedGas st /\
  (snd (TransactionToMessage env tx
          (MakeSigner config (Number header) (Time header))
          (BaseFee header)) = Some err /\
   events (ApplyTransaction env config bc author header tx cfg st) = [] /\
   final (ApplyTransaction env config bc author header tx cfg st) = st \/
   exists m,
     events (ApplyTransaction env config bc author header tx cfg st)
     = [EvApplyMessage TransactionFrame m (inr err)]).
Proof.
  exact (ApplyTransaction_error config bc author header tx cfg st
           receipt err).
Qed.

Ltac in_events :=
  cbn [app In]; repeat first [left; reflexivity | right].

Lemma validation_blank aatx evm st :
  wp (applyAlexfAATransactionValidationPhase env aatx evm) st
    (fun _ _ o =>
       forall vpr e,
         o = Returns (Some vpr, e) ->
         validationGasUsed vpr = 0 /\ paymasterGasUsed vpr = 0).
Proof.
  unfold applyAlexfAATransactionValidationPhase.
  repeat run_step; intros vpr e' E; try discriminate.
  all: injection E as <- <-; split; reflexivity.
Qed.

Lemma validation_errors aatx evm st :
  wp (applyAlexfAATransactionValidationPhase env aatx evm) st
    (fun _ evs o =>
       forall v err,
         o = Returns (v, Some err) ->
         v = None /\
         ((exists frame m, In (EvApplyMessage frame m (inr err)) evs) \/
          err = paymaster_validation_failed /\
          existsb sponsor_rejected evs = true)).
Proof.
  unfold applyAlexfAATransactionValidationPhase.
  repeat run_step; intros v err E; try discriminate.
  all: injection E as <- <-; split; [reflexivity|].
  all: try solve [left; do 2 eexists; in_events].
  all: right; split; [reflexivity|].
  all: rewrite ?existsb_app; cbn [existsb sponsor_rejected].
  all: match goal with H : Failed _ = true |- _ => rewrite H end.
  all: rewrite ?orb_true_r, ?orb_true_l; reflexivity.
Qed.

Lemma Validation_blank config bc author header tx cfg st :
  wp (ApplyAlexfAATransactionValidationPhase env config bc author header tx
        cfg) st
    (fun _ _ o =>
       forall vpr e,
         o = Returns (Some vpr, e) ->
         validationGasUsed vpr = 0 /\ paymasterGasUsed vpr = 0).
Proof.
  unfold ApplyAlexfAATransactionValidationPhase.
  repeat run_step; try solve [intros; discriminate].
  wp_use validation_blank.
  destruct o1 as [[v [e|]]|q]; repeat run_step;
    try solve [intros; discriminate].
  intros vpr e' E. injection E as <- <-.
  cbn [validationGasUsed paymasterGasUsed].
  destruct v as [v|]; cbn [deref] in *; [|discriminate].
  match goal with H : Returns _ = Returns _ |- _ => injection H as <- end.
  eauto.
Qed.

Lemma Validation_errors config bc author header tx cfg st :
  wp (ApplyAlexfAATransactionValidationPhase env config bc author header tx
        cfg) st
    (fun _ evs o =>
       forall v err,
         o = Returns (v, Some err) ->
         v = None /\
         ((exists frame m, In (EvApplyMessage frame m (inr err)) evs) \/
          err = paymaster_validation_failed /\
          existsb sponsor_rejected evs = true)).
Proof.
  unfold ApplyAlexfAATransactionValidationPhase.
  repeat run_step; try solve [intros; discriminate].
  eapply wp_weaken; [apply validation_errors|].
  cbv beta. intros st1 ev1 [[v [e|]]|q] H; repeat run_step;
    intros v' err E; try discriminate.
  injection E as <- <-. split; [reflexivity|].
  destruct (H _ _ eq_refl) as (_ & [(frame & m & Hin)|(-> & Hex)]).
  - left. exists frame, m. rewrite !in_app_iff. auto.
  - right. split; [reflexivity|]. rewrite !existsb_app, Hex.
    rewrite ?orb_true_r. reflexivity.
Qed.

(** X17.  What [ApplyAlexfAATransactionValidationPhase] returns without
    error is a result linked to the transaction, with an empty
    [paymasterContext] and with the two gas fields at zero: the phase
    records no gas, whatever its frames used, and it leaves the caller's
    counter [usedGas] as it was. *)
Theorem validation_records_no_gas config bc author header tx cfg st v :
  outcome (ApplyAlexfAATransactionValidationPhase env config bc author
             header tx cfg st)
  = Returns (v, None) ->
  exists vpr,
    v = Some vpr /\ Tx vpr = Some tx /\ paymasterContext vpr = [] /\
    validationGasUsed vpr = 0 /\ paymasterGasUsed vpr = 0 /\
    usedGas (final (ApplyAlexfAATransactionValidationPhase env config bc
                      author header tx cfg st))
    = usedGas st.
Proof.
  intros E.
  destruct (Validation_validated config bc author header tx cfg st v E)
    as (vpr & -> & Htx & Hc & _).
  destruct (Validation_blank config bc author header tx cfg st vpr None E)
    as (Hv & Hp).
  exists vpr. repeat split; try assumption.
  exact (Validation_keeps_counter config bc author header tx cfg st).
Qed.

(** X18.  [ApplyAlexfAATransactionValidationPhase] returns an error, and
    then no result, in two cases only: the invoker returned that error
    for one of the frames, or the result of the sponsor-validation frame
    indicates failure.  A nonce-manager, deployer or account-validation
    frame whose result indicates failure does not make the phase
    fail. *)
Theorem validation_fails_on_frame_errors_only config bc author header tx cfg
    st v err :
  outcome (ApplyAlexfAATransactionValidationPhase env config bc author
             header tx cfg st)
  = Returns (v, Some err) ->
  v = None /\
  ((exists frame m,
      In (EvApplyMessage frame m (inr err))
        (events (ApplyAlexfAATransactionValidationPhase env config bc
                   author header tx cfg st))) \/
   err = paymaster_validation_failed /\
   existsb sponsor_rejected
     (events (ApplyAlexfAATransactionValidationPhase env config bc author
                header tx cfg st)) = true).
Proof.
  exact (Validation_errors config bc author header tx cfg st v err).
Qed.

Lemma execution_mirrors vpr evm blockNumber blockHash st :
  wp (applyAlexfAATransactionExecutionPhase env vpr evm blockNumber
        blockHash) st
    (fun _ evs o =>
       (forall receipt,
          o = Returns (receipt, None) ->
          exists r m result,
            receipt = Some r /\
            In (EvApplyMessage AccountExecutionFrame m (inl result)) evs /\
            Status r = (if Failed result then ReceiptStatusFailed
                        else ReceiptStatusSuccessful)) /\
       (forall receipt err,
          o = Returns (receipt, Some err) ->
          receipt = None /\
          exists frame m, In (EvApplyMessage frame m (inr err)) evs)).
Proof.
  unfold applyAlexfAATransactionExecutionPhase.
  repeat run_step; (split; [intros receipt E|intros receipt err E]);
    try discriminate.
  all: try (injection E as <-; do 3 eexists;
            split; [reflexivity|]; split; [in_events|reflexivity]).
  all: injection E as <- <-; split; [reflexivity|].
  all: do 2 eexists; in_events.
Qed.

Lemma Execution_mirrors config v blockNumber blockHash bc author header cfg
    st :
  wp (ApplyAlexfAATransactionExecutionPhase env config v blockNumber
        blockHash bc author header cfg) st
    (fun st' evs o =>
       (forall receipt,
          o = Returns (receipt, None) ->
          exists r vpr tx m result,
            receipt = Some r /\ v = Some vpr /\ Tx vpr = Some tx /\
            AA_receipt r tx /\
            In (EvApplyMessage AccountExecutionFrame m (inl result)) evs /\
            Status r = (if Failed result then ReceiptStatusFailed
                        else ReceiptStatusSuccessful) /\
            usedGas st' = usedGas st) /\
       (forall receipt err,
          o = Returns (receipt, Some err) ->
          receipt = None /\
          exists vpr tx,
            v = Some vpr /\ Tx vpr = Some tx /\
            (snd (TransactionToMessage env tx
                    (MakeSigner config (Number header) (Time header))
                    (BaseFee header)) = Some err \/
             exists frame m, In (EvApplyMessage frame m (inr err)) evs))).
Proof.
  unfold ApplyAlexfAATransactionExecutionPhase.
  repeat run_step;
    try solve [split; intros; discriminate].
  - deref_inv. split; [intros; discriminate|].
    intros receipt err E. injection E as <- <-.
    split; [reflexivity|]. do 2 eexists.
    split; [reflexivity|]. split; [eassumption|].
    left.
    match goal with
    | H : TransactionToMessage _ _ _ _ = _ |- _ => rewrite H
    end.
    reflexivity.
  - deref_inv.
    eapply wp_weaken;
      [apply wp_conj; [apply execution_mirrors|apply execution_receipt]|].
    cbv beta. intros st1 ev1 o1 ((Hok & Herr) & Hu & Hr). split.
    + intros receipt E.
      destruct (Hok _ E) as (r & m & result & -> & Hin & Hs).
      destruct (Hr _ E) as (r' & Er & Hr'). injection Er as <-.
      exists r. do 4 eexists.
      split; [reflexivity|]. split; [reflexivity|].
      split; [eassumption|]. split; [apply Hr'; assumption|].
      split; [|split; [exact Hs|exact Hu]].
      rewrite !in_app_iff.
      repeat first [exact Hin | left; exact Hin | right].
    + intros receipt err E.
      destruct (Herr _ _ E) as (-> & frame & m & Hin).
      split; [reflexivity|]. do 2 eexists.
      split; [reflexivity|]. split; [eassumption|].
      right. exists frame, m. rewrite !in_app_iff.
      repeat first [exact Hin | left; exact Hin | right].
Qed.

(** X19.  When [ApplyAlexfAATransactionExecutionPhase] returns a
    receipt, it was given a validation result linked to a transaction and
    has run the account's execution frame; the receipt has the type of
    that transaction and a status that tells whether the result of that
    frame failed, and nothing else besides its logs; the caller's counter
    [usedGas] is left as it was. *)
Theorem execution_receipt_mirrors_the_frame config v blockNumber blockHash
    bc author header cfg st receipt :
  outcome (ApplyAlexfAATransactionExecutionPhase env config v blockNumber
             blockHash bc author header cfg st)
  = Returns (receipt, None) ->
  exists r vpr tx m result,
    receipt = Some r /\ v = Some vpr /\ Tx vpr = Some tx /\
    AA_receipt r tx /\
    In (EvApplyMessage AccountExecutionFrame m (inl result))
      (events (ApplyAlexfAATransactionExecutionPhase env config v
                 blockNumber blockHash bc author header cfg st)) /\
    Status r = (if Failed result then ReceiptStatusFailed
                else ReceiptStatusSuccessful) /\
    usedGas (final (ApplyAlexfAATransactionExecutionPhase env config v
                      blockNumber blockHash bc author header cfg st))
    = usedGas st.
Proof.
  exact (proj1 (Execution_mirrors config v blockNumber blockHash bc author
                  header cfg st) receipt).
Qed.

(** X20.  [ApplyAlexfAATransactionExecutionPhase] returns an error, and
    then no receipt, in two cases only: the message construction returned
    that error, or the invoker returned it for one of the frames.  A
    frame whose result indicates failure does not make the phase return
    an error. *)
Theorem execution_fails_on_errors_only config v blockNumber blockHash bc
    author header cfg st receipt err :
  outcome (ApplyAlexfAATransactionExecutionPhase env config v blockNumber
             blockHash bc author header cfg st)
  = Returns (receipt, Some err) ->
  receipt = None /\
  exists vpr tx,
    v = Some vpr /\ Tx vpr = Some tx /\
    (snd (TransactionToMessage env tx
            (MakeSigner config (Number header) (Time header))
            (BaseFee header)) = Some err \/
     exists frame m,
       In (EvApplyMessage frame m (inr err))
         (events (ApplyAlexfAATransactionExecutionPhase env config v
                    blockNumber blockHash bc author header cfg st))).
Proof.
  exact (proj2 (Execution_mirrors config v blockNumber blockHash bc author
                  header cfg st) receipt err).
Qed.

(** *** The errors of a block *)

Lemma frame_error_app err pre evs post :
  frame_error err evs -> frame_error err (pre ++ evs ++ post).
Proof.
  intros (frame & m & Hin). exists frame, m.
  rewrite !in_app_iff. auto.
Qed.

Lemma existsb_app_mid (P : Event -> bool) pre evs post :
  existsb P evs = true -> existsb P (pre ++ evs ++ post) = true.
Proof.
  intros H. rewrite !existsb_app, H, orb_true_r. reflexivity.
Qed.

Lemma Process_validate_errors p header cfg txs verified st :
  wp (Process_validate env p header cfg txs verified) st
    (fun _ evs o =>
       forall err,
         o = Returns (inr err) ->
         frame_error err evs \/
         err = paymaster_validation_failed /\
         existsb sponsor_rejected evs = true).
Proof.
  revert verified st.
  induction txs as [|tx txs IH]; intros verified st; cbn [Process_validate].
  - run_step. discriminate.
  - run_step; [|apply IH].
    run_step. eapply wp_weaken; [apply Validation_errors|].
    cbv beta. intros st1 ev1 [[v [e|]]|q] H; repeat run_step;
      try solve [intros; discriminate].
    + intros err E. injection E as <-.
      destruct (H _ _ eq_refl) as (_ & [Hf|(-> & Hex)]).
      * left. apply (frame_error_app _ [] ev1 []). exact Hf.
      * right. split; [reflexivity|].
        apply (existsb_app_mid _ [] ev1 []). exact Hex.
    + eapply wp_weaken; [apply IH|].
      cbv beta. intros st2 ev2 o2 H2 err E.
      destruct (H2 _ E) as [Hf|(-> & Hex)].
      * left. rewrite <- (app_nil_r ev2).
        apply (frame_error_app _ ev1 ev2 []). exact Hf.
      * right. split; [reflexivity|].
        rewrite existsb_app, Hex, orb_true_r. reflexivity.
Qed.

Lemma Process_execute_errors p header cfg blockNumber blockHash verified
    receipts allLogs txs st :
  Forall2 validated_as verified txs ->
  wp (Process_execute env p header cfg blockNumber blockHash verified
        receipts allLogs) st
    (fun _ evs o =>
       forall err,
         o = Returns (inr err) ->
         frame_error err evs \/
         exists tx,
           In tx txs /\
           snd (TransactionToMessage env tx
                  (MakeSigner (config p) (Number header) (Time header))
                  (BaseFee header)) = Some err).
Proof.
  intros Hv. revert receipts allLogs st.
  induction Hv as [|v tx rest txs Hv Hrest IH]; intros receipts allLogs st;
    cbn [Process_execute].
  - run_step. discriminate.
  - run_step. eapply wp_weaken; [apply Execution_mirrors|].
    cbv beta. intros st1 ev1 [[receipt [e|]]|q] (_ & H); repeat run_step;
      try solve [intros; discriminate].
    + intros err E. injection E as <-.
      destruct (H _ _ eq_refl) as (_ & vpr & tx' & Ev & Etx & Hc).
      destruct Hv as (vpr' & Ev' & Etx' & _).
      assert (tx' = tx) by congruence. subst tx'.
      destruct Hc as [Hc|(frame & m & Hin)].
      * right. exists tx. split; [left; reflexivity|exact Hc].
      * left. apply (frame_error_app _ [] ev1 []). exists frame, m.
        exact Hin.
    + eapply wp_weaken; [apply IH|].
      cbv beta. intros st2 ev2 o2 H2 err E.
      destruct (H2 _ E) as [Hf|(tx' & Hin & Hc)].
      * left. rewrite <- (app_nil_r ev2), app_nil_l.
        apply (frame_error_app _ ev1 ev2 []). exact Hf.
      * right. exists tx'. split; [right; exact Hin|exact Hc].
Qed.

Lemma Process_apply_errors p header signer vmenv blockNumber blockHash i txs
    receipts allLogs st :
  wp (Process_apply env p header signer vmenv blockNumber blockHash i txs
        receipts allLogs) st
    (fun _ evs o =>
       forall err,
         o = Returns (inr err) ->
         exists n tx e,
           nth_error txs n = Some tx /\
           tx_Type tx <> ALEXF_AA_TX_TYPE env /\
           err = Errorf_could_not_apply_tx (i + Z.of_nat n) (tx_Hash tx) e /\
           (snd (TransactionToMessage env tx signer (BaseFee header))
            = Some e \/
            exists m, In (EvApplyMessage TransactionFrame m (inr e)) evs)).
Proof.
  revert i receipts allLogs st.
  induction txs as [|tx txs IH]; intros i receipts allLogs st;
    cbn [Process_apply].
  - run_step. discriminate.
  - run_step.
    + eapply wp_weaken; [apply IH|].
      cbv beta. intros st1 ev1 o1 H err E.
      destruct (H _ E) as (n & tx' & e & Hn & Hty & -> & Hc).
      exists (S n), tx', e. split; [exact Hn|]. split; [exact Hty|].
      split; [f_equal; lia|exact Hc].
    + apply Z.eqb_neq in Heqb.
      repeat run_step; try solve [intros; discriminate].
      * intros err E. injection E as <-.
        exists 0%nat, tx, e. split; [reflexivity|]. split; [exact Heqb|].
        split; [f_equal; lia|]. left.
        match goal with
        | H : TransactionToMessage _ _ _ _ = _ |- _ => rewrite H
        end.
        reflexivity.
      * eapply wp_weaken; [apply applyTransaction_error|].
        cbv beta. intros st1 ev1 [[receipt [e|]]|q] H; repeat run_step;
          try solve [intros; discriminate].
        -- intros err E. injection E as <-.
           destruct (H _ _ eq_refl) as (_ & _ & m & ->).
           exists 0%nat, tx, e. split; [reflexivity|].
           split; [exact Heqb|]. split; [f_equal; lia|].
           right. exists m. in_events.
        -- eapply wp_weaken; [apply IH|].
           cbv beta. intros st2 ev2 o2 H2 err E.
           destruct (H2 _ E) as (n & tx' & e & Hn & Hty & -> & Hc).
           exists (S n), tx', e. split; [exact Hn|]. split; [exact Hty|].
           split; [f_equal; lia|].
           destruct Hc as [Hc|(m & Hin)]; [left; exact Hc|].
           right. exists m. rewrite !in_app_iff. auto.
Qed.

Lemma Process_transactions_errors p block cfg st :
  wp (Process_transactions env p block cfg) st
    (fun _ evs o =>
       forall err, o = Returns (inr err) -> error_cause env p block evs err).
Proof.
  unfold Process_transactions.
  run_step.
  eapply wp_weaken with (Q := fun _ _ (_ : Outcome unit) => True).
  { exact I. }
  intros st0 ev0 [[]|q] _; cbv beta iota; [|intros; discriminate].
  run_step.
  eapply wp_weaken with (Q := fun _ _ (_ : Outcome unit) => True).
  { exact I. }
  intros st1 ev1 [[]|q] _; cbv beta iota; [|intros; discriminate].
  run_step.
  eapply wp_weaken;
    [apply wp_conj;
      [apply Process_validate_errors
      |apply Process_validate_validated]|].
  cbv beta. intros st2 ev2 [[verified|err]|q] (H2 & Hv2); repeat run_step;
    try solve [intros; discriminate].
  - destruct (Hv2 _ eq_refl) as (vs & -> & Hvs). cbn [app] in *.
    eapply wp_weaken; [apply Process_execute_errors; exact Hvs|].
    cbv beta. intros st3 ev3 [[[receipts allLogs]|err]|q] H3;
      repeat run_step; try solve [intros; discriminate].
    + eapply wp_weaken; [apply Process_apply_errors|].
      cbv beta. intros st4 ev4 o4 H4 err E.
      destruct (H4 _ E) as (n & tx & e & Hn & Hty & -> & Hc).
      do 4 right. exists n, tx, e.
      split; [exact Hn|]. split; [exact Hty|]. split; [reflexivity|].
      destruct Hc as [Hc|(m & Hin)]; [left; exact Hc|].
      right. exists m. rewrite !in_app_iff. auto 6.
    + intros err' E. injection E as <-.
      destruct (H3 _ eq_refl) as [(frame & m & Hin)|(tx & Hin & Hc)].
      * right. left. exists frame, m. rewrite !in_app_iff. auto 6.
      * do 3 right. left. exists tx.
        apply AA_transactions_type in Hin. destruct Hin as (Hin & Hty).
        auto.
  - intros err' E. injection E as <-.
    destruct (H2 _ eq_refl) as [(frame & m & Hin)|(-> & Hex)].
    + right. left. exists frame, m. rewrite !in_app_iff. auto 6.
    + do 2 right. left. split; [reflexivity|].
      rewrite !existsb_app, Hex, ?orb_true_r. reflexivity.
Qed.

(** X21.  Every error [Process] returns has one of five causes: the
    fork check on withdrawals; an error the invoker returned for a frame
    of the run; the verdict of a sponsor; the message construction of an
    AA transaction of the block, in its execution phase; or a
    transaction of another type, in which case the error names the
    position of that transaction in the block and its hash, and wraps
    the error of its message construction or of its frame. *)
Theorem every_error_has_a_cause p block statedb cfg receipts logs gas err :
  outcome (Process env p block statedb cfg)
  = Returns (receipts, logs, gas, Some err) ->
  error_cause env p block (events (Process env p block statedb cfg)) err.
Proof.
  unfold Process.
  change (wp (Process_body env p block cfg)
            {| Core.statedb := statedb; gp := block_GasLimit block;
               usedGas := 0 |}
            (fun _ evs o =>
               o = Returns (receipts, logs, gas, Some err) ->
               error_cause env p block evs err)).
  unfold Process_body. cbv zeta.
  run_step.
  eapply wp_weaken; [apply Process_transactions_errors|].
  cbv beta. intros st1 ev1 [[[rs ls]|e]|q] H1; repeat run_step;
    try solve [intros; discriminate].
  - intros E. injection E as _ _ _ <-. left. reflexivity.
  - intros E. injection E as _ _ _ <-. rewrite app_nil_r.
    exact (H1 _ eq_refl).
Qed.

(** *** The sequence of the frames of a block *)

Lemma frames_app evs evs' : frames (evs ++ evs') = frames evs ++ frames evs'.
Proof.
  induction evs as [|e evs IH]; [reflexivity|].
  cbn [app frames]. destruct e; cbn [app]; rewrite ?IH; reflexivity.
Qed.

Lemma results_app frame evs evs' :
  results frame (evs ++ evs')
  = results frame evs ++ results frame evs'.
Proof.
  induction evs as [|e evs IH]; [reflexivity|].
  cbn [app results]. destruct e as [f m [r|err]| | | |]; try exact IH.
  destruct (Frame_eqb f frame); [cbn [app]; f_equal|]; exact IH.
Qed.

Lemma results_none (P : Event -> bool) frame evs :
  (forall e, P e = true -> invokes frame e = false) ->
  forallb P evs = true -> results frame evs = [].
Proof.
  intros HP. induction evs as [|e evs IH]; [reflexivity|].
  cbn [forallb]. intros H. apply andb_true_iff in H. destruct H as (He & H).
  specialize (HP _ He). cbn [results].
  destruct e as [f m [r|err]| | | |]; try exact (IH H).
  cbn [invokes] in HP. rewrite HP. exact (IH H).
Qed.

Lemma validation_sequence aatx evm st :
  wp (applyAlexfAATransactionValidationPhase env aatx evm) st
    (fun _ evs o =>
       forall v tx,
         o = Returns (v, None) ->
         tx_AlexfAATransactionData tx = aatx ->
         frames evs = validation_calls tx).
Proof.
  unfold applyAlexfAATransactionValidationPhase.
  repeat run_step; intros v tx E Etx; try discriminate.
  all: unfold validation_calls, runs_deployer; rewrite Etx.
  all: deref_inv; try congruence.
  all: repeat match goal with
              | H : Returns _ = Returns _ |- _ =>
                  apply Returns_inj in H; subst
              end.
  all: repeat match goal with
              | H : (_ <=? _)%nat = _ |- _ => rewrite H
              | H : negb (bytes_eqb _ _) = _ |- _ => rewrite H
              | H : Sender _ = Some _ |- _ => rewrite H
              end.
  all: reflexivity.
Qed.

Lemma Validation_sequence config bc author header tx cfg st :
  wp (ApplyAlexfAATransactionValidationPhase env config bc author header tx
        cfg) st
    (fun _ evs o =>
       forall v, o = Returns (v, None) -> frames evs = validation_calls tx).
Proof.
  unfold ApplyAlexfAATransactionValidationPhase.
  repeat run_step; try solve [intros; discriminate].
  eapply wp_weaken; [apply validation_sequence|].
  cbv beta. intros st1 ev1 [[v [e|]]|q] H; repeat run_step;
    intros v' E; try discriminate.
  rewrite !frames_app, app_nil_r. cbn [frames app].
  exact (H _ tx eq_refl eq_refl).
Qed.

Lemma Process_validate_sequence p header cfg txs verified st :
  wp (Process_validate env p header cfg txs verified) st
    (fun _ evs o =>
       forall vs,
         o = Returns (inl vs) ->
         frames evs = flat_map validation_calls (AA_transactions env txs)).
Proof.
  revert verified st.
  induction txs as [|tx txs IH]; intros verified st;
    cbn [Process_validate AA_transactions filter].
  - run_step. reflexivity.
  - change (is_AA env tx) with (tx_Type tx =? ALEXF_AA_TX_TYPE env).
    run_step; [|apply IH].
    run_step. eapply wp_weaken; [apply Validation_sequence|].
    cbv beta. intros st1 ev1 [[v [e|]]|q] H; repeat run_step;
      try solve [intros; discriminate].
    eapply wp_weaken; [apply IH|].
    cbv beta. intros st2 ev2 o2 H2 vs E.
    rewrite frames_app, (H _ eq_refl), (H2 _ E). reflexivity.
Qed.

Lemma execution_sequence vpr evm blockNumber blockHash st :
  paymasterContext vpr = [] ->
  wp (applyAlexfAATransactionExecutionPhase env vpr evm blockNumber
        blockHash) st
    (fun _ evs o =>
       forall receipt tx,
         o = Returns (receipt, None) -> Tx vpr = Some tx ->
         frames evs = execution_calls tx /\
         exists r,
           receipt = Some r /\
           map status_of (results AccountExecutionFrame evs) = [Status r] /\
           exists w,
             Logs r = GetLogs env (tx_Hash tx) (blockNumber mod uint64_mod)
                        blockHash w).
Proof.
  intros Hc. unfold applyAlexfAATransactionExecutionPhase.
  rewrite Hc. cbn [length Nat.eqb negb].
  repeat run_step; intros receipt tx E Etx; try discriminate.
  injection E as <-.
  rewrite Etx in *. cbn [deref] in *.
  repeat match goal with
         | H : Returns _ = Returns _ |- _ => apply Returns_inj in H; subst
         end.
  deref_inv.
  unfold execution_calls.
  repeat match goal with
         | H : tx_AlexfAATransactionData _ = Some _ |- _ => rewrite H
         | H : Sender _ = Some _ |- _ => rewrite H
         end.
  split; [reflexivity|]. eexists. split; [reflexivity|].
  split; [reflexivity|]. cbn [Logs]. eexists. reflexivity.
Qed.

Lemma Execution_sequence config v tx blockNumber blockHash bc author header
    cfg st :
  validated_as v tx ->
  wp (ApplyAlexfAATransactionExecutionPhase env config v blockNumber
        blockHash bc author header cfg) st
    (fun _ evs o =>
       forall receipt,
         o = Returns (receipt, None) ->
         frames evs = execution_calls tx /\
         exists r,
           receipt = Some r /\
           map status_of (results AccountExecutionFrame evs) = [Status r] /\
           exists w,
             Logs r = GetLogs env (tx_Hash tx) (blockNumber mod uint64_mod)
                        blockHash w).
Proof.
  intros (vpr & -> & Etx & Hc & _).
  unfold ApplyAlexfAATransactionExecutionPhase.
  repeat run_step; try solve [intros; discriminate].
  cbn [deref] in *.
  match goal with
  | H : Returns vpr = Returns _ |- _ => apply Returns_inj in H; subst
  end.
  rewrite Etx in *. cbn [deref] in *.
  match goal with
  | H : Returns tx = Returns _ |- _ => apply Returns_inj in H; subst
  end.
  eapply wp_weaken; [apply execution_sequence; exact Hc|].
  cbv beta. intros st1 ev1 o1 H receipt E.
  rewrite !frames_app, !results_app. cbn [frames results app].
  exact (H _ _ E Etx).
Qed.

Lemma Process_execute_sequence p header cfg blockNumber blockHash verified
    receipts allLogs txs st :
  Forall2 validated_as verified txs ->
  wp (Process_execute env p header cfg blockNumber blockHash verified
        receipts allLogs) st
    (fun _ evs o =>
       forall rs ls,
         o = Returns (inl (rs, ls)) ->
         frames evs = flat_map execution_calls txs /\
         exists new,
           rs = receipts ++ new /\
           map status_of (results AccountExecutionFrame evs)
           = map (fun r => Status r) new /\
           Forall2
             (fun r tx =>
                exists w,
                  Logs r = GetLogs env (tx_Hash tx)
                             (blockNumber mod uint64_mod) blockHash w)
             new txs).
Proof.
  intros Hv. revert receipts allLogs st.
  induction Hv as [|v tx rest txs Hv Hrest IH]; intros receipts allLogs st;
    cbn [Process_execute].
  - run_step. intros rs ls E. injection E as <- <-.
    split; [reflexivity|]. exists []. rewrite app_nil_r.
    split; [reflexivity|]. split; [reflexivity|constructor].
  - run_step. eapply wp_weaken; [apply Execution_sequence; exact Hv|].
    cbv beta. intros st1 ev1 [[receipt [e|]]|q] H; repeat run_step;
      try solve [intros; discriminate].
    destruct (H _ eq_refl) as (Hf & r & -> & Hs & Hl). cbn [deref] in *.
    match goal with H : Returns _ = Returns _ |- _ => injection H as <- end.
    eapply wp_weaken; [apply IH|].
    cbv beta. intros st2 ev2 o2 H2 rs ls E.
    destruct (H2 _ _ E) as (Hf2 & new & -> & Hs2 & Hl2).
    rewrite !frames_app, !results_app, !map_app. cbn [frames results app map].
    rewrite Hf, Hf2, Hs, Hs2. split; [reflexivity|].
    exists (r :: new). rewrite <- app_assoc.
    split; [reflexivity|]. split; [reflexivity|].
    constructor; assumption.
Qed.

Lemma applyTransaction_sequence msg config blockNumber blockHash tx evm st :
  wp (applyTransaction env msg config blockNumber blockHash tx evm) st
    (fun _ evs o =>
       results AccountExecutionFrame evs = [] /\
       forall receipt,
         o = Returns (receipt, None) ->
         frames evs = [(TransactionFrame, msg)]).
Proof.
  unfold applyTransaction.
  repeat run_step'; (split; [reflexivity|]); intros receipt E;
    try discriminate.
  all: deref_inv; reflexivity.
Qed.

Lemma Process_apply_sequence p header signer vmenv blockNumber blockHash i
    txs receipts allLogs st :
  wp (Process_apply env p header signer vmenv blockNumber blockHash i txs
        receipts allLogs) st
    (fun _ evs o =>
       results AccountExecutionFrame evs = [] /\
       forall rs ls,
         o = Returns (inl (rs, ls)) ->
         frames evs
         = flat_map (legacy_calls env signer (BaseFee header))
             (legacy_transactions env txs)).
Proof.
  revert i receipts allLogs st.
  induction txs as [|tx txs IH]; intros i receipts allLogs st;
    cbn [Process_apply legacy_transactions filter].
  - run_step. split; reflexivity.
  - change (is_AA env tx) with (tx_Type tx =? ALEXF_AA_TX_TYPE env).
    run_step; cbn [negb]; [apply IH|].
    repeat run_step;
      try solve [split; [reflexivity|intros; discriminate]].
    eapply wp_weaken; [apply applyTransaction_sequence|].
    cbv beta. intros st1 ev1 [[receipt [e|]]|q] (Hr & H); repeat run_step;
      rewrite ?results_app, ?Hr;
      try solve [split; [reflexivity|intros; discriminate]].
    eapply wp_weaken; [apply IH|].
    cbv beta. intros st2 ev2 o2 (Hr2 & H2).
    rewrite ?results_app, ?Hr, ?Hr2. split; [reflexivity|].
    intros rs ls E.
    rewrite !frames_app. cbn [frames app flat_map].
    rewrite (H _ eq_refl), (H2 _ _ E). unfold legacy_calls at 2.
    match goal with
    | H : TransactionToMessage env tx signer (BaseFee header) = _ |- _ =>
        rewrite H
    end.
    reflexivity.
Qed.

Lemma Process_transactions_sequence p block cfg st :
  wp (Process_transactions env p block cfg) st
    (fun _ evs o =>
       forall rs ls,
         o = Returns (inl (rs, ls)) ->
         frames evs
         = flat_map validation_calls
             (AA_transactions env (block_Transactions block)) ++
           flat_map execution_calls
             (AA_transactions env (block_Transactions block)) ++
           flat_map
             (legacy_calls env
                (MakeSigner (config p) (block_Number block)
                   (block_Time block))
                (BaseFee (block_Header block)))
             (legacy_transactions env (block_Transactions block)) /\
         exists aa rest,
           rs = aa ++ rest /\
           map status_of (results AccountExecutionFrame evs)
           = map (fun r => Status r) aa /\
           Forall2
             (fun r tx =>
                exists w,
                  Logs r = GetLogs env (tx_Hash tx)
                             (block_Number block mod uint64_mod)
                             (block_Hash block) w)
             aa (AA_transactions env (block_Transactions block))).
Proof.
  unfold Process_transactions.
  run_step.
  eapply wp_weaken with
    (Q := fun _ evs (_ : Outcome unit) => evs = []).
  { repeat run_step; reflexivity. }
  intros st0 ev0 [[]|q] ->; cbv beta iota; [|intros; discriminate].
  run_step.
  eapply wp_weaken with
    (Q := fun _ evs (_ : Outcome unit) =>
            frames evs = [] /\ results AccountExecutionFrame evs = []).
  { run_step.
    - eapply wp_weaken; [apply ProcessBeaconBlockRoot_frames|].
      cbv beta. intros st1 ev1 o1 [->| ->]; split; reflexivity.
    - run_step. split; reflexivity. }
  intros st1 ev1 [[]|q] (Hf1 & Hr1); cbv beta iota;
    [|intros; discriminate].
  run_step.
  eapply wp_weaken;
    [apply wp_conj;
      [apply wp_conj;
        [apply Process_validate_sequence|apply Process_validate_frames]
      |apply Process_validate_validated]|].
  cbv beta.
  intros st2 ev2 [[verified|err]|q] ((Hf2 & Hin2 & _) & Hv2);
    repeat run_step; try solve [intros; discriminate].
  destruct (Hv2 _ eq_refl) as (vs & -> & Hvs). cbn [app] in *.
  assert (Hr2 : results AccountExecutionFrame ev2 = []).
  { apply (results_none in_validation); [|exact Hin2].
    intros e He. apply in_validation_frames; [exact He|auto]. }
  eapply wp_weaken; [apply Process_execute_sequence; exact Hvs|].
  cbv beta.
  intros st3 ev3 [[[receipts allLogs]|err]|q] H3;
    repeat run_step; try solve [intros; discriminate].
  destruct (H3 _ _ eq_refl) as (Hf3 & aa & -> & Hs3 & Hl3). cbn [app] in *.
  eapply wp_weaken;
    [apply wp_conj;
      [apply Process_apply_sequence|apply Process_apply_receipts]|].
  cbv beta. intros st4 ev4 o4 ((Hr4 & H4) & Hrec) rs ls E.
  rewrite !frames_app, !results_app.
  rewrite Hf1, (Hf2 _ eq_refl), Hf3, (H4 _ _ E), Hr1, Hr2, Hr4.
  cbn [app frames results]. rewrite app_nil_r.
  split; [reflexivity|].
  destruct (Hrec _ _ E) as (new & -> & _).
  exists aa, new. auto.
Qed.

Lemma Process_sequence p block statedb cfg receipts logs gas :
  outcome (Process env p block statedb cfg)
  = Returns (receipts, logs, gas, None) ->
  frames (events (Process env p block statedb cfg))
  = flat_map validation_calls
      (AA_transactions env (block_Transactions block)) ++
    flat_map execution_calls
      (AA_transactions env (block_Transactions block)) ++
    flat_map
      (legacy_calls env
         (MakeSigner (config p) (block_Number block) (block_Time block))
         (BaseFee (block_Header block)))
      (legacy_transactions env (block_Transactions block)) /\
  exists aa rest,
    receipts = aa ++ rest /\
    map status_of
      (results AccountExecutionFrame
         (events (Process env p block statedb cfg)))
    = map (fun r => Status r) aa /\
    Forall2
      (fun r tx =>
         exists w,
           Logs r = GetLogs env (tx_Hash tx)
                      (block_Number block mod uint64_mod)
                      (block_Hash block) w)
      aa (AA_transactions env (block_Transactions block)).
Proof.
  unfold Process.
  change (wp (Process_body env p block cfg)
            {| Core.statedb := statedb; gp := block_GasLimit block;
               usedGas := 0 |}
            (fun _ evs o =>
               o = Returns (receipts, logs, gas, None) ->
               frames evs
               = flat_map validation_calls
                   (AA_transactions env (block_Transactions block)) ++
                 flat_map execution_calls
                   (AA_transactions env (block_Transactions block)) ++
                 flat_map
                   (legacy_calls env
                      (MakeSigner (config p) (block_Number block)
                         (block_Time block))
                      (BaseFee (block_Header block)))
                   (legacy_transactions env (block_Transactions block)) /\
               exists aa rest,
                 receipts = aa ++ rest /\
                 map status_of (results AccountExecutionFrame evs)
                 = map (fun r => Status r) aa /\
                 Forall2
                   (fun r tx =>
                      exists w,
                        Logs r = GetLogs env (tx_Hash tx)
                                   (block_Number block mod uint64_mod)
                                   (block_Hash block) w)
                   aa (AA_transactions env (block_Transactions block)))).
  unfold Process_body. cbv zeta.
  run_step.
  eapply wp_weaken; [apply Process_transactions_sequence|].
  cbv beta. intros st1 ev1 [[[rs ls]|err]|q] H1; repeat run_step;
    try solve [intros; discriminate].
  intros E. injection E as <- <- <-. rewrite !app_nil_r.
  exact (H1 _ _ eq_refl).
Qed.




(** X13.  When [Process] returns without error, the frames of its run
    are, in this order and with these messages: for each AA transaction
    of the block, in block order, its nonce-manager frame, its deployer
    frame if the guard of lines 151-153 holds, its account-validation
    frame and its sponsor-validation frame; then, for each AA
    transaction in block order, its execution frame; then, for each
    other transaction in block order, the frame of the message built
    from it.  In particular every AA transaction is validated once and
    then executed once, all validations come before all executions, and
    a sponsor frame is run for every AA transaction. *)
Theorem AA_transactions_run_once_in_order p block statedb cfg receipts logs
    gas :
  outcome (Process env p block statedb cfg)
  = Returns (receipts, logs, gas, None) ->
  frames (events (Process env p block statedb cfg))
  = flat_map validation_calls
      (AA_transactions env (block_Transactions block)) ++
    flat_map execution_calls
      (AA_transactions env (block_Transactions block)) ++
    flat_map
      (legacy_calls env
         (MakeSigner (config p) (block_Number block) (block_Time block))
         (BaseFee (block_Header block)))
      (legacy_transactions env (block_Transactions block)).
Proof.
  intros E. exact (proj1 (Process_sequence _ _ _ _ _ _ _ E)).
Qed.

End CoreFacts.

(** ** The state processor on concrete blocks *)

Section CoreExamples.

Import Core Fixtures.

Lemma toy_gas_contract reverting ttm :
  gas_contract (toy_env reverting ttm).
Proof.
  intros evm m w g w' g' r E Hg. cbn [invoke toy_env] in E.
  unfold toy_invoke in E.
  destruct (0 <=? GasLimit m) eqn:E0; cbn [andb] in E;
    [|discriminate].
  destruct (GasLimit m <=? g) eqn:E1; [|discriminate].
  injection E as _ <- <-. cbn [UsedGas].
  apply Z.leb_le in E0. apply Z.leb_le in E1. lia.
Qed.

(** A block whose AA transaction names a sponsor that rejects it. *)
Lemma sponsor_validation_failure_witness :
  outcome (Process (toy_env (Some sponsor) ttm_ok) toy_processor
             (toy_block 1000000 [legacy_tx x01; aa_tx sponsor []] [])
             tt tt)
  = Returns ([], [], 0, Some paymaster_validation_failed) /\
  existsb execution_event
    (events (Process (toy_env (Some sponsor) ttm_ok) toy_processor
               (toy_block 1000000 [legacy_tx x01; aa_tx sponsor []] [])
               tt tt))
  = false.
Proof.
  apply (proj2 (sponsor_validation_failure_aborts
                  (toy_env (Some sponsor) ttm_ok))).
  vm_compute. reflexivity.
Defined.

(** C2.  An AA transaction with a sponsor that accepts it: the
    sponsor-validation frame is invoked, and yet the validation result
    carries an empty [paymasterContext], so that the execution phase run
    on that result invokes no post-operation frame. *)
Theorem sponsored_validation_records_no_context :
  let env := toy_env None ttm_ok in
  let run := toy_validate env (aa_tx sponsor []) in
  existsb (invokes PaymasterFrame) (events run) = true /\
  exists vpr,
    outcome run = Returns (Some vpr, None) /\
    paymasterContext vpr = [] /\
    existsb (invokes PaymasterPostOpFrame)
      (events (toy_execute env (Some vpr) (final run))) = false.
Proof.
  cbv zeta. split; [vm_compute; reflexivity|].
  eexists. split; [vm_compute; reflexivity|].
  split; vm_compute; reflexivity.
Qed.

Lemma empty_paymaster_data_panics_witness :
  exists q,
    applyAlexfAATransactionValidationPhase (toy_env None ttm_ok)
      (Some (aa_data [] [])) toy_evm (toy_state 1000000)
    = (toy_state 1000000, [], Panics q).
Proof.
  apply (empty_paymaster_data_panics (toy_env None ttm_ok) (aa_data [] [])
           toy_evm (toy_state 1000000)).
  reflexivity.
Defined.

Lemma deployer_frame_is_zero_message_witness :
  (20 <= length deployer)%nat /\
  firstn 20 deployer <> Address_zero /\
  Message_zero = Message_zero /\ To Message_zero = None.
Proof.
  apply (deployer_frame_is_zero_message (toy_env None ttm_ok)
           (aa_data sponsor deployer) toy_evm (toy_state 1000000)
           Message_zero
           (inl {| UsedGas := 0; Err := None; ReturnData := [] |})).
  vm_compute. auto.
Defined.

(** C5.  A block too small for the first frame of its AA transaction:
    [Process] returns the invoker's error as it is, whereas the same
    error of a legacy transaction comes back with the index and the hash
    of the transaction. *)
Theorem validation_error_returned_unannotated :
  outcome (Process (toy_env None ttm_ok) toy_processor
             (toy_block 1000 [aa_tx sponsor []] []) tt tt)
  = Returns ([], [], 0, Some (errors_New "gas limit reached")) /\
  outcome (Process (toy_env None ttm_ok) toy_processor
             (toy_block 1000 [legacy_tx x01] []) tt tt)
  = Returns ([], [], 0,
             Some (Errorf_could_not_apply_tx 0 [x01]
                     (errors_New "gas limit reached"))).
Proof. split; vm_compute; reflexivity. Qed.

(** C6 as stated fails: a block with withdrawals before Shanghai whose
    transaction cannot be applied fails with the transaction's error. *)
Lemma withdrawals_error_preempted :
  ~ (forall (W Log ChainContext VMConfig : Type)
            (env : Env W Log ChainContext VMConfig)
            (p : StateProcessor W ChainContext) (block : Block)
            (statedb : W) (cfg : VMConfig),
       block_Withdrawals block <> [] ->
       IsShanghai (config p) (block_Number block) (block_Time block)
       = false ->
       outcome (Process env p block statedb cfg)
       = Returns ([], [], 0,
                  Some (errors_New "withdrawals before shanghai"))).
Proof.
  intros H.
  specialize (H unit unit unit unit (toy_env None ttm_ok) toy_processor
                (toy_block 1000 [legacy_tx x01] [toy_withdrawal]) tt tt).
  assert (E : block_Withdrawals
                (toy_block 1000 [legacy_tx x01] [toy_withdrawal]) <> [])
    by discriminate.
  specialize (H E eq_refl). vm_compute in H. discriminate H.
Qed.

Lemma withdrawals_before_shanghai_witness :
  outcome (Process (toy_env None ttm_ok) toy_processor
             (toy_block 1000000 [legacy_tx x01] [toy_withdrawal]) tt tt)
  = Returns ([], [], 0, Some (errors_New "withdrawals before shanghai")).
Proof.
  assert (E : block_Withdrawals
                (toy_block 1000000 [legacy_tx x01] [toy_withdrawal]) <> [])
    by discriminate.
  eapply (proj2 (withdrawals_before_shanghai_rejected
                   (toy_env None ttm_ok) toy_processor
                   (toy_block 1000000 [legacy_tx x01] [toy_withdrawal])
                   tt tt E eq_refl)).
  vm_compute. reflexivity.
Defined.

Lemma legacy_cumulative_gas_witness :
  exists receipts logs,
    outcome (Process (toy_env None ttm_ok) toy_processor
               (toy_block 1000000
                  [legacy_tx x01; aa_tx sponsor []; legacy_tx x02] [])
               tt tt)
    = Returns (receipts, logs, 42000, None) /\
    map (fun r => CumulativeGasUsed r)
      (legacy_receipts (toy_env None ttm_ok) receipts) = [21000; 42000] /\
    StronglySorted Z.le
      (map (fun r => CumulativeGasUsed r)
         (legacy_receipts (toy_env None ttm_ok) receipts)) /\
    (forall init r,
       legacy_receipts (toy_env None ttm_ok) receipts = init ++ [r] ->
       CumulativeGasUsed r = 42000).
Proof.
  eexists. eexists. split; [vm_compute; reflexivity|].
  split; [vm_compute; reflexivity|].
  eapply (legacy_cumulative_gas_monotone (toy_env None ttm_ok)
            toy_processor
            (toy_block 1000000
               [legacy_tx x01; aa_tx sponsor []; legacy_tx x02] [])
            tt tt).
  - apply toy_gas_contract.
  - vm_compute. split; [discriminate|reflexivity].
  - vm_compute. reflexivity.
Defined.

(** C10.  An AA transaction whose message cannot be built.  When the
    construction returns its error next to a message, the validation
    phase drops the error, runs its frames and returns a result; when it
    returns the error with no message, both phases dereference the
    absent message before any check and panic. *)
Theorem construction_error_not_checked :
  let tx := aa_tx sponsor [] in
  let vpr := {| Tx := Some tx; paymasterContext := [];
                validationGasUsed := 0; paymasterGasUsed := 0 |} in
  TransactionToMessage (toy_env None ttm_fails) tx
    (MakeSigner pre_shanghai 1 1) None
  = (Some transfer, Some (errors_New "invalid sender")) /\
  outcome (toy_validate (toy_env None ttm_fails) tx)
  = Returns (Some vpr, None) /\
  existsb (invokes PaymasterFrame)
    (events (toy_validate (toy_env None ttm_fails) tx)) = true /\
  outcome (toy_validate (toy_env None ttm_fails_nil) tx)
  = Panics nil_dereference /\
  outcome (toy_execute (toy_env None ttm_fails_nil) (Some vpr)
             (toy_state 1000000))
  = Panics nil_dereference.
Proof. cbv zeta. repeat split; vm_compute; reflexivity. Qed.


(** *** A block that mixes the two kinds of transactions *)


Lemma AA_receipts_are_bare_witness :
  bare_receipt toy_AA_receipt /\
  (Status toy_AA_receipt = ReceiptStatusFailed \/
   Status toy_AA_receipt = ReceiptStatusSuccessful).
Proof.
  eapply (AA_receipts_are_bare plain_env toy_processor mixed_block tt tt).
  - vm_compute. reflexivity.
  - vm_compute. left. reflexivity.
  - reflexivity.
Defined.

Lemma legacy_receipts_name_their_transactions_witness :
  exists receipts logs gas,
    outcome (Process plain_env toy_processor mixed_block tt tt)
    = Returns (receipts, logs, gas, None) /\
    Forall2 (legacy_receipt (block_Number mixed_block)
               (block_Hash mixed_block))
      (legacy_receipts plain_env receipts)
      (legacy_transactions plain_env (block_Transactions mixed_block)).
Proof.
  do 3 eexists. split; [vm_compute; reflexivity|].
  eapply (legacy_receipts_name_their_transactions plain_env toy_processor
            mixed_block tt tt).
  vm_compute. reflexivity.
Defined.

Lemma logs_are_the_receipts_logs_witness :
  exists receipts logs gas,
    outcome (Process plain_env toy_processor mixed_block tt tt)
    = Returns (receipts, logs, gas, None) /\
    logs = concat (map (fun r => Logs r) receipts).
Proof.
  do 3 eexists. split; [vm_compute; reflexivity|].
  eapply (logs_are_the_receipts_logs plain_env toy_processor mixed_block
            tt tt).
  vm_compute. reflexivity.
Defined.

Lemma gas_is_the_sum_of_the_receipts_witness :
  exists receipts logs,
    outcome (Process plain_env toy_processor mixed_block tt tt)
    = Returns (receipts, logs, 42000, None) /\
    42000 = sum_gas 0 receipts /\
    42000 = sum_gas 0 (legacy_receipts plain_env receipts) /\
    accumulates 0 (legacy_receipts plain_env receipts).
Proof.
  do 2 eexists. split; [vm_compute; reflexivity|].
  eapply (gas_is_the_sum_of_the_receipts plain_env toy_processor
            mixed_block tt tt).
  vm_compute. reflexivity.
Defined.

Lemma success_needs_well_formed_AA_witness :
  well_formed_AA (aa_tx sponsor []).
Proof.
  eapply (success_needs_well_formed_AA plain_env toy_processor mixed_block
            tt tt).
  - vm_compute. reflexivity.
  - right. left. reflexivity.
  - reflexivity.
Defined.

Lemma gas_stays_within_the_block_limit_witness :
  exists receipts logs,
    outcome (Process plain_env toy_processor mixed_block tt tt)
    = Returns (receipts, logs, 42000, None) /\
    0 <= 42000 <= block_GasLimit mixed_block /\
    42000 = total_gas_used receipts /\
    Forall (fun r => 0 <= GasUsed r) receipts.
Proof.
  do 2 eexists. split; [vm_compute; reflexivity|].
  eapply (gas_stays_within_the_block_limit plain_env toy_processor
            mixed_block tt tt).
  - apply toy_gas_contract.
  - vm_compute. split; [discriminate|reflexivity].
  - vm_compute. reflexivity.
Defined.

Lemma AA_frames_carry_fixed_parameters_witness :
  synthetic_message toy_paymaster_message.
Proof.
  apply (AA_frames_carry_fixed_parameters plain_env toy_processor
           mixed_block tt tt PaymasterFrame toy_paymaster_message
           toy_result).
  - vm_compute. repeat first [left; reflexivity | right].
  - discriminate.
  - discriminate.
Defined.

Lemma system_call_only_for_beacon_root_witness :
  block_BeaconRoot beacon_block = Some [xb0] /\
  addr xfe = SystemAddress plain_env /\
  addr xbe = BeaconRootsStorageAddress plain_env /\
  30000000 = 30000000 /\
  exists rest,
    events (Process plain_env toy_processor beacon_block tt tt)
    = EvCall (addr xfe) (addr xbe) [xb0] 30000000 :: rest /\
    existsb system_call rest = false.
Proof.
  apply (system_call_only_for_beacon_root plain_env toy_processor
           beacon_block tt tt (addr xfe) (addr xbe) [xb0] 30000000).
  vm_compute. left. reflexivity.
Defined.

Lemma block_without_AA_runs_no_phase_witness :
  forallb (fun e => system_call e || invokes TransactionFrame e)
    (events (Process plain_env toy_processor legacy_block tt tt)) = true.
Proof.
  apply (block_without_AA_runs_no_phase plain_env toy_processor
           legacy_block tt tt).
  reflexivity.
Defined.

Lemma AA_transactions_run_once_in_order_witness :
  frames (events (Process plain_env toy_processor mixed_block tt tt))
  = flat_map validation_calls
      (AA_transactions plain_env (block_Transactions mixed_block)) ++
    flat_map execution_calls
      (AA_transactions plain_env (block_Transactions mixed_block)) ++
    flat_map
      (legacy_calls plain_env
         (MakeSigner (config toy_processor) (block_Number mixed_block)
            (block_Time mixed_block))
         (BaseFee (block_Header mixed_block)))
      (legacy_transactions plain_env (block_Transactions mixed_block)).
Proof.
  eapply (AA_transactions_run_once_in_order plain_env toy_processor
            mixed_block tt tt).
  vm_compute. reflexivity.
Defined.

Lemma legacy_transactions_run_once_in_order_witness :
  exists receipts logs gas,
    outcome (Process plain_env toy_processor mixed_block tt tt)
    = Returns (receipts, logs, gas, None) /\
    legacy_trace plain_env
      (MakeSigner (config toy_processor) (block_Number mixed_block)
         (block_Time mixed_block))
      (BaseFee (block_Header mixed_block))
      (legacy_transactions plain_env (block_Transactions mixed_block))
      (events (Process plain_env toy_processor mixed_block tt tt)).
Proof.
  do 3 eexists. split; [vm_compute; reflexivity|].
  eapply (legacy_transactions_run_once_in_order plain_env toy_processor
            mixed_block tt tt).
  vm_compute. reflexivity.
Defined.

(** *** The exported functions on one transaction *)

Lemma applied_transaction_receipt_witness :
  exists receipt,
    outcome (toy_apply plain_env (legacy_tx x01)) = Returns (receipt, None) /\
    exists r m result,
      receipt = Some r /\
      TransactionToMessage plain_env (legacy_tx x01)
        (MakeSigner pre_shanghai 1 1) None
      = (Some m, None) /\
      events (toy_apply plain_env (legacy_tx x01))
      = [EvApplyMessage TransactionFrame m (inl result)] /\
      legacy_receipt 1 [xbb] r (legacy_tx x01) /\
      Status r = (if Failed result then ReceiptStatusFailed
                  else ReceiptStatusSuccessful) /\
      GasUsed r = UsedGas result /\
      CumulativeGasUsed r = add64 0 (UsedGas result) /\
      usedGas (final (toy_apply plain_env (legacy_tx x01)))
      = CumulativeGasUsed r /\
      (To m <> None -> ContractAddress r = Address_zero) /\
      (tx_Type (legacy_tx x01) <> BlobTxType plain_env ->
       BlobGasUsed r = 0 /\ BlobGasPrice r = None).
Proof.
  eexists. split; [vm_compute; reflexivity|].
  apply (applied_transaction_receipt plain_env pre_shanghai tt None
           (toy_header 1000000) (legacy_tx x01) tt (toy_state 1000000)).
  vm_compute. reflexivity.
Defined.

Lemma failed_transaction_leaves_the_counter_witness :
  (None : option (Receipt unit)) = None /\
  usedGas (final (toy_apply (toy_env None ttm_fails) (legacy_tx x01))) = 0 /\
  (snd (TransactionToMessage (toy_env None ttm_fails) (legacy_tx x01)
          (MakeSigner pre_shanghai 1 1) None)
   = Some (errors_New "invalid sender") /\
   events (toy_apply (toy_env None ttm_fails) (legacy_tx x01)) = [] /\
   final (toy_apply (toy_env None ttm_fails) (legacy_tx x01))
   = toy_state 1000000 \/
   exists m,
     events (toy_apply (toy_env None ttm_fails) (legacy_tx x01))
     = [EvApplyMessage TransactionFrame m
          (inr (errors_New "invalid sender"))]).
Proof.
  apply (failed_transaction_leaves_the_counter (toy_env None ttm_fails)
           pre_shanghai tt None (toy_header 1000000) (legacy_tx x01) tt
           (toy_state 1000000) None (errors_New "invalid sender")).
  vm_compute. reflexivity.
Defined.

Lemma validation_records_no_gas_witness :
  exists vpr,
    Some toy_vpr = Some vpr /\ Tx vpr = Some (aa_tx sponsor []) /\
    paymasterContext vpr = [] /\
    validationGasUsed vpr = 0 /\ paymasterGasUsed vpr = 0 /\
    usedGas (final (toy_validate plain_env (aa_tx sponsor []))) = 0.
Proof.
  apply (validation_records_no_gas plain_env pre_shanghai tt None
           (toy_header 1000000) (aa_tx sponsor []) tt (toy_state 1000000)
           (Some toy_vpr)).
  vm_compute. reflexivity.
Defined.

Lemma validation_fails_on_frame_errors_only_witness :
  (None : option ValidationPhaseResult) = None /\
  ((exists frame m,
      In (EvApplyMessage frame m (inr paymaster_validation_failed))
        (events (toy_validate (toy_env (Some sponsor) ttm_ok)
                   (aa_tx sponsor [])))) \/
   paymaster_validation_failed = paymaster_validation_failed /\
   existsb sponsor_rejected
     (events (toy_validate (toy_env (Some sponsor) ttm_ok)
                (aa_tx sponsor []))) = true).
Proof.
  apply (validation_fails_on_frame_errors_only
           (toy_env (Some sponsor) ttm_ok) pre_shanghai tt None
           (toy_header 1000000) (aa_tx sponsor []) tt (toy_state 1000000)
           None paymaster_validation_failed).
  vm_compute. reflexivity.
Defined.

Lemma execution_receipt_mirrors_the_frame_witness :
  exists r vpr tx m result,
    Some toy_AA_receipt = Some r /\ Some toy_vpr = Some vpr /\
    Tx vpr = Some tx /\
    AA_receipt r tx /\
    In (EvApplyMessage AccountExecutionFrame m (inl result))
      (events (toy_execute plain_env (Some toy_vpr) (toy_state 1000000))) /\
    Status r = (if Failed result then ReceiptStatusFailed
                else ReceiptStatusSuccessful) /\
    usedGas (final (toy_execute plain_env (Some toy_vpr)
                      (toy_state 1000000))) = 0.
Proof.
  apply (execution_receipt_mirrors_the_frame plain_env pre_shanghai
           (Some toy_vpr) 1 [xbb] tt None (toy_header 1000000) tt
           (toy_state 1000000) (Some toy_AA_receipt)).
  vm_compute. reflexivity.
Defined.

Lemma execution_fails_on_errors_only_witness :
  (None : option (Receipt unit)) = None /\
  exists vpr tx,
    Some toy_vpr = Some vpr /\ Tx vpr = Some tx /\
    (snd (TransactionToMessage plain_env tx
            (MakeSigner pre_shanghai 1 1) None)
     = Some (errors_New "gas limit reached") \/
     exists frame m,
       In (EvApplyMessage frame m (inr (errors_New "gas limit reached")))
         (events (toy_execute plain_env (Some toy_vpr) (toy_state 1000)))).
Proof.
  apply (execution_fails_on_errors_only plain_env pre_shanghai
           (Some toy_vpr) 1 [xbb] tt None (toy_header 1000000) tt
           (toy_state 1000) None (errors_New "gas limit reached")).
  vm_compute. reflexivity.
Defined.

Lemma every_error_has_a_cause_witness :
  error_cause plain_env toy_processor small_block
    (events (Process plain_env toy_processor small_block tt tt))
    (errors_New "gas limit reached").
Proof.
  apply (every_error_has_a_cause plain_env toy_processor small_block tt tt
           [] [] 0 (errors_New "gas limit reached")).
  vm_compute. reflexivity.
Defined.

End CoreExamples.

(** ** Properties of the authorization-tuple codec *)

Section CodecFacts.

Import Tests.

Variable c : Codecs.

(** A key that is the name of a field selects that field, whatever the
    folding. *)
Lemma field_of_key_name f : field_of_key c (field_name f) = Some f.
Proof. destruct f; reflexivity. Qed.

Lemma Field_eqb_eq f g : Field_eqb f g = true <-> f = g.
Proof. destruct f, g; cbn; split; congruence. Qed.

(** Storing a value sets or resets the field it is stored in and leaves
    the other fields alone. *)
Lemma store_is_set f v d d' :
  store c f v d = inl d' ->
  is_set f d' = negb (is_null v) /\
  forall g, g <> f -> is_set g d' = is_set g d.
Proof.
  unfold store.
  destruct f, v; cbn [is_null negb];
    repeat match goal with
           | |- context [match ?x with inl _ => _ | inr _ => _ end] =>
               destruct x
           end;
    intros E; try discriminate; injection E as <-;
    (split; [reflexivity|]); intros g Hg; destruct g;
    first [reflexivity | congruence].
Qed.

(** What decoding the members of an object leaves in a field. *)
Lemma store_members_is_set f members d d' :
  store_members c members d = inl d' ->
  is_set f d'
  = match lookup_field c f members with
    | Some v => negb (is_null v)
    | None => is_set f d
    end.
Proof.
  revert d. induction members as [|[key v] rest IH]; intros d E.
  - cbn in E. injection E as <-. reflexivity.
  - cbn [store_members lookup_field] in *.
    destruct (field_of_key c key) as [f'|].
    + destruct (store c f' v d) as [d1|err] eqn:Es; [|discriminate].
      rewrite (IH _ E).
      destruct (lookup_field c f rest); [reflexivity|].
      destruct (store_is_set _ _ _ _ Es) as [Hset Hother].
      destruct (Field_eqb f f') eqn:Ef.
      * apply Field_eqb_eq in Ef. subst f'. exact Hset.
      * apply Hother. intros ->.
        assert (Field_eqb f' f' = true) by (apply Field_eqb_eq; reflexivity).
        congruence.
    + rewrite (IH _ E). destruct (lookup_field c f rest); reflexivity.
Qed.

Lemma absent_not_set f members d :
  json_Unmarshal c (JObject members) dec.zero = inl d ->
  absent c f members -> is_set f d = false.
Proof.
  cbn [json_Unmarshal]. intros E Ha.
  rewrite (store_members_is_set f _ _ _ E), Ha. destruct f; reflexivity.
Qed.

Lemma present_set f members d :
  json_Unmarshal c (JObject members) dec.zero = inl d ->
  present c f members -> is_set f d = true.
Proof.
  cbn [json_Unmarshal]. intros E (v & Hl & Hv).
  rewrite (store_members_is_set f _ _ _ E), Hl.
  destruct v; [congruence| | | | |]; reflexivity.
Qed.

(** C8, amended.  Take a JSON object whose values decode for the fields
    they are
    given to.  If one of the fields address, nonce, v, r, s is absent
    from it while the other four are present, decoding it fails with
    "missing required field '<name>' for stAuthorization", naming that
    field; and if those five are present, decoding it returns no error,
    whether chainId is present or absent. *)
Theorem missing_required_field_named s members :
  well_formed c (JObject members) ->
  (forall f,
     In f required_fields ->
     absent c f members ->
     (forall g, In g required_fields -> g <> f -> present c g members) ->
     snd (UnmarshalJSON c s (JObject members))
     = Some (errors_New
               ("missing required field '" ++ field_name f ++
                "' for stAuthorization"))) /\
  ((forall g, In g required_fields -> present c g members) ->
   snd (UnmarshalJSON c s (JObject members)) = None).
Proof.
  intros [d Hd].
  assert (Hset : forall g, present c g members -> is_set g d = true)
    by (intros g; apply present_set; exact Hd).
  assert (Hunset : forall g, absent c g members -> is_set g d = false)
    by (intros g; apply absent_not_set; exact Hd).
  unfold UnmarshalJSON. rewrite Hd. clear Hd.
  unfold required_fields.
  split.
  - intros f Hf Ha Hp.
    assert (Hf' := Hunset f Ha).
    assert (Hg : forall g, In g [fAddress; fNonce; fV; fR; fS] ->
                           g <> f -> is_set g d = true)
      by (intros g Hg Hne; apply Hset, Hp; assumption).
    pose proof (Hg fAddress) as HA. pose proof (Hg fNonce) as HN.
    pose proof (Hg fV) as HV. pose proof (Hg fR) as HR.
    pose proof (Hg fS) as HS.
    clear Hset Hunset Hp Hg Ha.
    cbn [In] in *.
    destruct d as [ch [a|] [n|] [v|] [r|] [s_|]];
      cbn [is_set dec.ChainID dec.Address dec.Nonce dec.V dec.R dec.S] in *;
      destruct Hf as [<-|[<-|[<-|[<-|[<-|[]]]]]];
      try discriminate; try reflexivity;
      first [ discriminate HA; [auto|discriminate]
            | discriminate HN; [auto 6|discriminate]
            | discriminate HV; [auto 6|discriminate]
            | discriminate HR; [auto 6|discriminate]
            | discriminate HS; [auto 6|discriminate] ].
  - intros Hp.
    pose proof (Hset fAddress (Hp fAddress ltac:(cbn; auto 6))) as HA.
    pose proof (Hset fNonce (Hp fNonce ltac:(cbn; auto 6))) as HN.
    pose proof (Hset fV (Hp fV ltac:(cbn; auto 6))) as HV.
    pose proof (Hset fR (Hp fR ltac:(cbn; auto 6))) as HR.
    pose proof (Hset fS (Hp fS ltac:(cbn; auto 6))) as HS.
    destruct d as [ch [a|] [n|] [v|] [r|] [s_|]];
      cbn [is_set dec.ChainID dec.Address dec.Nonce dec.V dec.R dec.S] in *;
      try discriminate; reflexivity.
Qed.

(** C9, amended.  An authorization tuple whose pointers are all set, and
    whose
    values decode from their text forms to themselves, is decoded from its
    own encoding into a record equal to it, whatever the receiver held
    before; neither step returns an error. *)
Theorem marshal_unmarshal_roundtrip s0 s :
  populated s ->
  text_round_trips c s ->
  snd (MarshalJSON c s) = None /\
  UnmarshalJSON c s0 (fst (MarshalJSON c s)) = (s, None).
Proof.
  intros (Hc & Hv & Hr & Hs) (H256 & H64 & Haddr).
  split; [reflexivity|].
  destruct s as [[ch|] a n [v|] [r|] [s_|]]; cbn in Hc, Hv, Hr, Hs;
    try congruence.
  cbn [ChainID Address Nonce V R S] in *.
  assert (Ech := H256 ch ltac:(cbn; auto)).
  assert (Ev := H256 v ltac:(cbn; auto)).
  assert (Er := H256 r ltac:(cbn; auto)).
  assert (Es := H256 s_ ltac:(cbn; auto 6)).
  unfold UnmarshalJSON, MarshalJSON, json_Marshal, json_pointer256.
  cbn [fst json_Unmarshal store_members enc.ChainID enc.Address enc.Nonce
         enc.V enc.R enc.S].
  rewrite !field_of_key_name.
  unfold store. cbn [ChainID Address Nonce V R S]. cbv beta iota.
  rewrite Ech; cbv beta iota; rewrite Haddr; cbv beta iota;
    rewrite H64; cbv beta iota; rewrite Ev; cbv beta iota;
    rewrite Er; cbv beta iota; rewrite Es; cbv beta iota.
  destruct s0; reflexivity.
Qed.


(** *** Missing fields, and what a failed decoding leaves *)

Lemma missing_not_set f members d :
  json_Unmarshal c (JObject members) dec.zero = inl d ->
  missing c f members -> is_set f d = false.
Proof.
  cbn [json_Unmarshal]. unfold missing. intros E Hm.
  rewrite (store_members_is_set f _ _ _ E).
  destruct (lookup_field c f members) as [v|];
    [subst v; reflexivity|destruct f; reflexivity].
Qed.

Lemma required_fields_split before f after :
  required_fields = before ++ f :: after ->
  before = [] /\ f = fAddress \/
  before = [fAddress] /\ f = fNonce \/
  before = [fAddress; fNonce] /\ f = fV \/
  before = [fAddress; fNonce; fV] /\ f = fR \/
  before = [fAddress; fNonce; fV; fR] /\ f = fS.
Proof.
  unfold required_fields. intros E.
  destruct before as [|b1 [|b2 [|b3 [|b4 [|b5 before]]]]];
    cbn [app] in E; injection E; intros; subst; auto 6.
  destruct before; discriminate.
Qed.

(** X22.  Take a JSON object whose values decode for the fields they are
    given to.  [UnmarshalJSON] reports the first of the fields address,
    nonce, v, r, s, in that order, that the object does not give a value
    to: when the fields before it are present and it is missing, be it
    absent or [null], the error is "missing required field '<name>' for
    stAuthorization" with its name, whatever the fields after it are. *)
Theorem first_missing_field_is_reported s members before f after :
  well_formed c (JObject members) ->
  required_fields = before ++ f :: after ->
  (forall g, In g before -> present c g members) ->
  missing c f members ->
  snd (UnmarshalJSON c s (JObject members))
  = Some (missing_required_field f).
Proof.
  intros [d Hd] Hsplit Hp Hm.
  assert (Hset : forall g, In g before -> is_set g d = true)
    by (intros g Hg; apply (present_set g members d Hd), Hp, Hg).
  assert (Hunset := missing_not_set f members d Hd Hm).
  unfold UnmarshalJSON. rewrite Hd. clear Hd Hp Hm.
  destruct (required_fields_split _ _ _ Hsplit)
    as [(-> & ->)|[(-> & ->)|[(-> & ->)|[(-> & ->)|(-> & ->)]]]];
    clear Hsplit.
  all: repeat match goal with
              | H : forall g, In g (?x :: ?l) -> _ |- _ =>
                  let Hx := fresh in
                  assert (Hx := H x (or_introl eq_refl));
                  assert (forall g, In g l -> is_set g d = true)
                    by (intros g0 Hg0; apply H; right; exact Hg0);
                  clear H
              end.
  all: destruct d as [ch [a|] [n|] [v|] [r|] [s_|]];
    cbn [is_set dec.ChainID dec.Address dec.Nonce dec.V dec.R dec.S] in *;
    try discriminate; reflexivity.
Qed.

(** What storing a value leaves in the field it is stored in, and in
    the others. *)
Lemma store_value f v d d' :
  store c f v d = inl d' ->
  (v = JNull \/ dec_holds c f v d') /\
  forall g, g <> f -> dec_same g d d'.
Proof.
  unfold store.
  destruct f, v;
    repeat match goal with
           | |- context [match ?x with inl _ => _ | inr _ => _ end] =>
               destruct x eqn:?
           end;
    intros E; try discriminate; injection E as <-;
    (split;
     [first [left; reflexivity
            |right; eexists; split; [eassumption|reflexivity]]
     |intros g Hg; destruct g; first [reflexivity | congruence]]).
Qed.

Lemma dec_holds_same g v d d' :
  dec_same g d d' -> dec_holds c g v d -> dec_holds c g v d'.
Proof.
  destruct g; cbn [dec_same dec_holds]; intros E (x & Hx & Hd);
    exists x; (split; [exact Hx|congruence]).
Qed.

Lemma dec_same_trans g d1 d2 d3 :
  dec_same g d1 d2 -> dec_same g d2 d3 -> dec_same g d1 d3.
Proof. destruct g; cbn [dec_same]; congruence. Qed.

(** What decoding the members of an object leaves in a field: the
    decoding of the last value given to it. *)
Lemma store_members_value g members d d' :
  store_members c members d = inl d' ->
  match lookup_field c g members with
  | Some v => v = JNull \/ dec_holds c g v d'
  | None => dec_same g d d'
  end.
Proof.
  revert d. induction members as [|[key v] rest IH]; intros d E.
  - cbn in E. injection E as <-. destruct g; reflexivity.
  - cbn [store_members lookup_field] in *.
    destruct (field_of_key c key) as [f'|].
    + destruct (store c f' v d) as [d1|err] eqn:Es; [|discriminate].
      specialize (IH _ E).
      destruct (lookup_field c g rest); [exact IH|].
      destruct (store_value _ _ _ _ Es) as [Hset Hother].
      destruct (Field_eqb g f') eqn:Ef.
      * apply Field_eqb_eq in Ef. subst f'.
        destruct Hset as [Hn|Hh]; [left; exact Hn|right].
        exact (dec_holds_same _ _ _ _ IH Hh).
      * apply (dec_same_trans g d d1 d'); [|exact IH].
        apply Hother. intros ->.
        assert (Field_eqb f' f' = true) by (apply Field_eqb_eq; reflexivity).
        congruence.
    + specialize (IH _ E). destruct (lookup_field c g rest); exact IH.
Qed.

(** A field the decoding has set holds the decoding of the value the
    object gives it. *)
Lemma set_field_value g members d :
  store_members c members dec.zero = inl d ->
  is_set g d = true ->
  exists v,
    lookup_field c g members = Some v /\ v <> JNull /\ dec_holds c g v d.
Proof.
  intros E Hset.
  pose proof (store_members_value g members _ _ E) as Hv.
  pose proof (store_members_is_set g members _ _ E) as Hs.
  rewrite Hset in Hs.
  destruct (lookup_field c g members) as [v|].
  - exists v. split; [reflexivity|].
    destruct Hv as [->|Hh]; [discriminate Hs|].
    split; [|exact Hh]. intros ->. discriminate Hs.
  - destruct g; discriminate Hs.
Qed.

(** X23.  A decoding that fails on a missing field has already written
    the receiver.  On a JSON value that [json.Unmarshal] accepts, when
    [UnmarshalJSON] returns an error it is the error of a missing
    required field; the receiver keeps what it held in that field and in
    the required fields after it, while each required field before it
    now holds the value the object gives that field, as the decoder of
    the field's type reads it. *)
Theorem failed_decoding_writes_the_fields_before s s' input err :
  well_formed c input ->
  UnmarshalJSON c s input = (s', Some err) ->
  exists before f after,
    required_fields = before ++ f :: after /\
    err = missing_required_field f /\
    (forall g, In g (f :: after) -> same_field g s s') /\
    (forall g, In g before -> holds_decoded c g input s').
Proof.
  intros [d Hd] E.
  assert (Hval : forall g,
            In g required_fields -> is_set g d = true ->
            exists members v,
              input = JObject members /\
              lookup_field c g members = Some v /\ v <> JNull /\
              dec_holds c g v d).
  { intros g Hg Hset. destruct input; cbn [json_Unmarshal] in Hd;
      try discriminate.
    - injection Hd as <-. destruct g; discriminate Hset.
    - destruct (set_field_value g members d Hd Hset) as (v & Hl & Hn & Hh).
      exists members, v. auto. }
  unfold UnmarshalJSON in E. rewrite Hd in E. clear Hd.
  unfold required_fields in *.
  destruct d as [ch [a|] [n|] [v|] [r|] [s_|]];
    cbn [dec.ChainID dec.Address dec.Nonce dec.V dec.R dec.S] in E;
    try discriminate E; injection E as <- <-.
  all: lazymatch goal with
       | |- exists _ _ _, _ /\ missing_required_field ?f = _ /\ _ =>
           lazymatch f with
           | fAddress => exists [], fAddress, [fNonce; fV; fR; fS]
           | fNonce => exists [fAddress], fNonce, [fV; fR; fS]
           | fV => exists [fAddress; fNonce], fV, [fR; fS]
           | fR => exists [fAddress; fNonce; fV], fR, [fS]
           | fS => exists [fAddress; fNonce; fV; fR], fS, []
           end
       end.
  all: split; [reflexivity|]; split; [reflexivity|].
  all: split; intros g Hg.
  all: try (cbn [In] in Hg;
            repeat match goal with
                   | H : _ \/ _ |- _ => destruct H as [<-|H]
                   | H : False |- _ => destruct H
                   end;
            destruct ch; reflexivity).
  all: cbn [In] in Hg.
  all: repeat match goal with
              | H : _ \/ _ |- _ => destruct H as [<-|H]
              | H : False |- _ => destruct H
              end.
  all: match goal with
       | |- holds_decoded _ ?g _ _ =>
           destruct (Hval g ltac:(cbn [In]; tauto) eq_refl)
             as (members & v0 & -> & Hl & Hn & Hh)
       end.
  all: exists members, v0.
  all: split; [reflexivity|]; split; [exact Hl|]; split; [exact Hn|].
  all: clear Hval Hl Hn.
  all: cbn [dec_holds dec.ChainID dec.Address dec.Nonce dec.V dec.R dec.S]
    in Hh.
  all: destruct Hh as (x & Hx & Ex); injection Ex as <-.
  all: destruct ch; cbn; eauto.
Qed.

(** *** Records with nil pointers *)

Lemma decode_own_encoding s0 s :
  text_round_trips c s ->
  UnmarshalJSON c s0 (fst (MarshalJSON c s))
  = match V s, R s, S s with
    | Some _, Some _, Some _ =>
        (match ChainID s with
         | Some _ => s
         | None => with_ChainID s (ChainID s0)
         end, None)
    | None, _, _ =>
        (with_Nonce
           (with_Address
              (match ChainID s with
               | Some ch => with_ChainID s0 (Some ch)
               | None => s0
               end) (Address s)) (Nonce s),
         Some (missing_required_field fV))
    | Some v, None, _ =>
        (with_V
           (with_Nonce
              (with_Address
                 (match ChainID s with
                  | Some ch => with_ChainID s0 (Some ch)
                  | None => s0
                  end) (Address s)) (Nonce s)) (Some v),
         Some (missing_required_field fR))
    | Some v, Some r, None =>
        (with_R
           (with_V
              (with_Nonce
                 (with_Address
                    (match ChainID s with
                     | Some ch => with_ChainID s0 (Some ch)
                     | None => s0
                     end) (Address s)) (Nonce s)) (Some v)) (Some r),
         Some (missing_required_field fS))
    end.
Proof.
  intros (H256 & H64 & Haddr).
  destruct s as [ch a n v r s_].
  cbn [ChainID Address Nonce V R S] in *.
  unfold UnmarshalJSON, MarshalJSON, json_Marshal, json_pointer256.
  cbn [fst json_Unmarshal store_members enc.ChainID enc.Address enc.Nonce
         enc.V enc.R enc.S].
  rewrite !field_of_key_name.
  unfold store. cbn [ChainID Address Nonce V R S]. cbv beta iota.
  destruct ch as [ch|], v as [v|], r as [r|], s_ as [s_|]; cbv beta iota.
  all: repeat match goal with
              | |- context [HexOrDecimal256_UnmarshalJSON c
                              (JString (HexOrDecimal256_MarshalText c ?z))] =>
                  rewrite (H256 z ltac:(cbn; auto 6)); cbv beta iota
              end.
  all: rewrite ?Haddr; cbv beta iota; rewrite ?H64; cbv beta iota.
  all: repeat match goal with
              | |- context [HexOrDecimal256_UnmarshalJSON c
                              (JString (HexOrDecimal256_MarshalText c ?z))] =>
                  rewrite (H256 z ltac:(cbn; auto 6)); cbv beta iota
              end.
  all: cbn [dec.ChainID dec.Address dec.Nonce dec.V dec.R dec.S].
  all: destruct s0; reflexivity.
Qed.

(** X24.  A record whose ChainID is nil does not come back from its own
    encoding as it was, unless the receiver's ChainID is nil too: the
    encoding writes [null] for it, and the decoding then leaves the
    receiver's ChainID in place, next to the other five fields of the
    record. *)
Theorem nil_chain_id_takes_the_receivers s0 s :
  text_round_trips c s ->
  ChainID s = None ->
  V s <> None -> R s <> None -> S s <> None ->
  UnmarshalJSON c s0 (fst (MarshalJSON c s))
  = (with_ChainID s (ChainID s0), None).
Proof.
  intros Ht Hc Hv Hr Hs. rewrite (decode_own_encoding s0 s Ht), Hc.
  destruct (V s); [|congruence]. destruct (R s); [|congruence].
  destruct (S s); [|congruence]. reflexivity.
Qed.

(** X25.  A record whose V, R or S is nil is encoded without error,
    but its encoding is never decoded without error, whatever the text
    codecs; and when the values of the record decode from their own text
    forms, the error is the missing-field error of the first of v, r, s
    that is nil. *)
Theorem nil_signature_is_not_decodable s0 s :
  V s = None \/ R s = None \/ S s = None ->
  snd (MarshalJSON c s) = None /\
  snd (UnmarshalJSON c s0 (fst (MarshalJSON c s))) <> None /\
  (text_round_trips c s ->
   snd (UnmarshalJSON c s0 (fst (MarshalJSON c s)))
   = Some (missing_required_field
             match V s, R s with
             | None, _ => fV
             | Some _, None => fR
             | Some _, Some _ => fS
             end)).
Proof.
  intros Hnil. split; [reflexivity|]. split.
  - destruct s as [ch a n v r s_].
    cbn [V R S] in Hnil.
    unfold UnmarshalJSON, MarshalJSON, json_Marshal, json_pointer256.
    cbn [fst json_Unmarshal store_members enc.ChainID enc.Address enc.Nonce
           enc.V enc.R enc.S].
    rewrite !field_of_key_name.
    unfold store. cbn [ChainID Address Nonce V R S]. cbv beta iota.
    destruct ch as [ch|], v as [v|], r as [r|], s_ as [s_|];
      try (destruct Hnil as [H|[H|H]]; discriminate H);
      cbv beta iota.
    all: repeat match goal with
                | |- context [HexOrDecimal256_UnmarshalJSON c ?v] =>
                    destruct (HexOrDecimal256_UnmarshalJSON c v);
                    cbv beta iota
                | |- context [HexOrDecimal64_UnmarshalJSON c ?v] =>
                    destruct (HexOrDecimal64_UnmarshalJSON c v);
                    cbv beta iota
                | |- context [Address_UnmarshalJSON c ?v] =>
                    destruct (Address_UnmarshalJSON c v); cbv beta iota
                end.
    all: cbn [dec.ChainID dec.Address dec.Nonce dec.V dec.R dec.S snd];
      discriminate.
  - intros Ht. rewrite (decode_own_encoding s0 s Ht).
    destruct (V s); [|reflexivity]. destruct (R s); [|reflexivity].
    destruct (S s); [|reflexivity].
    destruct Hnil as [H|[H|H]]; discriminate H.
Qed.

(** X26.  An object that gives no value to ChainID, be the key absent or
    its value [null], never changes the ChainID of the receiver, whether
    the decoding succeeds or fails. *)
Theorem missing_chain_id_keeps_the_receivers s members :
  missing c fChainID members ->
  ChainID (fst (UnmarshalJSON c s (JObject members))) = ChainID s.
Proof.
  intros Hm. unfold UnmarshalJSON.
  destruct (json_Unmarshal c (JObject members) dec.zero) as [d|err] eqn:Hd;
    [|reflexivity].
  assert (Hset := missing_not_set fChainID members d Hd Hm).
  destruct d as [[ch|] [a|] [n|] [v|] [r|] [s_|]];
    cbn [is_set dec.ChainID dec.Address dec.Nonce dec.V dec.R dec.S] in *;
    try discriminate; reflexivity.
Qed.

End CodecFacts.

(** ** The codec on the tuple of the specification *)

Section CodecExamples.

Import Tests Fixtures.

Lemma missing_required_field_witness :
  snd (UnmarshalJSON toy_codecs other_authorization
         (JObject (without "nonce" authorization_members)))
  = Some (errors_New "missing required field 'nonce' for stAuthorization")
  /\
  snd (UnmarshalJSON toy_codecs other_authorization
         (JObject (without "nonce" authorization_members)))
  = Some (errors_New
            ("missing required field '" ++ field_name fNonce ++
             "' for stAuthorization")).
Proof.
  split; [vm_compute; reflexivity|].
  apply (proj1 (missing_required_field_named toy_codecs
                  other_authorization
                  (without "nonce" authorization_members)
                  ltac:(eexists; vm_compute; reflexivity))).
  - cbn. auto.
  - vm_compute. reflexivity.
  - intros g Hg Hne.
    destruct Hg as [<-|[<-|[<-|[<-|[<-|[]]]]]]; try congruence;
      eexists; (split; [vm_compute; reflexivity|discriminate]).
Defined.

Lemma marshal_unmarshal_roundtrip_witness :
  snd (MarshalJSON toy_codecs authorization) = None /\
  UnmarshalJSON toy_codecs other_authorization
    (fst (MarshalJSON toy_codecs authorization))
  = (authorization, None).
Proof.
  apply (marshal_unmarshal_roundtrip toy_codecs other_authorization
           authorization).
  - repeat split; discriminate.
  - split; [|split; vm_compute; reflexivity].
    intros z Hz. cbn in Hz.
    destruct Hz as [E|[E|[E|[E|[]]]]]; injection E as <-;
      vm_compute; reflexivity.
Defined.

(** The object of the specification without its chainId decodes, and the
    receiver keeps the chain id it held. *)
Example chainId_may_be_omitted :
  UnmarshalJSON toy_codecs other_authorization
    (JObject (without "chainId" authorization_members))
  = ({| ChainID := Some 7; Tests.Address := addr xaa; Nonce := 5;
        V := Some 1; R := Some 2; S := Some 3 |}, None).
Proof. vm_compute. reflexivity. Qed.


(** *** Objects and tuples with missing values *)

Lemma first_missing_field_is_reported_witness :
  snd (UnmarshalJSON toy_codecs other_authorization
         (JObject partial_members))
  = Some (missing_required_field fV).
Proof.
  apply (first_missing_field_is_reported toy_codecs other_authorization
           partial_members [fAddress; fNonce] fV [fR; fS]).
  - eexists. vm_compute. reflexivity.
  - reflexivity.
  - intros g [<-|[<-|[]]]; eexists;
      (split; [vm_compute; reflexivity|discriminate]).
  - vm_compute. reflexivity.
Defined.

Lemma failed_decoding_writes_the_fields_before_witness :
  exists before f after,
    required_fields = before ++ f :: after /\
    missing_required_field fV = missing_required_field f /\
    (forall g,
       In g (f :: after) -> same_field g other_authorization half_decoded) /\
    (forall g,
       In g before ->
       holds_decoded toy_codecs g (JObject partial_members) half_decoded).
Proof.
  apply (failed_decoding_writes_the_fields_before toy_codecs
           other_authorization half_decoded (JObject partial_members)
           (missing_required_field fV)).
  - eexists. vm_compute. reflexivity.
  - vm_compute. reflexivity.
Defined.

Lemma nil_chain_id_takes_the_receivers_witness :
  UnmarshalJSON toy_codecs other_authorization
    (fst (MarshalJSON toy_codecs chainless))
  = (with_ChainID chainless (ChainID other_authorization), None).
Proof.
  apply (nil_chain_id_takes_the_receivers toy_codecs other_authorization
           chainless).
  - split; [|split; vm_compute; reflexivity].
    intros z Hz. cbn in Hz.
    destruct Hz as [E|[E|[E|[E|[]]]]]; try discriminate E;
      injection E as <-; vm_compute; reflexivity.
  - reflexivity.
  - discriminate.
  - discriminate.
  - discriminate.
Defined.

Lemma nil_signature_is_not_decodable_witness :
  snd (MarshalJSON toy_codecs unsigned) = None /\
  snd (UnmarshalJSON toy_codecs other_authorization
         (fst (MarshalJSON toy_codecs unsigned))) <> None /\
  (text_round_trips toy_codecs unsigned ->
   snd (UnmarshalJSON toy_codecs other_authorization
          (fst (MarshalJSON toy_codecs unsigned)))
   = Some (missing_required_field
             match V unsigned, R unsigned with
             | None, _ => fV
             | Some _, None => fR
             | Some _, Some _ => fS
             end)).
Proof.
  apply (nil_signature_is_not_decodable toy_codecs other_authorization
           unsigned).
  left. reflexivity.
Defined.

Lemma missing_chain_id_keeps_the_receivers_witness :
  ChainID (fst (UnmarshalJSON toy_codecs other_authorization
                  (JObject chainless_members)))
  = ChainID other_authorization.
Proof.
  apply (missing_chain_id_keeps_the_receivers toy_codecs
           other_authorization chainless_members).
  vm_compute. reflexivity.
Defined.

(** *** The claims as they are worded *)

(** C8 as stated fails.  In the object with [null] for v and without r,
    r is the one required field that is absent, and the error names v;
    and in an object without nonce whose address does not decode, the
    other four fields being present, the error is the decoder's. *)
Lemma missing_field_claim_fails_on_null :
  ~ (forall (c : Codecs) (s : stAuthorization)
            (members : list (string * json)) (f : Field),
       In f required_fields ->
       absent c f members ->
       (forall g, In g required_fields -> g <> f -> ~ absent c g members) ->
       snd (UnmarshalJSON c s (JObject members))
       = Some (missing_required_field f)) /\
  ~ (forall (c : Codecs) (s : stAuthorization)
            (members : list (string * json)) (f : Field),
       In f required_fields ->
       absent c f members ->
       (forall g, In g required_fields -> g <> f -> present c g members) ->
       snd (UnmarshalJSON c s (JObject members))
       = Some (missing_required_field f)).
Proof.
  split; intros H.
  - specialize (H toy_codecs other_authorization partial_members fR).
    assert (E : snd (UnmarshalJSON toy_codecs other_authorization
                       (JObject partial_members))
                = Some (missing_required_field fR)).
    { apply H.
      - cbn. auto.
      - vm_compute. reflexivity.
      - intros g Hg Hne.
        destruct Hg as [<-|[<-|[<-|[<-|[<-|[]]]]]]; try congruence;
          vm_compute; discriminate. }
    vm_compute in E. discriminate E.
  - specialize (H toy_codecs other_authorization malformed_members fNonce).
    assert (E : snd (UnmarshalJSON toy_codecs other_authorization
                       (JObject malformed_members))
                = Some (missing_required_field fNonce)).
    { apply H.
      - cbn. auto.
      - vm_compute. reflexivity.
      - intros g Hg Hne.
        destruct Hg as [<-|[<-|[<-|[<-|[<-|[]]]]]]; try congruence;
          eexists; (split; [vm_compute; reflexivity|discriminate]). }
    vm_compute in E. discriminate E.
Qed.

(** C9 as stated fails.  With text codecs that, like those of the field
    types, accept no integer of more than 256 bits, the tuple of the
    specification with v = 2^256 has every field populated, and its own
    encoding is not decoded. *)
Lemma roundtrip_fails_beyond_256_bits :
  ~ (forall (c : Codecs) (s0 s : stAuthorization),
       populated s ->
       UnmarshalJSON c s0 (fst (MarshalJSON c s)) = (s, None)).
Proof.
  intros H.
  specialize (H strict_codecs other_authorization oversized).
  assert (E : UnmarshalJSON strict_codecs other_authorization
                (fst (MarshalJSON strict_codecs oversized))
              = (oversized, None)).
  { apply H. repeat split; discriminate. }
  vm_compute in E. discriminate E.
Qed.

End CodecExamples.
